(** * Samsung HVAC emulator: Modbus slave emulation over TCP and RTU

    A shallow embedding of the protocol engine of the emulator
    (src/modules/modbus-rtu.js, the Modbus TCP class, src/modules/storage.js
    and the slave route of the web interface) and of its test client
    (src/self-tester.js), together with the properties of its register
    store, CRC engine, frame codec and RTU framer. *)

From Stdlib Require Import ZArith Lia.
From stdpp Require Import gmap list.

Local Open Scope Z_scope.

(** ** JavaScript numbers and bitwise operators

    The bitwise operators of JavaScript first convert their operands to
    signed 32-bit integers.  Numbers of the program are modelled as [Z]
    and the conversion is written out. *)

Module JS.

Definition ToInt32 (x : Z) : Z :=
  let m := x mod 2 ^ 32 in
  if 2 ^ 31 <=? m then m - 2 ^ 32 else m.

(** [a ^ b] *)
Definition xor (a b : Z) : Z := Z.lxor (ToInt32 a) (ToInt32 b).
(** [a & b] *)
Definition and (a b : Z) : Z := Z.land (ToInt32 a) (ToInt32 b).
(** [a | b] *)
Definition or (a b : Z) : Z := Z.lor (ToInt32 a) (ToInt32 b).
(** [a >> n], the sign-propagating shift; the count is taken modulo 32 *)
Definition shr (a n : Z) : Z := Z.shiftr (ToInt32 a) (n mod 32).

(** A JavaScript value as the register arrays hold them: a number, or
    [undefined] (a hole of the array, an index past its end, or any
    value that is not a number). *)
Inductive value : Type :=
| Undefined
| Number (n : Z).

(** [arr[i]] *)
Definition index (arr : list value) (i : Z) : value :=
  if i <? 0 then Undefined
  else match arr !! Z.to_nat i with
       | Some v => v
       | None => Undefined
       end.

(** [arr[i] = v]: an assignment past the end extends the array, leaving
    holes; a negative index names an ordinary property and leaves the
    elements alone. *)
Definition assign (arr : list value) (i : Z) (v : value) : list value :=
  if i <? 0 then arr
  else if (Z.to_nat i <? length arr)%nat then <[Z.to_nat i := v]> arr
  else arr ++ replicate (Z.to_nat i - length arr) Undefined ++ [v].

(** [arr.fill(v)] *)
Definition fill (arr : list value) (v : value) : list value :=
  replicate (length arr) v.

End JS.

(** ** Node.js Buffers

    A [Buffer] is a sequence of bytes, each a number in [0, 256).  The
    accessors throw on a value or an offset out of range; a thrown
    exception is [None]. *)

Module Buffer.

Abbreviation t := (list Z).

Definition is_byte (b : Z) : Prop := 0 <= b < 256.
Definition wf (buf : t) : Prop := Forall is_byte buf.

Definition len (buf : t) : Z := Z.of_nat (length buf).

(** [Buffer.alloc(size)]: zero-filled *)
Definition alloc (size : Z) : option t :=
  if size <? 0 then None else Some (replicate (Z.to_nat size) 0).

(** [buf[offset]] *)
Definition get (buf : t) (offset : Z) : option Z :=
  if offset <? 0 then None else buf !! Z.to_nat offset.

Definition readUInt8 (buf : t) (offset : Z) : option Z :=
  get buf offset.

Definition readUInt16BE (buf : t) (offset : Z) : option Z :=
  first ← get buf offset;
  last ← get buf (offset + 1);
  Some (first * 2 ^ 8 + last).

Definition readUInt16LE (buf : t) (offset : Z) : option Z :=
  first ← get buf offset;
  last ← get buf (offset + 1);
  Some (first + last * 2 ^ 8).

Definition writeUInt8 (buf : t) (value offset : Z) : option t :=
  if (value <? 0) || (255 <? value) then None
  else if (offset <? 0) || (len buf <? offset + 1) then None
  else Some (<[Z.to_nat offset := value]> buf).

Definition writeUInt16BE (buf : t) (value offset : Z) : option t :=
  if (value <? 0) || (65535 <? value) then None
  else if (offset <? 0) || (len buf <? offset + 2) then None
  else Some (<[Z.to_nat (offset + 1) := value mod 256]>
             (<[Z.to_nat offset := value / 256]> buf)).

(** [writeUInt16BE] applied to a JavaScript value: anything that is not
    a number is refused with a type error. *)
Definition writeValueUInt16BE (buf : t) (v : JS.value) (offset : Z)
  : option t :=
  match v with
  | JS.Number n => writeUInt16BE buf n offset
  | JS.Undefined => None
  end.

(** Offsets of [slice]: negative ones count from the end, all are
    clamped to the buffer. *)
Definition adjustOffset (offset length : Z) : Z :=
  if offset <? 0 then Z.max (offset + length) 0
  else Z.min offset length.

(** [buf.slice(start, end)] *)
Definition slice (buf : t) (start end_ : Z) : t :=
  let s := adjustOffset start (len buf) in
  let e := adjustOffset end_ (len buf) in
  take (Z.to_nat (e - s)) (drop (Z.to_nat s) buf).

(** [buf.slice(start)] *)
Definition slice_from (buf : t) (start : Z) : t :=
  slice buf start (len buf).

(** [Buffer.concat([a, b])] *)
Definition concat (a b : t) : t := a ++ b.

(** [Buffer.from([...])]: every entry is truncated to a byte *)
Definition from (l : list Z) : t := (λ v, JS.and v 255) <$> l.

(** [source.copy(target, targetStart)]: as many bytes as fit *)
Definition copy (source target : t) (targetStart : nat) : t :=
  take targetStart target
  ++ take (length target - targetStart)%nat source
  ++ drop (targetStart + length source)%nat target.

End Buffer.

(** ** CRC16 engine (calculateCRC / appendCRC / verifyCRC)

    The three functions are textually the same in the RTU class, in the
    legacy TCP-carried RTU class and in the monolithic server. *)

Module CRC.

(** One round of the inner loop [for (let i = 0; i < 8; i++)]. *)
Definition shift_once (crc : Z) : Z :=
  if negb (JS.and crc 1 =? 0) then JS.xor (JS.shr crc 1) 0xa001
  else JS.shr crc 1.

Fixpoint shift_loop (n : nat) (crc : Z) : Z :=
  match n with
  | O => crc
  | S n' => shift_loop n' (shift_once crc)
  end.

(** Body of the outer loop for the byte [buffer[pos]]. *)
Definition update (crc byte : Z) : Z :=
  shift_loop 8 (JS.xor crc byte).

Definition calculateCRC (buffer : Buffer.t) : Z :=
  fold_left update buffer 0xffff.

Definition appendCRC (bufferWithoutCRC : Buffer.t) : option Buffer.t :=
  let crc := calculateCRC bufferWithoutCRC in
  crcBuf ← Buffer.alloc 2;
  crcBuf ← Buffer.writeUInt8 crcBuf (JS.and crc 0xff) 0;
  crcBuf ← Buffer.writeUInt8 crcBuf (JS.and (JS.shr crc 8) 0xff) 1;
  Some (Buffer.concat bufferWithoutCRC crcBuf).

Definition verifyCRC (buffer : Buffer.t) : option bool :=
  if Buffer.len buffer <? 3 then Some false
  else
    let data := Buffer.slice buffer 0 (-2) in
    receivedCrc ← Buffer.readUInt16LE buffer (Buffer.len buffer - 2);
    let calculatedCrc := calculateCRC data in
    Some (receivedCrc =? calculatedCrc).

End CRC.

(** ** The register store and the effects of the frame codec

    [storage.getSlaves()] hands out the one shared object that maps a slave
    id to its device; both transports and the web routes mutate it in
    place.  The store is threaded explicitly; a computation either yields a
    value or throws, and in both cases leaves a store behind (what was
    written before an exception stays written). *)

Record SlaveDevice : Type := { registers : list JS.value }.

Abbreviation Slaves := (gmap Z SlaveDevice).

Definition M (A : Type) : Type := Slaves → option A * Slaves.

Global Instance M_ret : MRet M := λ A x s, (Some x, s).

Global Instance M_bind : MBind M := λ A B f m s,
  match m s with
  | (Some x, s') => f x s'
  | (None, s') => (None, s')
  end.

(** A Buffer operation that may throw, run inside the codec. *)
Definition lift {A : Type} (o : option A) : M A := λ s, (o, s).

(** [this.storage.getSlaves()] *)
Definition getSlaves : M Slaves := λ s, (Some s, s).

(** [slaveId in slaves] *)
Definition js_in (slaveId : Z) (slaves : Slaves) : bool :=
  match slaves !! slaveId with
  | Some _ => true
  | None => false
  end.

(** [slaves[slaveId].registers[idx]] *)
Definition readRegister (slaveId idx : Z) : M JS.value := λ s,
  match s !! slaveId with
  | Some dev => (Some (JS.index (registers dev) idx), s)
  | None => (None, s)
  end.

(** [slaves[slaveId].registers[idx] = value] *)
Definition writeRegister (slaveId idx : Z) (value : JS.value) : M unit := λ s,
  match s !! slaveId with
  | Some dev =>
      (Some (), <[slaveId := {| registers := JS.assign (registers dev) idx value |}]> s)
  | None => (None, s)
  end.

(** [try { ... } catch (err) { return null; }] around a body that returns a
    response or [null]. *)
Definition try_catch (body : M (option Buffer.t)) (s : Slaves)
  : option Buffer.t * Slaves :=
  match body s with
  | (Some r, s') => (r, s')
  | (None, s') => (None, s')
  end.

(** ** Modbus RTU (src/modules/modbus-rtu.js)

    [saveSlaves()] is dispatched without being awaited and only writes the
    data file; it has no effect on the store and is left out. *)

Module ModbusRTU.

Definition registerCount : Z := 500.

Definition createExceptionResponse (slaveId functionCode exceptionCode : Z)
  : option Buffer.t :=
  let exceptionFunctionCode := JS.or functionCode 0x80 in
  let responseWithoutCRC :=
    Buffer.from [slaveId; exceptionFunctionCode; exceptionCode] in
  CRC.appendCRC responseWithoutCRC.

(** The loop of case 0x03, [n] rounds from counter [i] on. *)
Fixpoint read_loop (n : nat) (i slaveId startAddr : Z)
    (responseBuffer : Buffer.t) : M Buffer.t :=
  match n with
  | O => mret responseBuffer
  | S n' =>
      val ← (if startAddr + i <? registerCount
             then readRegister slaveId (startAddr + i)
             else mret (JS.Number 0));
      responseBuffer ← lift (Buffer.writeValueUInt16BE responseBuffer val (3 + i * 2));
      read_loop n' (i + 1) slaveId startAddr responseBuffer
  end.

(** The loop of case 0x10. *)
Fixpoint write_loop (n : nat) (i slaveId startAddr : Z)
    (requestBuffer : Buffer.t) : M unit :=
  match n with
  | O => mret ()
  | S n' =>
      value ← lift (Buffer.readUInt16BE requestBuffer (7 + i * 2));
      (if startAddr + i <? registerCount
       then writeRegister slaveId (startAddr + i) (JS.Number value)
       else mret ());;
      write_loop n' (i + 1) slaveId startAddr requestBuffer
  end.

(** [return this.appendCRC(responseWithoutCRC)] *)
Definition finish (responseWithoutCRC : Buffer.t) : M (option Buffer.t) :=
  response ← lift (CRC.appendCRC responseWithoutCRC);
  mret (Some response).

Definition processRequest_body (requestBuffer : Buffer.t)
  : M (option Buffer.t) :=
  if Buffer.len requestBuffer <? 4 then mret None else
  crcOk ← lift (CRC.verifyCRC requestBuffer);
  if negb crcOk then mret None else
  slaveId ← lift (Buffer.readUInt8 requestBuffer 0);
  functionCode ← lift (Buffer.readUInt8 requestBuffer 1);
  slaves ← getSlaves;
  if negb (js_in slaveId slaves) then mret None else
  if functionCode =? 0x03 then
    if negb (Buffer.len requestBuffer =? 8) then mret None else
    startAddr ← lift (Buffer.readUInt16BE requestBuffer 2);
    quantity ← lift (Buffer.readUInt16BE requestBuffer 4);
    let byteCount := quantity * 2 in
    responseBuffer ← lift (Buffer.alloc (3 + byteCount));
    responseBuffer ← lift (Buffer.writeUInt8 responseBuffer slaveId 0);
    responseBuffer ← lift (Buffer.writeUInt8 responseBuffer functionCode 1);
    responseBuffer ← lift (Buffer.writeUInt8 responseBuffer byteCount 2);
    responseBuffer ← read_loop (Z.to_nat quantity) 0 slaveId startAddr responseBuffer;
    finish responseBuffer
  else if functionCode =? 0x06 then
    if negb (Buffer.len requestBuffer =? 8) then mret None else
    regAddr ← lift (Buffer.readUInt16BE requestBuffer 2);
    value ← lift (Buffer.readUInt16BE requestBuffer 4);
    (if regAddr <? registerCount
     then writeRegister slaveId regAddr (JS.Number value)
     else mret ());;
    finish (Buffer.slice requestBuffer 0 6)
  else if functionCode =? 0x10 then
    if Buffer.len requestBuffer <? 9 then mret None else
    startAddr ← lift (Buffer.readUInt16BE requestBuffer 2);
    quantity ← lift (Buffer.readUInt16BE requestBuffer 4);
    byteCount ← lift (Buffer.readUInt8 requestBuffer 6);
    if negb (byteCount =? quantity * 2)
       || negb (Buffer.len requestBuffer =? 7 + byteCount + 2)
    then mret None else
    write_loop (Z.to_nat quantity) 0 slaveId startAddr requestBuffer;;
    responseWithoutCRC ← lift (Buffer.alloc 6);
    responseWithoutCRC ← lift (Buffer.writeUInt8 responseWithoutCRC slaveId 0);
    responseWithoutCRC ← lift (Buffer.writeUInt8 responseWithoutCRC functionCode 1);
    responseWithoutCRC ← lift (Buffer.writeUInt16BE responseWithoutCRC startAddr 2);
    responseWithoutCRC ← lift (Buffer.writeUInt16BE responseWithoutCRC quantity 4);
    finish responseWithoutCRC
  else
    response ← lift (createExceptionResponse slaveId functionCode 0x01);
    mret (Some response).

Definition processRequest (requestBuffer : Buffer.t) (slaves : Slaves)
  : option Buffer.t * Slaves :=
  try_catch (processRequest_body requestBuffer) slaves.

End ModbusRTU.

(** ** Modbus TCP (the class with the MBAP header) *)

Module ModbusTCP.

Definition registerCount : Z := 500.

Definition createExceptionResponse
    (transactionId protocolId unitId functionCode exceptionCode : Z)
  : option Buffer.t :=
  response ← Buffer.alloc 9;
  response ← Buffer.writeUInt16BE response transactionId 0;
  response ← Buffer.writeUInt16BE response protocolId 2;
  response ← Buffer.writeUInt16BE response 3 4;
  response ← Buffer.writeUInt8 response unitId 6;
  response ← Buffer.writeUInt8 response (JS.or functionCode 0x80) 7;
  response ← Buffer.writeUInt8 response exceptionCode 8;
  Some response.

(** [return this.createExceptionResponse(...)] *)
Definition exception
    (transactionId protocolId unitId functionCode exceptionCode : Z)
  : M (option Buffer.t) :=
  response ← lift (createExceptionResponse transactionId protocolId unitId
                     functionCode exceptionCode);
  mret (Some response).

(** The loop of case 0x03. *)
Fixpoint read_loop (n : nat) (i unitId startAddr : Z)
    (responsePDU : Buffer.t) : M Buffer.t :=
  match n with
  | O => mret responsePDU
  | S n' =>
      val ← (if startAddr + i <? registerCount
             then readRegister unitId (startAddr + i)
             else mret (JS.Number 0));
      responsePDU ← lift (Buffer.writeValueUInt16BE responsePDU val (2 + i * 2));
      read_loop n' (i + 1) unitId startAddr responsePDU
  end.

(** The loop of case 0x10. *)
Fixpoint write_loop (n : nat) (i unitId startAddr : Z) (pdu : Buffer.t)
  : M unit :=
  match n with
  | O => mret ()
  | S n' =>
      value ← lift (Buffer.readUInt16BE pdu (6 + i * 2));
      (if startAddr + i <? registerCount
       then writeRegister unitId (startAddr + i) (JS.Number value)
       else mret ());;
      write_loop n' (i + 1) unitId startAddr pdu
  end.

(** The code after the [switch]: the MBAP header in front of the PDU. *)
Definition finish (transactionId protocolId unitId : Z)
    (responsePDU : Buffer.t) : M (option Buffer.t) :=
  let responseLength := Buffer.len responsePDU + 1 in
  response ← lift (Buffer.alloc (6 + responseLength));
  response ← lift (Buffer.writeUInt16BE response transactionId 0);
  response ← lift (Buffer.writeUInt16BE response protocolId 2);
  response ← lift (Buffer.writeUInt16BE response responseLength 4);
  response ← lift (Buffer.writeUInt8 response unitId 6);
  mret (Some (Buffer.copy responsePDU response 7)).

Definition processRequest_body (requestBuffer : Buffer.t)
  : M (option Buffer.t) :=
  if Buffer.len requestBuffer <? 8 then mret None else
  transactionId ← lift (Buffer.readUInt16BE requestBuffer 0);
  protocolId ← lift (Buffer.readUInt16BE requestBuffer 2);
  length ← lift (Buffer.readUInt16BE requestBuffer 4);
  unitId ← lift (Buffer.readUInt8 requestBuffer 6);
  functionCode ← lift (Buffer.readUInt8 requestBuffer 7);
  if negb (protocolId =? 0) then mret None else
  if Buffer.len requestBuffer <? 6 + length then mret None else
  slaves ← getSlaves;
  if negb (js_in unitId slaves) then
    exception transactionId protocolId unitId functionCode 0x0b
  else
  let pdu := Buffer.slice_from requestBuffer 7 in
  if functionCode =? 0x03 then
    if Buffer.len pdu <? 5 then
      exception transactionId protocolId unitId functionCode 0x03
    else
    startAddr ← lift (Buffer.readUInt16BE pdu 1);
    quantity ← lift (Buffer.readUInt16BE pdu 3);
    if (quantity <? 1) || (125 <? quantity) then
      exception transactionId protocolId unitId functionCode 0x03
    else
    let byteCount := quantity * 2 in
    responsePDU ← lift (Buffer.alloc (2 + byteCount));
    responsePDU ← lift (Buffer.writeUInt8 responsePDU functionCode 0);
    responsePDU ← lift (Buffer.writeUInt8 responsePDU byteCount 1);
    responsePDU ← read_loop (Z.to_nat quantity) 0 unitId startAddr responsePDU;
    finish transactionId protocolId unitId responsePDU
  else if functionCode =? 0x06 then
    if Buffer.len pdu <? 5 then
      exception transactionId protocolId unitId functionCode 0x03
    else
    regAddr ← lift (Buffer.readUInt16BE pdu 1);
    value ← lift (Buffer.readUInt16BE pdu 3);
    if regAddr <? registerCount then
      writeRegister unitId regAddr (JS.Number value);;
      finish transactionId protocolId unitId (Buffer.slice pdu 0 5)
    else
      exception transactionId protocolId unitId functionCode 0x02
  else if functionCode =? 0x10 then
    if Buffer.len pdu <? 6 then
      exception transactionId protocolId unitId functionCode 0x03
    else
    startAddr ← lift (Buffer.readUInt16BE pdu 1);
    quantity ← lift (Buffer.readUInt16BE pdu 3);
    byteCount ← lift (Buffer.readUInt8 pdu 5);
    if negb (byteCount =? quantity * 2) || (Buffer.len pdu <? 6 + byteCount)
    then exception transactionId protocolId unitId functionCode 0x03
    else
    write_loop (Z.to_nat quantity) 0 unitId startAddr pdu;;
    responsePDU ← lift (Buffer.alloc 5);
    responsePDU ← lift (Buffer.writeUInt8 responsePDU functionCode 0);
    responsePDU ← lift (Buffer.writeUInt16BE responsePDU startAddr 1);
    responsePDU ← lift (Buffer.writeUInt16BE responsePDU quantity 3);
    finish transactionId protocolId unitId responsePDU
  else
    exception transactionId protocolId unitId functionCode 0x01.

Definition processRequest (requestBuffer : Buffer.t) (slaves : Slaves)
  : option Buffer.t * Slaves :=
  try_catch (processRequest_body requestBuffer) slaves.

End ModbusTCP.

(** ** Storage (src/modules/storage.js) *)

Module Storage.

(** The constructor: [this.slaves = {}]. *)
Definition constructor : Slaves := ∅.

(** [new Array(registerCount)]: an array of holes *)
Definition new_Array (registerCount : nat) : list JS.value :=
  replicate registerCount JS.Undefined.

(** What [loadSlaves] uses of the data file: for every key of the parsed
    JSON object the array under [registers], its entries numbers or
    anything else ([JS.Undefined]).  [None] stands for a file that cannot
    be read or parsed, which [loadSlaves] catches and logs. *)
Definition DataFile : Type := option (gmap Z (list JS.value)).

Definition loadSlaves (file : DataFile) (slaves : Slaves) : Slaves :=
  match file with
  | None => slaves
  | Some savedSlaves =>
      map_fold
        (λ slaveId regs acc,
           if js_in slaveId acc
           then <[slaveId := {| registers := regs |}]> acc
           else acc)
        slaves savedSlaves
  end.

Definition initialize (slaveIds : list Z) (registerCount : nat)
    (file : DataFile) (slaves : Slaves) : Slaves :=
  let slaves :=
    foldl
      (λ acc slaveId,
         <[slaveId := {| registers := JS.fill (new_Array registerCount) (JS.Number 0) |}]> acc)
      slaves slaveIds in
  loadSlaves file slaves.

Definition clearSlave (slaveId : Z) (slaves : Slaves) : Slaves :=
  match slaves !! slaveId with
  | Some dev =>
      <[slaveId := {| registers := JS.fill (registers dev) (JS.Number 0) |}]> slaves
  | None => slaves
  end.

Definition clearAllSlaves (slaves : Slaves) : Slaves :=
  (λ dev, {| registers := JS.fill (registers dev) (JS.Number 0) |}) <$> slaves.

End Storage.

(** ** The server start-up and the slave route of the web interface *)

Module Server.

Definition SLAVE_IDS : list Z := [1; 2; 3; 4; 5; 6; 7; 8; 9; 10].
Definition REGISTER_COUNT : nat := 500.

(** [startServer]: [await storage.initialize(SLAVE_IDS, REGISTER_COUNT)]
    on the store the constructor made. *)
Definition startServer (file : Storage.DataFile) : Slaves :=
  Storage.initialize SLAVE_IDS REGISTER_COUNT file Storage.constructor.

End Server.

Module SlaveRoute.

(** [group = parseInt(req.query.group, 10)], [None] for [NaN], then the
    default. *)
Definition select_group (group : option Z) : Z :=
  match group with
  | None => 1
  | Some g => if (g <? 1) || (7 <? g) then 1 else g
  end.

(** The form: [body i] is the integer [parseInt(req.body["reg" + i], 10)]
    when the field is present and the result is not [NaN]; [None]
    otherwise, in which case the handler skips the register. *)
Definition Form : Type := Z → option Z.

(** The two loops of the POST handler, [n] rounds from counter [i] on;
    the first group writes [registers[i]], which is [base = 0]. *)
Fixpoint update_loop (n : nat) (i base slaveId : Z) (body : Form) : M unit :=
  match n with
  | O => mret ()
  | S n' =>
      match body i with
      | Some value =>
          writeRegister slaveId (base + i) (JS.Number (JS.and value 0xFFFF))
      | None => mret ()
      end;;
      update_loop n' (i + 1) base slaveId body
  end.

(** [router.post('/slave/:id')]; an unknown slave is answered 404. *)
Definition post (slaveId : Z) (group : option Z) (body : Form)
    (slaves : Slaves) : Slaves :=
  if negb (js_in slaveId slaves) then slaves
  else
    let group := select_group group in
    if group =? 1 then snd (update_loop 6 0 0 slaveId body slaves)
    else
      let base := (group - 1) * 50 in
      snd (update_loop 50 0 base slaveId body slaves).

(** [router.post('/slave/:id/clear')] *)
Definition post_clear (slaveId : Z) (slaves : Slaves) : Slaves :=
  Storage.clearSlave slaveId slaves.

End SlaveRoute.

(** ** The RTU framer (the data handler of [ModbusRTU.start]) *)

Module Framer.

(** [buffer] is [this.buffer]; [timerPending] tells whether the timer
    held in [this.frameTimeout] is still to fire; [portOpen] is
    [this.port && this.port.isOpen]. *)
Record state : Type := {
  buffer : Buffer.t;
  timerPending : bool;
  portOpen : bool
}.

Definition constructor (open : bool) : state :=
  {| buffer := []; timerPending := false; portOpen := open |}.

(** [this.port.on("data", ...)]: the timer is restarted and the bytes are
    accumulated. *)
Definition on_data (data : Buffer.t) (st : state) : state :=
  {| buffer := Buffer.concat (buffer st) data;
     timerPending := true;
     portOpen := portOpen st |}.

(** The callback of [setTimeout]: the new framer state, the store, and
    the bytes written to the port, if any. *)
Definition on_timeout (st : state) (slaves : Slaves)
  : state * Slaves * option Buffer.t :=
  let cleared :=
    {| buffer := []; timerPending := false; portOpen := portOpen st |} in
  if 8 <=? Buffer.len (buffer st) then
    let '(response, slaves') := ModbusRTU.processRequest (buffer st) slaves in
    (cleared, slaves', if portOpen st then response else None)
  else (cleared, slaves, None).

Inductive event : Type :=
| Data (data : Buffer.t)
| Silence.

(** One event of the serial port; the timer fires only when pending. *)
Definition step (ev : event) (st : state) (slaves : Slaves)
  : state * Slaves * option Buffer.t :=
  match ev with
  | Data data => (on_data data st, slaves, None)
  | Silence =>
      if timerPending st then on_timeout st slaves else (st, slaves, None)
  end.

(** A run of events, with the responses written in order. *)
Fixpoint run (evs : list event) (st : state) (slaves : Slaves)
  : state * Slaves * list Buffer.t :=
  match evs with
  | [] => (st, slaves, [])
  | ev :: evs' =>
      let '(st', slaves', out) := step ev st slaves in
      let '(st'', slaves'', outs) := run evs' st' slaves' in
      (st'', slaves'', from_option (λ o, [o]) [] out ++ outs)
  end.

End Framer.

(** ** Vocabulary of the properties *)

(** The invariant of a slave device: 500 registers, every one a 16-bit
    number. *)
Definition is_u16 (v : JS.value) : Prop :=
  match v with
  | JS.Number n => 0 <= n < 65536
  | JS.Undefined => False
  end.

Definition slave_ok (dev : SlaveDevice) : Prop :=
  length (registers dev) = 500%nat ∧ Forall is_u16 (registers dev).

Definition store_ok (slaves : Slaves) : Prop :=
  map_Forall (λ _ dev, slave_ok dev) slaves.

(** The same for the register arrays of a data file. *)
Definition file_ok (file : Storage.DataFile) : Prop :=
  ∀ savedSlaves, file = Some savedSlaves →
    map_Forall (λ _ regs, slave_ok {| registers := regs |}) savedSlaves.

(** The operations that touch the store once the server runs: a frame
    that reaches either codec, a form posted to the slave route, the two
    clear actions, and a reload of the data file. *)
Inductive operation : Type :=
| TcpFrame (req : Buffer.t)
| RtuFrame (req : Buffer.t)
| FormPost (slaveId : Z) (group : option Z) (body : SlaveRoute.Form)
| Clear (slaveId : Z)
| ClearAll
| Reload (file : Storage.DataFile).

Definition apply_operation (op : operation) (slaves : Slaves) : Slaves :=
  match op with
  | TcpFrame req => snd (ModbusTCP.processRequest req slaves)
  | RtuFrame req => snd (ModbusRTU.processRequest req slaves)
  | FormPost slaveId group body => SlaveRoute.post slaveId group body slaves
  | Clear slaveId => SlaveRoute.post_clear slaveId slaves
  | ClearAll => Storage.clearAllSlaves slaves
  | Reload file => Storage.loadSlaves file slaves
  end.

(** What an operation brings from outside is well formed: frames are
    bytes, and a reloaded file holds arrays of 500 16-bit numbers. *)
Definition operation_ok (op : operation) : Prop :=
  match op with
  | TcpFrame req | RtuFrame req => Buffer.wf req
  | Reload file => file_ok file
  | _ => True
  end.

(** The framer at rest: while no timer is pending the buffer is empty. *)
Definition idle_empty (st : Framer.state) : Prop :=
  Framer.timerPending st = false → Framer.buffer st = [].

(** The number a read of register [addr] must report: the stored value
    below 500, zero from there on. *)
Definition register_value (dev : SlaveDevice) (addr : Z) : JS.value :=
  if addr <? 500 then JS.index (registers dev) addr else JS.Number 0.

(** The two bytes [appendCRC] puts behind a buffer, low byte first. *)
Definition crc_bytes (buf : Buffer.t) : Buffer.t :=
  [CRC.calculateCRC buf mod 256; CRC.calculateCRC buf / 256].

(** An RTU frame that passes the CRC check, with its slave id and function
    code. *)
Definition rtu_frame (req : Buffer.t) (slaveId functionCode : Z) : Prop :=
  Buffer.wf req
  ∧ CRC.verifyCRC req = Some true
  ∧ Buffer.readUInt8 req 0 = Some slaveId
  ∧ Buffer.readUInt8 req 1 = Some functionCode.

(** The eight-byte RTU request of function codes 0x03 and 0x06:
    two 16-bit fields behind the function code. *)
Definition rtu_request (req : Buffer.t) (slaveId functionCode field1 field2 : Z)
  : Prop :=
  rtu_frame req slaveId functionCode
  ∧ Buffer.len req = 8
  ∧ Buffer.readUInt16BE req 2 = Some field1
  ∧ Buffer.readUInt16BE req 4 = Some field2.

(** A TCP frame that passes the checks on the MBAP header: at least eight
    bytes, protocol id 0, and no shorter than its length field says. *)
Definition tcp_frame (req : Buffer.t) (transactionId unitId functionCode : Z)
  : Prop :=
  Buffer.wf req
  ∧ 8 <= Buffer.len req
  ∧ Buffer.readUInt16BE req 0 = Some transactionId
  ∧ Buffer.readUInt16BE req 2 = Some 0
  ∧ (∃ length, Buffer.readUInt16BE req 4 = Some length
               ∧ 6 + length <= Buffer.len req)
  ∧ Buffer.readUInt8 req 6 = Some unitId
  ∧ Buffer.readUInt8 req 7 = Some functionCode.

(** A TCP request with two 16-bit fields behind the function code, as
    function codes 0x03 and 0x06 have. *)
Definition tcp_request (req : Buffer.t)
    (transactionId unitId functionCode field1 field2 : Z) : Prop :=
  tcp_frame req transactionId unitId functionCode
  ∧ Buffer.readUInt16BE req 8 = Some field1
  ∧ Buffer.readUInt16BE req 10 = Some field2.

(** A TCP request of function code 0x10 up to its byte count. *)
Definition tcp_write_request (req : Buffer.t)
    (transactionId unitId startAddr quantity byteCount : Z) : Prop :=
  tcp_request req transactionId unitId 0x10 startAddr quantity
  ∧ Buffer.readUInt8 req 12 = Some byteCount.

(** A 16-bit number as [writeUInt16BE] lays it out, high byte first. *)
Definition be16 (v : Z) : Buffer.t := [v / 256; v mod 256].

(** The number behind [register_value] (zero for what is not a number). *)
Definition register_number (dev : SlaveDevice) (addr : Z) : Z :=
  match register_value dev addr with
  | JS.Number n => n
  | JS.Undefined => 0
  end.

(** The data bytes of a read response: the registers [startAddr + i],
    [startAddr + i + 1], ... ([n] of them), two bytes each. *)
Fixpoint payload (dev : SlaveDevice) (startAddr i : Z) (n : nat) : Buffer.t :=
  match n with
  | O => []
  | S n' => be16 (register_number dev (startAddr + i)) ++ payload dev startAddr (i + 1) n'
  end.

(** A TCP response: the MBAP header with protocol id 0 in front of a PDU. *)
Definition mbap (transactionId unitId : Z) (pdu : Buffer.t) : Buffer.t :=
  be16 transactionId ++ [0; 0] ++ be16 (Buffer.len pdu + 1) ++ [unitId] ++ pdu.

(** A TCP exception response. *)
Definition tcp_exception (transactionId unitId functionCode code : Z) : Buffer.t :=
  mbap transactionId unitId [JS.or functionCode 0x80; code].

(** The PDU of a TCP read response. *)
Definition tcp_read_pdu (dev : SlaveDevice) (a q : Z) : Buffer.t :=
  [3; q * 2] ++ payload dev a 0 (Z.to_nat q).

(** The RTU response to a read of [q] registers from [a] on, before the
    CRC. *)
Definition rtu_read_pdu (slaveId : Z) (dev : SlaveDevice) (a q : Z) : Buffer.t :=
  [slaveId; 3; q * 2] ++ payload dev a 0 (Z.to_nat q).

(** The store after the guarded assignment
    [if (addr < this.registerCount) slaves[id].registers[addr] = value]
    that cases 0x06 and 0x10 of both transports share. *)
Definition store_write (slaveId addr value : Z) (slaves : Slaves) : Slaves :=
  snd ((if addr <? 500
        then writeRegister slaveId addr (JS.Number value)
        else mret ()) slaves).

(** The store after the write loop of case 0x10: [n] guarded assignments
    from counter [i] on, the values read from [buf] at [base + i * 2]. *)
Fixpoint write_registers (n : nat) (i slaveId startAddr : Z) (buf : Buffer.t)
    (base : Z) (slaves : Slaves) : Slaves :=
  match n with
  | O => slaves
  | S n' =>
      write_registers n' (i + 1) slaveId startAddr buf base
        (store_write slaveId (startAddr + i)
           (default 0 (Buffer.readUInt16BE buf (base + i * 2))) slaves)
  end.

(** What a client can observe of register [k] of slave [id]: nothing when
    the slave is not configured. *)
Definition reg_at (slaves : Slaves) (id k : Z) : option JS.value :=
  dev ← slaves !! id; Some (JS.index (registers dev) k).

(** The PDU that answers a write of [q] registers from [a] on. *)
Definition write_multiple_pdu (a q : Z) : Buffer.t := [16] ++ be16 a ++ be16 q.

(** A computation of the codec keeps the property [I] of the store,
    whether it returns or throws. *)
Definition preserves (I : Slaves → Prop) {A : Type} (m : M A) : Prop :=
  ∀ s, I s → I (snd (m s)).

(** A read response as the client decodes it: behind [header] bytes (the
    last two of them the function code 0x03 and the byte count) come [q]
    big-endian values, value [i] being register [a + i]. *)
Definition read_response (resp : Buffer.t) (header : Z) (dev : SlaveDevice)
    (a q : Z) : Prop :=
  Buffer.readUInt8 resp (header - 2) = Some 3
  ∧ Buffer.readUInt8 resp (header - 1) = Some (q * 2)
  ∧ ∀ i, 0 <= i < q →
      JS.Number <$> Buffer.readUInt16BE resp (header + 2 * i)
      = Some (register_value dev (a + i)).

(** ** Concrete stores and frames *)

Module Ex.

Definition zeros (n : nat) : list JS.value := replicate n (JS.Number 0).

(** Slave 1 with 7 in its last register. *)
Definition dev : SlaveDevice :=
  {| registers := <[499%nat := JS.Number 7]> (zeros 500) |}.
Definition store : Slaves := {[ 1 := dev ]}.

(** Read 3 registers from 499 on. *)
Definition tcp_read : Buffer.t := [0; 7; 0; 0; 0; 6; 1; 3; 1; 243; 0; 3].
Definition rtu_read : Buffer.t := [1; 3; 1; 243; 0; 3; 244; 4].

(** Read with quantities 126 and 128. *)
Definition tcp_read_126 : Buffer.t := [0; 7; 0; 0; 0; 6; 1; 3; 0; 0; 0; 126].
Definition rtu_read_126 : Buffer.t := [1; 3; 0; 0; 0; 126; 197; 234].
Definition rtu_read_128 : Buffer.t := [1; 3; 0; 0; 0; 128; 68; 106].

(** Read addressed to the unconfigured slave 99. *)
Definition tcp_read_99 : Buffer.t := [0; 7; 0; 0; 0; 6; 99; 3; 0; 0; 0; 2].
Definition rtu_read_99 : Buffer.t := [99; 3; 0; 0; 0; 2; 204; 73].

(** Write 42 to register 500. *)
Definition tcp_write_500 : Buffer.t := [0; 7; 0; 0; 0; 6; 1; 6; 1; 244; 0; 42].
Definition rtu_write_500 : Buffer.t := [1; 6; 1; 244; 0; 42; 72; 27].

(** Write 42 and 43 to registers 499 and 500. *)
Definition tcp_write_multiple : Buffer.t :=
  [0; 1; 0; 0; 0; 11; 1; 16; 1; 243; 0; 2; 4; 0; 42; 0; 43].

(** Write one register with a byte count of 3. *)
Definition tcp_write_bad_count : Buffer.t :=
  [0; 1; 0; 0; 0; 9; 1; 16; 0; 0; 0; 1; 3; 0; 42].
Definition rtu_write_bad_count : Buffer.t :=
  [1; 16; 0; 0; 0; 1; 3; 0; 42; 118; 79].

(** Write 42 to register 0, with one byte more than the byte count
    announces. *)
Definition tcp_write_surplus : Buffer.t :=
  [0; 1; 0; 0; 0; 10; 1; 16; 0; 0; 0; 1; 2; 0; 42; 99].

(** A data file with a one-entry array holding 70000 for slave 1. *)
Definition bad_file : Storage.DataFile := Some {[ 1 := [JS.Number 70000] ]}.

End Ex.

(** ** More of the code: the GET handler of the slave route *)

Module JSArray.

(** The start and end of [Array.prototype.slice]: a negative index counts
    from the end, and all are clamped to the array. *)
Definition relativeIndex (k len : Z) : Z :=
  if k <? 0 then Z.max (len + k) 0 else Z.min k len.

(** [arr.slice(start, end)] *)
Definition slice (arr : list JS.value) (start end_ : Z) : list JS.value :=
  let len := Z.of_nat (length arr) in
  let k := relativeIndex start len in
  let final := relativeIndex end_ len in
  take (Z.to_nat (final - k)) (drop (Z.to_nat k) arr).

End JSArray.

Module SlaveView.

(** What [res.render('slave', ...)] is given, besides the list of slaves
    and the slave id. *)
Record view : Type := {
  registers_shown : list JS.value;
  group : Z;
  startReg : Z
}.

(** [router.get('/slave/:id')]; [None] is the 404 answer. *)
Definition get (slaveId : Z) (group : option Z) (slaves : Slaves)
  : option view :=
  match slaves !! slaveId with
  | None => None
  | Some dev =>
      let group := SlaveRoute.select_group group in
      if group =? 1 then
        Some {| registers_shown := JSArray.slice (registers dev) 0 6;
                group := group;
                startReg := 0 |}
      else
        let start := (group - 1) * 50 in
        Some {| registers_shown := JSArray.slice (registers dev) start (start + 50);
                group := group;
                startReg := start |}
  end.

End SlaveView.

(** ** More of the code: the test client (src/self-tester.js)

    The client sends RTU frames over a socket to the RTU codec carried by
    TCP and prints what comes back. *)

Module SelfTester.

Definition DEVICE_ADDRESS : Z := 0x01.

(** [if (x)] on a number *)
Definition truthy (x : Z) : bool := negb (x =? 0).

(** The client's own [calculateCRC], which tests the low bit with
    [if (crc & 0x0001)]. *)
Definition shift_once (crc : Z) : Z :=
  if truthy (JS.and crc 1) then JS.xor (JS.shr crc 1) 0xA001
  else JS.shr crc 1.

Fixpoint shift_loop (n : nat) (crc : Z) : Z :=
  match n with
  | O => crc
  | S n' => shift_loop n' (shift_once crc)
  end.

Definition calculateCRC (buffer : Buffer.t) : Z :=
  fold_left (λ crc byte, shift_loop 8 (JS.xor crc byte)) buffer 0xFFFF.

(** [request[i] = v] on a Buffer: the value is stored modulo 256. *)
Definition set (buf : Buffer.t) (i : nat) (v : Z) : Buffer.t :=
  <[i := v mod 256]> buf.

(** [pendingRead] *)
Record pending : Type := { start : Z; quantity : Z }.

(** The first six bytes of either request, its two fields written behind
    the function code; [None] when [writeUInt16BE] refuses a field. *)
Definition header (functionCode field1 field2 : Z) : option Buffer.t :=
  request ← Buffer.alloc 8;
  let request := set request 0 DEVICE_ADDRESS in
  let request := set request 1 functionCode in
  request ← Buffer.writeUInt16BE request field1 2;
  Buffer.writeUInt16BE request field2 4.

(** The CRC of the first six bytes, put into the last two. *)
Definition seal (request : Buffer.t) : Buffer.t :=
  let crc := calculateCRC (Buffer.slice request 0 6) in
  let request := set request 6 (JS.and crc 0xFF) in
  set request 7 (JS.and (JS.shr crc 8) 0xFF).

(** The frame of either request. *)
Definition build (functionCode field1 field2 : Z) : option Buffer.t :=
  seal <$> header functionCode field1 field2.

(** [readHoldingRegisters]: the new [pendingRead], set before anything
    else, and the frame written to the socket. *)
Definition readHoldingRegisters (startAddress quantity : Z)
  : pending * option Buffer.t :=
  ({| start := startAddress; quantity := quantity |},
   build 0x03 startAddress quantity).

(** [writeHoldingRegister]: the frame written to the socket. *)
Definition writeHoldingRegister (registerAddress value : Z) : option Buffer.t :=
  build 0x06 registerAddress value.

(** What the data handler leaves behind: the lines "Register a: v" it has
    printed, as pairs, whether it then threw, and [pendingRead]. *)
Record outcome : Type := {
  printed : list (Z * Z);
  thrown : bool;
  pendingRead : option pending
}.

(** The two loops of the handler over a read response: [n] rounds from
    counter [i] on, register [first + i] printed with the value read at
    [3 + i * 2]; [false] when that read throws. *)
Fixpoint print_loop (n : nat) (i first : Z) (data : Buffer.t)
  : list (Z * Z) * bool :=
  match n with
  | O => ([], true)
  | S n' =>
      match Buffer.readUInt16BE data (3 + i * 2) with
      | None => ([], false)
      | Some value =>
          let '(lines, ok) := print_loop n' (i + 1) first data in
          ((first + i, value) :: lines, ok)
      end
  end.

(** [client.on('data', ...)]; a frame of at least 5 bytes has the three
    bytes the handler indexes. *)
Definition on_data (data : Buffer.t) (pendingRead : option pending) : outcome :=
  let quiet := {| printed := []; thrown := false; pendingRead := pendingRead |} in
  if Buffer.len data <? 5 then quiet
  else
    match data !! 1%nat, data !! 2%nat with
    | Some functionCode, Some byteCount =>
        if functionCode =? 0x03 then
          if Buffer.len data <? 3 + byteCount + 2 then quiet
          else
            match pendingRead with
            | Some p =>
                let '(lines, ok) :=
                  print_loop (Z.to_nat (quantity p)) 0 (start p) data in
                {| printed := lines; thrown := negb ok;
                   pendingRead := if ok then None else pendingRead |}
            | None =>
                (* [registers = byteCount / 2], a fraction when the count is
                   odd: the loop runs while [i < registers] *)
                let '(lines, ok) :=
                  print_loop (Z.to_nat ((byteCount + 1) / 2)) 0 0 data in
                {| printed := lines; thrown := negb ok; pendingRead := None |}
            end
        else if functionCode =? 0x06 then
          if Buffer.len data <? 8 then quiet
          else
            match Buffer.readUInt16BE data 2, Buffer.readUInt16BE data 4 with
            | Some regAddr, Some value =>
                {| printed := [(regAddr, value)]; thrown := false;
                   pendingRead := pendingRead |}
            | _, _ => {| printed := []; thrown := true; pendingRead := pendingRead |}
            end
        else quiet
    | _, _ => quiet
    end.

End SelfTester.

(** ** Vocabulary of the further properties *)

(** What a computation of the codec returns, when it returns, satisfies
    [Q]. *)
Definition post {A : Type} (m : M A) (Q : A → Prop) : Prop :=
  ∀ s x s', m s = (Some x, s') → Q x.



(** * Properties *)

(** ** Arithmetic of the bitwise operators *)

Section Bits.

Lemma ToInt32_small x : 0 <= x < 2 ^ 31 → JS.ToInt32 x = x.
Proof.
  intros Hx. unfold JS.ToInt32.
  rewrite Z.mod_small by lia.
  destruct (Z.leb_spec (2 ^ 31) x); lia.
Qed.

Lemma lxor_bound n a b :
  0 <= a < 2 ^ n → 0 <= b < 2 ^ n → 0 <= Z.lxor a b < 2 ^ n.
Proof.
  intros Ha Hb.
  assert (H0 : 0 <= Z.lxor a b) by (apply Z.lxor_nonneg; lia).
  split; [done|].
  destruct (Z.eq_dec (Z.lxor a b) 0) as [->|Hne]; [lia|].
  destruct (Z.le_gt_cases n 0) as [Hn|Hn].
  { assert (2 ^ n <= 1).
    { destruct (Z.eq_dec n 0) as [->|]; [simpl; lia|].
      rewrite Z.pow_neg_r; lia. }
    assert (a = 0) by lia. assert (b = 0) by lia. subst. simpl in Hne. done. }
  apply Z.log2_lt_pow2; [lia|].
  pose proof (Z.log2_lxor a b) as Hl.
  assert (Z.log2 a < n).
  { destruct (Z.eq_dec a 0) as [->|]; [simpl; lia|].
    apply Z.log2_lt_pow2; lia. }
  assert (Z.log2 b < n).
  { destruct (Z.eq_dec b 0) as [->|]; [simpl; lia|].
    apply Z.log2_lt_pow2; lia. }
  lia.
Qed.

Lemma xor_u16 a b :
  0 <= a < 65536 → 0 <= b < 65536 → 0 <= JS.xor a b < 65536.
Proof.
  intros Ha Hb. unfold JS.xor.
  rewrite !ToInt32_small by lia.
  apply (lxor_bound 16); lia.
Qed.

Lemma shr_small a n :
  0 <= a < 2 ^ 31 → 0 <= n < 32 → JS.shr a n = a / 2 ^ n.
Proof.
  intros Ha Hn. unfold JS.shr.
  rewrite ToInt32_small by lia.
  rewrite Z.mod_small by lia.
  apply Z.shiftr_div_pow2. lia.
Qed.

Lemma and_low a k :
  0 <= a < 2 ^ 31 → 0 <= k < 31 → JS.and a (2 ^ k - 1) = a mod 2 ^ k.
Proof.
  intros Ha Hk. unfold JS.and.
  assert (0 < 2 ^ k) by (apply Z.pow_pos_nonneg; lia).
  assert (2 ^ k < 2 ^ 31) by (apply Z.pow_lt_mono_r; lia).
  rewrite !ToInt32_small by lia.
  replace (2 ^ k - 1) with (Z.ones k) by (rewrite Z.ones_equiv; lia).
  apply Z.land_ones. lia.
Qed.

Lemma and_0xff a : 0 <= a < 2 ^ 31 → JS.and a 0xff = a mod 256.
Proof. intros Ha. apply (and_low a 8); lia. Qed.

Lemma and_0xffff a : 0 <= a < 2 ^ 31 → JS.and a 0xffff = a mod 65536.
Proof. intros Ha. apply (and_low a 16); lia. Qed.

Lemma or_0x80_byte fc :
  0 <= fc < 256 → 0 <= JS.or fc 0x80 < 256.
Proof.
  intros Hfc. unfold JS.or.
  rewrite !ToInt32_small by lia.
  split; [apply Z.lor_nonneg; lia|].
  destruct (Z.eq_dec (Z.lor fc 128) 0) as [->|Hne]; [lia|].
  assert (0 <= Z.lor fc 128) by (apply Z.lor_nonneg; lia).
  change 256 with (2 ^ 8).
  apply Z.log2_lt_pow2; [lia|].
  rewrite Z.log2_lor by lia.
  assert (Z.log2 fc < 8).
  { destruct (Z.eq_dec fc 0) as [->|]; [simpl; lia|].
    apply Z.log2_lt_pow2; lia. }
  change (Z.log2 128) with 7. lia.
Qed.

End Bits.

(** ** Buffers *)

Section Buffers.

Lemma get_nat (buf : Buffer.t) (i : nat) :
  Buffer.get buf (Z.of_nat i) = buf !! i.
Proof.
  unfold Buffer.get.
  destruct (Z.ltb_spec (Z.of_nat i) 0); [lia|].
  by rewrite Nat2Z.id.
Qed.

Lemma get_app_r (a b : Buffer.t) k :
  0 <= k → Buffer.get (a ++ b) (Buffer.len a + k) = Buffer.get b k.
Proof.
  intros Hk. unfold Buffer.get, Buffer.len.
  destruct (Z.ltb_spec (Z.of_nat (length a) + k) 0); [lia|].
  destruct (Z.ltb_spec k 0); [lia|].
  rewrite lookup_app_r by lia. f_equal. lia.
Qed.

Lemma get_app_l (a b : Buffer.t) k :
  k < Buffer.len a → Buffer.get (a ++ b) k = Buffer.get a k.
Proof.
  intros Hk. unfold Buffer.get, Buffer.len in *.
  destruct (Z.ltb_spec k 0); [done|].
  apply lookup_app_l. lia.
Qed.

End Buffers.

(** ** The CRC16 engine *)

Section CRC16.

Lemma shift_once_u16 crc : 0 <= crc < 65536 → 0 <= CRC.shift_once crc < 65536.
Proof.
  intros Hc. unfold CRC.shift_once.
  assert (Hs : JS.shr crc 1 = crc / 2) by (rewrite shr_small; [done|lia|lia]).
  assert (0 <= crc / 2 < 32768).
  { split; [apply Z.div_pos; lia|apply Z.div_lt_upper_bound; lia]. }
  destruct (negb _).
  - rewrite Hs. apply xor_u16; lia.
  - lia.
Qed.

Lemma shift_loop_u16 n crc :
  0 <= crc < 65536 → 0 <= CRC.shift_loop n crc < 65536.
Proof.
  revert crc. induction n as [|n IH]; intros crc Hc; cbn [CRC.shift_loop]; [done|].
  apply IH, shift_once_u16, Hc.
Qed.

Lemma update_u16 crc byte :
  0 <= crc < 65536 → Buffer.is_byte byte → 0 <= CRC.update crc byte < 65536.
Proof.
  intros Hc Hb. unfold CRC.update, Buffer.is_byte in *.
  apply shift_loop_u16, xor_u16; lia.
Qed.

(** Stated for any step function, so that the proofs below rewrite with
    it and never unfold the eight rounds of [CRC.update]. *)
Lemma fold_left_step {A B : Type} (f : A → B → A) (x : B) (l : list B) (a : A) :
  fold_left f (x :: l) a = fold_left f l (f a x).
Proof. reflexivity. Qed.

Lemma fold_update_u16 buf crc :
  Buffer.wf buf → 0 <= crc < 65536 → 0 <= fold_left CRC.update buf crc < 65536.
Proof.
  intros Hwf. revert crc.
  induction Hwf as [|b buf Hb _ IH]; intros crc Hc; [exact Hc|].
  rewrite fold_left_step.
  apply IH, update_u16; done.
Qed.

Lemma calculateCRC_u16 buf :
  Buffer.wf buf → 0 <= CRC.calculateCRC buf < 65536.
Proof.
  intros Hwf. unfold CRC.calculateCRC.
  apply fold_update_u16; [exact Hwf|lia].
Qed.

Lemma appendCRC_eq buf :
  Buffer.wf buf → CRC.appendCRC buf = Some (buf ++ crc_bytes buf).
Proof.
  intros Hwf. pose proof (calculateCRC_u16 buf Hwf) as Hc.
  unfold CRC.appendCRC, crc_bytes.
  set (crc := CRC.calculateCRC buf) in *.
  assert (0 <= crc / 256 < 256).
  { split; [apply Z.div_pos; lia|apply Z.div_lt_upper_bound; lia]. }
  assert (Hlo : JS.and crc 255 = crc mod 256) by (apply and_0xff; lia).
  assert (Hhi : JS.and (JS.shr crc 8) 255 = crc / 256).
  { rewrite shr_small by lia. change (2 ^ 8) with 256.
    rewrite and_0xff by lia. apply Z.mod_small. done. }
  rewrite Hlo, Hhi.
  assert (0 <= crc mod 256 < 256) by (apply Z.mod_pos_bound; lia).
  simpl. unfold Buffer.writeUInt8. simpl.
  destruct (Z.ltb_spec (crc mod 256) 0); [lia|].
  destruct (Z.ltb_spec 255 (crc mod 256)); [lia|]. simpl.
  destruct (Z.ltb_spec (crc / 256) 0); [lia|].
  destruct (Z.ltb_spec 255 (crc / 256)); [lia|]. simpl.
  done.
Qed.

Lemma slice_drop_last2 (buf : Buffer.t) lo hi :
  Buffer.slice (buf ++ [lo; hi]) 0 (-2) = buf.
Proof.
  unfold Buffer.slice, Buffer.adjustOffset, Buffer.len.
  rewrite length_app. simpl length.
  destruct (Z.ltb_spec 0 0); [lia|].
  destruct (Z.ltb_spec (-2) 0); [|lia].
  rewrite Z.min_l by lia. simpl drop.
  replace (Z.to_nat (Z.max (-2 + Z.of_nat (length buf + 2)) 0 - 0)) with (length buf) by lia.
  apply take_app_length.
Qed.

Lemma readUInt16LE_last2 (buf : Buffer.t) lo hi :
  Buffer.readUInt16LE (buf ++ [lo; hi]) (Buffer.len (buf ++ [lo; hi]) - 2)
  = Some (lo + hi * 2 ^ 8).
Proof.
  replace (Buffer.len (buf ++ [lo; hi]) - 2) with (Buffer.len buf + 0)
    by (unfold Buffer.len; rewrite length_app; simpl; lia).
  unfold Buffer.readUInt16LE.
  rewrite <- Z.add_assoc, !get_app_r by lia. done.
Qed.

Lemma verifyCRC_app (buf : Buffer.t) lo hi :
  buf ≠ [] →
  CRC.verifyCRC (buf ++ [lo; hi])
  = Some (lo + hi * 2 ^ 8 =? CRC.calculateCRC buf).
Proof.
  intros Hne. unfold CRC.verifyCRC.
  assert (3 <= Buffer.len (buf ++ [lo; hi])).
  { unfold Buffer.len. rewrite length_app. destruct buf; [done|]. simpl. lia. }
  destruct (Z.ltb_spec (Buffer.len (buf ++ [lo; hi])) 3); [lia|].
  rewrite readUInt16LE_last2, slice_drop_last2. done.
Qed.

End CRC16.

(** Decide one comparison of the goal from the hypotheses. *)
Ltac decide_cmp :=
  match goal with
  | |- context [Z.ltb ?a ?b] =>
      first [ rewrite (proj2 (Z.ltb_lt a b)) by lia
            | rewrite (proj2 (Z.ltb_ge a b)) by lia ]
  | |- context [Z.leb ?a ?b] =>
      first [ rewrite (proj2 (Z.leb_le a b)) by lia
            | rewrite (proj2 (Z.leb_gt a b)) by lia ]
  | |- context [Z.eqb ?a ?b] =>
      first [ rewrite (proj2 (Z.eqb_eq a b)) by lia
            | rewrite (proj2 (Z.eqb_neq a b)) by lia ]
  end.

Ltac decide_cmps := repeat (decide_cmp; cbn [negb orb andb]).

(** Unfold the binds of the codec monad. *)
Ltac run_M :=
  unfold mbind, M_bind, lift, getSlaves, mret, M_ret, js_in;
  repeat (cbn [negb orb andb]; try decide_cmp).

(** Run writes at literal offsets into a buffer whose first cells are
    spelled out. *)
Ltac eval_writes :=
  unfold Buffer.writeUInt8, Buffer.writeUInt16BE, Buffer.len;
  repeat (progress (try simpl (Z.to_nat _); try simpl (replicate _ _);
                    try simpl (<[_:=_]> _);
                    cbn [length negb orb andb mbind option_bind])
          || decide_cmp).

(** ** Reading and writing inside buffers *)

Section BufferAccess.

Lemma get_is_byte (buf : Buffer.t) k b :
  Buffer.wf buf → Buffer.get buf k = Some b → 0 <= b < 256.
Proof.
  intros Hwf. unfold Buffer.get.
  destruct (k <? 0); [done|]. intros Hk.
  exact (proj1 (Forall_lookup _ _) Hwf _ _ Hk).
Qed.

Lemma readUInt8_range (buf : Buffer.t) k b :
  Buffer.wf buf → Buffer.readUInt8 buf k = Some b → 0 <= b < 256.
Proof. apply get_is_byte. Qed.

Lemma readUInt16BE_range (buf : Buffer.t) k v :
  Buffer.wf buf → Buffer.readUInt16BE buf k = Some v → 0 <= v < 65536.
Proof.
  intros Hwf. unfold Buffer.readUInt16BE.
  destruct (Buffer.get buf k) as [hi|] eqn:Hhi; [|done].
  destruct (Buffer.get buf (k + 1)) as [lo|] eqn:Hlo; [|done].
  simpl. intros [= <-].
  pose proof (get_is_byte _ _ _ Hwf Hhi). pose proof (get_is_byte _ _ _ Hwf Hlo).
  lia.
Qed.

Lemma get_Some_len (buf : Buffer.t) k b :
  Buffer.get buf k = Some b → 0 <= k < Buffer.len buf.
Proof.
  unfold Buffer.get, Buffer.len.
  destruct (Z.ltb_spec k 0); [done|].
  intros Hk%lookup_lt_Some. lia.
Qed.

Lemma readUInt16BE_Some_len (buf : Buffer.t) k v :
  Buffer.readUInt16BE buf k = Some v → 0 <= k ∧ k + 1 < Buffer.len buf.
Proof.
  unfold Buffer.readUInt16BE.
  destruct (Buffer.get buf k) as [hi|] eqn:Hhi; [|done].
  destruct (Buffer.get buf (k + 1)) as [lo|] eqn:Hlo; [|done].
  apply get_Some_len in Hhi, Hlo. lia.
Qed.

Lemma readUInt16BE_is_Some (buf : Buffer.t) k :
  0 <= k → k + 1 < Buffer.len buf → is_Some (Buffer.readUInt16BE buf k).
Proof.
  intros Hk Hlen. unfold Buffer.readUInt16BE, Buffer.get, Buffer.len in *.
  destruct (Z.ltb_spec k 0); [lia|]. destruct (Z.ltb_spec (k + 1) 0); [lia|].
  destruct (lookup_lt_is_Some_2 buf (Z.to_nat k)) as [hi ->]; [lia|].
  destruct (lookup_lt_is_Some_2 buf (Z.to_nat (k + 1))) as [lo ->]; [lia|].
  by eexists.
Qed.

Lemma be16_wf v : 0 <= v < 65536 → Buffer.wf (be16 v).
Proof.
  intros Hv. unfold be16, Buffer.wf, Buffer.is_byte.
  repeat constructor.
  - apply Z.div_pos; lia.
  - apply Z.div_lt_upper_bound; lia.
  - apply Z.mod_pos_bound; lia.
  - apply Z.mod_pos_bound; lia.
Qed.

Lemma readUInt16BE_be16 (pre post : Buffer.t) v :
  Buffer.readUInt16BE (pre ++ be16 v ++ post) (Buffer.len pre) = Some v.
Proof.
  unfold Buffer.readUInt16BE.
  rewrite <- (Z.add_0_r (Buffer.len pre)) at 1.
  rewrite !get_app_r by lia. simpl.
  f_equal. pose proof (Z.div_mod v 256). lia.
Qed.

Lemma readUInt16BE_app_r (pre buf : Buffer.t) k :
  0 <= k →
  Buffer.readUInt16BE (pre ++ buf) (Buffer.len pre + k) = Buffer.readUInt16BE buf k.
Proof.
  intros Hk. unfold Buffer.readUInt16BE.
  rewrite <- Z.add_assoc, !get_app_r by lia. done.
Qed.

Lemma writeUInt8_at (pre post : Buffer.t) x v :
  0 <= v < 256 →
  Buffer.writeUInt8 (pre ++ x :: post) v (Buffer.len pre) = Some (pre ++ v :: post).
Proof.
  intros Hv. unfold Buffer.writeUInt8, Buffer.len.
  destruct (Z.ltb_spec v 0); [lia|]. destruct (Z.ltb_spec 255 v); [lia|].
  rewrite length_app. simpl.
  destruct (Z.ltb_spec (Z.of_nat (length pre)) 0); [lia|].
  destruct (Z.ltb_spec (Z.of_nat (length pre + S (length post))) (Z.of_nat (length pre) + 1)); [lia|].
  simpl. f_equal. rewrite Nat2Z.id.
  rewrite <- (Nat.add_0_r (length pre)) at 1.
  by rewrite insert_app_r.
Qed.

Lemma writeUInt16BE_at (pre post : Buffer.t) x y v :
  0 <= v < 65536 →
  Buffer.writeUInt16BE (pre ++ x :: y :: post) v (Buffer.len pre)
  = Some (pre ++ be16 v ++ post).
Proof.
  intros Hv. unfold Buffer.writeUInt16BE, Buffer.len.
  destruct (Z.ltb_spec v 0); [lia|]. destruct (Z.ltb_spec 65535 v); [lia|].
  rewrite length_app. simpl.
  destruct (Z.ltb_spec (Z.of_nat (length pre)) 0); [lia|].
  destruct (Z.ltb_spec (Z.of_nat (length pre + S (S (length post)))) (Z.of_nat (length pre) + 2)); [lia|].
  simpl. f_equal.
  replace (Z.to_nat (Z.of_nat (length pre) + 1)) with (length pre + 1)%nat by lia.
  rewrite Nat2Z.id.
  rewrite <- (Nat.add_0_r (length pre)) at 2.
  by rewrite !insert_app_r.
Qed.

(** The same with the offset a literal and the prefix spelled out. *)
Lemma writeUInt8_lit (pre post : Buffer.t) x v k :
  k = Buffer.len pre → 0 <= v < 256 →
  Buffer.writeUInt8 (pre ++ x :: post) v k = Some (pre ++ v :: post).
Proof. intros ->. apply writeUInt8_at. Qed.

Lemma writeUInt16BE_lit (pre post : Buffer.t) x y v k :
  k = Buffer.len pre → 0 <= v < 65536 →
  Buffer.writeUInt16BE (pre ++ x :: y :: post) v k = Some (pre ++ be16 v ++ post).
Proof. intros ->. apply writeUInt16BE_at. Qed.

Lemma alloc_eq n : 0 <= n → Buffer.alloc n = Some (replicate (Z.to_nat n) 0).
Proof. intros Hn. unfold Buffer.alloc. by decide_cmps. Qed.

Lemma slice_from_drop (buf : Buffer.t) k :
  0 <= k <= Buffer.len buf → Buffer.slice_from buf k = drop (Z.to_nat k) buf.
Proof.
  intros Hk. unfold Buffer.slice_from, Buffer.slice, Buffer.adjustOffset.
  destruct (Z.ltb_spec k 0); [lia|].
  destruct (Z.ltb_spec (Buffer.len buf) 0); [unfold Buffer.len in *; lia|].
  rewrite Z.min_id, Z.min_l by lia.
  apply take_ge. rewrite length_drop. unfold Buffer.len. lia.
Qed.

Lemma slice_take (buf : Buffer.t) k :
  0 <= k <= Buffer.len buf → Buffer.slice buf 0 k = take (Z.to_nat k) buf.
Proof.
  intros Hk. unfold Buffer.slice, Buffer.adjustOffset.
  destruct (Z.ltb_spec 0 0); [lia|].
  destruct (Z.ltb_spec k 0); [lia|].
  rewrite (Z.min_l 0), (Z.min_l k) by (unfold Buffer.len in *; lia).
  by rewrite Z.sub_0_r.
Qed.

Lemma get_drop (buf : Buffer.t) (n : nat) k :
  0 <= k → Buffer.get (drop n buf) k = Buffer.get buf (Z.of_nat n + k).
Proof.
  intros Hk. unfold Buffer.get.
  destruct (Z.ltb_spec k 0); [lia|].
  destruct (Z.ltb_spec (Z.of_nat n + k) 0); [lia|].
  rewrite lookup_drop. f_equal. lia.
Qed.

Lemma readUInt16BE_drop (buf : Buffer.t) (n : nat) k :
  0 <= k →
  Buffer.readUInt16BE (drop n buf) k = Buffer.readUInt16BE buf (Z.of_nat n + k).
Proof.
  intros Hk. unfold Buffer.readUInt16BE.
  rewrite !get_drop by lia. by rewrite Z.add_assoc.
Qed.

Lemma wf_app (a b : Buffer.t) : Buffer.wf a → Buffer.wf b → Buffer.wf (a ++ b).
Proof. unfold Buffer.wf. intros. by apply Forall_app. Qed.

End BufferAccess.

(** ** The registers of a well-formed slave *)

Section Registers.

Lemma register_value_ok dev addr :
  slave_ok dev → 0 <= addr →
  register_value dev addr = JS.Number (register_number dev addr)
  ∧ 0 <= register_number dev addr < 65536.
Proof.
  intros [Hlen Hall] Haddr. unfold register_number, register_value.
  destruct (Z.ltb_spec addr 500); [|split; [done|lia]].
  unfold JS.index. destruct (Z.ltb_spec addr 0); [lia|].
  destruct (lookup_lt_is_Some_2 (registers dev) (Z.to_nat addr)) as [v Hv]; [lia|].
  rewrite Hv.
  pose proof (proj1 (Forall_lookup _ _) Hall _ _ Hv) as Hu.
  destruct v as [|n]; [done|]. simpl in Hu. done.
Qed.

Lemma payload_length dev a i n : length (payload dev a i n) = (2 * n)%nat.
Proof.
  revert i. induction n as [|n IH]; intros i; simpl; [done|].
  rewrite IH. lia.
Qed.

Lemma payload_wf dev a i n :
  slave_ok dev → 0 <= a → 0 <= i → Buffer.wf (payload dev a i n).
Proof.
  intros Hok Ha. revert i. induction n as [|n IH]; intros i Hi; simpl.
  - constructor.
  - apply (wf_app (be16 _)); [|apply IH; lia].
    apply be16_wf, register_value_ok; [done|lia].
Qed.

(** Entry [k] of the data bytes, read back as the client does. *)
Lemma payload_read dev a (pre post : Buffer.t) n i (k : nat) :
  (k < n)%nat →
  Buffer.readUInt16BE (pre ++ payload dev a i n ++ post)
    (Buffer.len pre + 2 * Z.of_nat k)
  = Some (register_number dev (a + (i + Z.of_nat k))).
Proof.
  revert pre i k. induction n as [|n IH]; intros pre i k Hk; [lia|].
  cbn [payload]. destruct k as [|k].
  - rewrite Z.add_0_r, Z.add_0_r, <- app_assoc.
    apply readUInt16BE_be16.
  - rewrite <- app_assoc, (app_assoc pre).
    replace (Buffer.len pre + 2 * Z.of_nat (S k))
      with (Buffer.len (pre ++ be16 (register_number dev (a + i))) + 2 * Z.of_nat k)
      by (unfold Buffer.len; rewrite length_app; simpl; lia).
    rewrite IH by lia. f_equal. f_equal. lia.
Qed.

End Registers.

(** ** Guarded writes to the store *)

Section StoreWrite.

Lemma index_assign_ne (arr : list JS.value) i k v :
  k ≠ i → JS.index (JS.assign arr i v) k = JS.index arr k.
Proof.
  intros Hne. unfold JS.index, JS.assign.
  destruct (Z.ltb_spec k 0); [done|].
  destruct (Z.ltb_spec i 0); [done|].
  destruct (Nat.ltb_spec (Z.to_nat i) (length arr)) as [Hin|Hout].
  - rewrite list_lookup_insert_ne by lia. done.
  - destruct (Nat.lt_ge_cases (Z.to_nat k) (length arr)) as [Hk|Hk].
    + by rewrite lookup_app_l by lia.
    + rewrite lookup_app_r by lia.
      rewrite (lookup_ge_None_2 arr) by lia.
      destruct (Nat.lt_ge_cases (Z.to_nat k) (Z.to_nat i)) as [Hki|Hki].
      * rewrite lookup_app_l by (rewrite length_replicate; lia).
        rewrite lookup_replicate_2 by lia. done.
      * rewrite lookup_ge_None_2; [done|].
        rewrite length_app, length_replicate. simpl. lia.
Qed.

Lemma guarded_write_eq (s : Slaves) id addr v :
  is_Some (s !! id) →
  (if addr <? 500 then writeRegister id addr (JS.Number v) else mret ()) s
  = (Some (), store_write id addr v s).
Proof.
  intros [dev Hdev]. unfold store_write, writeRegister.
  destruct (addr <? 500); [by rewrite Hdev|done].
Qed.

(** A write at 500 or above: no effect and no error. *)
Lemma guarded_write_dropped (s : Slaves) id addr v :
  500 <= addr →
  (if addr <? 500 then writeRegister id addr (JS.Number v) else mret ()) s
  = (Some (), s).
Proof. intros Ha. by decide_cmps. Qed.

Lemma store_write_dropped (s : Slaves) id addr v :
  500 <= addr → store_write id addr v s = s.
Proof. intros Ha. unfold store_write. by rewrite guarded_write_dropped. Qed.

Lemma store_write_is_Some (s : Slaves) id addr v id' :
  is_Some (s !! id') → is_Some (store_write id addr v s !! id').
Proof.
  intros Hs. unfold store_write, writeRegister.
  destruct (addr <? 500); [|done].
  destruct (s !! id) as [dev|] eqn:Hdev; [|done]. cbn [snd].
  destruct (decide (id = id')) as [->|Hne].
  - rewrite lookup_insert_eq. by eexists.
  - by rewrite lookup_insert_ne.
Qed.

(** The frame of one guarded write: only register [addr] of slave [id]
    can change, and only below 500. *)
Lemma store_write_frame (s : Slaves) id addr v id' k :
  id' ≠ id ∨ k ≠ addr ∨ 500 <= addr →
  reg_at (store_write id addr v s) id' k = reg_at s id' k.
Proof.
  intros Hfr. unfold store_write, writeRegister, reg_at.
  destruct (Z.ltb_spec addr 500); [|done].
  destruct (s !! id) as [dev|] eqn:Hdev; [|done]. cbn [snd].
  destruct (decide (id = id')) as [->|Hne].
  - rewrite lookup_insert_eq, Hdev. simpl. f_equal.
    apply index_assign_ne. destruct Hfr as [|[|]]; [done|done|lia].
  - by rewrite lookup_insert_ne.
Qed.

Lemma write_registers_is_Some n : ∀ i id a buf base (s : Slaves) id',
  is_Some (s !! id') →
  is_Some (write_registers n i id a buf base s !! id').
Proof.
  induction n as [|n IH]; intros i id a buf base s id' Hs; [done|].
  cbn [write_registers]. by apply IH, store_write_is_Some.
Qed.

Lemma write_registers_frame n : ∀ i id a buf base (s : Slaves) id' k,
  id' ≠ id ∨ k < a + i ∨ a + i + Z.of_nat n <= k ∨ 500 <= k →
  reg_at (write_registers n i id a buf base s) id' k = reg_at s id' k.
Proof.
  induction n as [|n IH]; intros i id a buf base s id' k Hfr; [done|].
  cbn [write_registers]. rewrite IH by lia.
  apply store_write_frame. lia.
Qed.

Lemma write_registers_dropped n : ∀ i id a buf base (s : Slaves),
  500 <= a + i →
  write_registers n i id a buf base s = s.
Proof.
  induction n as [|n IH]; intros i id a buf base s Ha; [done|].
  cbn [write_registers]. rewrite store_write_dropped by done.
  apply IH. lia.
Qed.

End StoreWrite.

(** ** The RTU codec *)

Section RTU.

Context (slaves : Slaves) (slaveId : Z) (dev : SlaveDevice).
Hypothesis Hdev : slaves !! slaveId = Some dev.

Lemma fetch_register addr :
  (if addr <? 500 then readRegister slaveId addr else mret (JS.Number 0)) slaves
  = (Some (register_value dev addr), slaves).
Proof.
  unfold register_value, readRegister.
  destruct (addr <? 500); [by rewrite Hdev|done].
Qed.

Lemma rtu_read_loop n : ∀ i startAddr (pre : Buffer.t),
  slave_ok dev → 0 <= startAddr → 0 <= i →
  Buffer.len pre = 3 + i * 2 →
  ModbusRTU.read_loop n i slaveId startAddr (pre ++ replicate (2 * n) 0) slaves
  = (Some (pre ++ payload dev startAddr i n), slaves).
Proof.
  induction n as [|n IH]; intros i a pre Hok Ha Hi Hpre; [done|].
  cbn [ModbusRTU.read_loop payload]. unfold mbind, M_bind.
  change ModbusRTU.registerCount with 500.
  rewrite fetch_register.
  destruct (register_value_ok dev (a + i) Hok) as [-> Hv]; [lia|].
  replace (2 * S n)%nat with (S (S (2 * n))) by lia.
  cbn [replicate Buffer.writeValueUInt16BE lift].
  rewrite <- Hpre, writeUInt16BE_at by done.
  rewrite (app_assoc pre), IH; [|done|done|lia|].
  - by rewrite <- !app_assoc.
  - unfold Buffer.len in *. rewrite length_app. simpl. lia.
Qed.

Lemma rtu_read_ok req a q :
  rtu_request req slaveId 3 a q → slave_ok dev → q <= 127 →
  ModbusRTU.processRequest req slaves
  = (Some (rtu_read_pdu slaveId dev a q
           ++ crc_bytes (rtu_read_pdu slaveId dev a q)), slaves).
Proof.
  intros ((Hwf & Hcrc & Hid & Hfc) & Hlen & Ha & Hq) Hok Hq127.
  pose proof (readUInt16BE_range _ _ _ Hwf Ha) as Har.
  pose proof (readUInt16BE_range _ _ _ Hwf Hq) as Hqr.
  pose proof (readUInt8_range _ _ _ Hwf Hid) as Hidr.
  unfold ModbusRTU.processRequest, try_catch, ModbusRTU.processRequest_body.
  rewrite Hlen, Hcrc, Hid, Hfc, Ha, Hq.
  run_M. rewrite Hdev. run_M.
  rewrite alloc_eq by lia.
  replace (Z.to_nat (3 + q * 2)) with (S (S (S (2 * Z.to_nat q)))) by lia.
  remember (2 * Z.to_nat q)%nat as m eqn:Hm. cbn [replicate].
  eval_writes. subst m.
  change (slaveId :: 3 :: q * 2 :: ?l) with ([slaveId; 3; q * 2] ++ l).
  rewrite rtu_read_loop by (done || lia).
  fold (rtu_read_pdu slaveId dev a q).
  unfold ModbusRTU.finish. run_M.
  rewrite appendCRC_eq; [done|].
  apply (wf_app [slaveId; 3; q * 2]).
  - unfold Buffer.wf, Buffer.is_byte. repeat constructor; lia.
  - apply payload_wf; (done || lia).
Qed.

(** A quantity above 127 does not fit the byte count: the write throws. *)
Lemma rtu_read_too_many req a q :
  rtu_request req slaveId 3 a q → 127 < q →
  ModbusRTU.processRequest req slaves = (None, slaves).
Proof.
  intros ((Hwf & Hcrc & Hid & Hfc) & Hlen & Ha & Hq) Hq127.
  pose proof (readUInt16BE_range _ _ _ Hwf Hq) as Hqr.
  pose proof (readUInt8_range _ _ _ Hwf Hid) as Hidr.
  unfold ModbusRTU.processRequest, try_catch, ModbusRTU.processRequest_body.
  rewrite Hlen, Hcrc, Hid, Hfc, Ha, Hq.
  run_M. rewrite Hdev. run_M.
  rewrite alloc_eq by lia.
  replace (Z.to_nat (3 + q * 2)) with (S (S (S (2 * Z.to_nat q)))) by lia.
  remember (2 * Z.to_nat q)%nat as m eqn:Hm. cbn [replicate].
  eval_writes. done.
Qed.

(** Case 0x06: the first six bytes come back under a fresh CRC. *)
Lemma rtu_write_single req addr value :
  rtu_request req slaveId 6 addr value →
  ModbusRTU.processRequest req slaves
  = (Some (take 6 req ++ crc_bytes (take 6 req)),
     store_write slaveId addr value slaves).
Proof.
  intros ((Hwf & Hcrc & Hid & Hfc) & Hlen & Ha & Hv).
  unfold ModbusRTU.processRequest, try_catch, ModbusRTU.processRequest_body.
  rewrite Hlen, Hcrc, Hid, Hfc, Ha, Hv.
  run_M. rewrite Hdev. run_M.
  unfold store_write. change ModbusRTU.registerCount with 500.
  assert (Hwf6 : Buffer.wf (take 6 req)) by (by apply Forall_take).
  destruct (addr <? 500); unfold writeRegister, ModbusRTU.finish; run_M;
    try rewrite Hdev; cbn [snd];
    rewrite slice_take by lia; change (Z.to_nat 6) with 6%nat;
    rewrite appendCRC_eq by done; done.
Qed.

End RTU.

Section RTUFrames.

Context (req : Buffer.t).

(** A frame that passes the CRC check ends in the CRC of what is before. *)
Lemma verifyCRC_true_inv :
  Buffer.wf req → CRC.verifyCRC req = Some true →
  3 <= Buffer.len req
  ∧ req = take (length req - 2) req ++ crc_bytes (take (length req - 2) req).
Proof.
  intros Hwf Hcrc.
  assert (Hlen : 3 <= Buffer.len req).
  { unfold CRC.verifyCRC in Hcrc.
    destruct (Z.ltb_spec (Buffer.len req) 3); [done|lia]. }
  split; [done|]. unfold Buffer.len in Hlen.
  pose proof (take_drop (length req - 2) req) as Htd.
  assert (Hd : length (drop (length req - 2) req) = 2%nat)
    by (rewrite length_drop; lia).
  remember (take (length req - 2) req) as data eqn:Hdata.
  destruct (drop (length req - 2) req) as [|lo [|hi [|]]];
    try (simpl in Hd; lia).
  assert (Hdl : (1 <= length data)%nat) by (rewrite Hdata, length_take; lia).
  clear Hd. rewrite <- Htd in Hcrc, Hwf. rewrite <- Htd at 1. clear Hdata Htd.
  assert (data ≠ []) by (intros ->; simpl in Hdl; lia).
  rewrite verifyCRC_app in Hcrc by done.
  injection Hcrc as Heq%Z.eqb_eq.
  apply Forall_app in Hwf as [_ Hbytes].
  inversion Hbytes as [|? ? Hlo Hrest]; subst.
  inversion Hrest as [|? ? Hhi _]; subst.
  unfold crc_bytes, Buffer.is_byte in *. rewrite <- Heq.
  change (2 ^ 8) with 256.
  f_equal. f_equal; [|f_equal]; symmetry.
  - rewrite Z.mod_add by lia. by apply Z.mod_small.
  - rewrite Z.div_add by lia. rewrite Z.div_small; lia.
Qed.

(** An unknown slave id: the frame is dropped. *)
Lemma rtu_unknown_slave (s : Slaves) :
  (∀ id, Buffer.readUInt8 req 0 = Some id → s !! id = None) →
  ModbusRTU.processRequest req s = (None, s).
Proof.
  intros Hunknown.
  unfold ModbusRTU.processRequest, try_catch, ModbusRTU.processRequest_body.
  destruct (_ <? 4); [done|].
  destruct (CRC.verifyCRC req) as [[|]|]; [|done|done].
  destruct (Buffer.readUInt8 req 0) as [id|]; [|done].
  destruct (Buffer.readUInt8 req 1) as [fc|]; [|done].
  run_M. by rewrite (Hunknown id eq_refl).
Qed.

End RTUFrames.

Section RTUWriteMultiple.

Context (slaves : Slaves) (req : Buffer.t) (slaveId : Z) (dev : SlaveDevice).
Hypothesis Hdev : slaves !! slaveId = Some dev.
Hypothesis Hframe : rtu_frame req slaveId 16.

(** Case 0x10 on the RTU path: a frame too short for a byte count. *)
Lemma rtu_write_multiple_short :
  Buffer.len req < 9 → ModbusRTU.processRequest req slaves = (None, slaves).
Proof.
  intros Hshort. destruct Hframe as (Hwf & Hcrc & Hid & Hfc).
  destruct (verifyCRC_true_inv req Hwf Hcrc) as [Hlen _].
  unfold ModbusRTU.processRequest, try_catch, ModbusRTU.processRequest_body.
  rewrite Hcrc, Hid, Hfc.
  destruct (Z.ltb_spec (Buffer.len req) 4); [done|].
  run_M. rewrite Hdev. run_M. done.
Qed.

(** Case 0x10 on the RTU path: a byte count that is not twice the
    quantity, or a length that is not exactly what it announces. *)
Lemma rtu_write_multiple_mismatch a q bc :
  Buffer.readUInt16BE req 2 = Some a →
  Buffer.readUInt16BE req 4 = Some q →
  Buffer.readUInt8 req 6 = Some bc →
  bc ≠ q * 2 ∨ Buffer.len req ≠ 7 + bc + 2 →
  ModbusRTU.processRequest req slaves = (None, slaves).
Proof.
  intros Ha Hq Hbc Hbad. destruct Hframe as (Hwf & Hcrc & Hid & Hfc).
  destruct (verifyCRC_true_inv req Hwf Hcrc) as [Hlen _].
  unfold ModbusRTU.processRequest, try_catch, ModbusRTU.processRequest_body.
  rewrite Hcrc, Hid, Hfc, Ha, Hq, Hbc.
  destruct (Z.ltb_spec (Buffer.len req) 4); [done|].
  run_M. rewrite Hdev. run_M.
  destruct (Buffer.len req <? 9); [done|]. run_M.
  assert (negb (bc =? q * 2) || negb (Buffer.len req =? 7 + bc + 2) = true) as ->.
  { destruct Hbad as [Hb|Hb].
    - by rewrite (proj2 (Z.eqb_neq _ _) Hb).
    - rewrite (proj2 (Z.eqb_neq _ _) Hb). by rewrite orb_true_r. }
  done.
Qed.

End RTUWriteMultiple.

(** ** The exceptions of the RTU codec

    Whatever the request and the store, a response of the RTU path with
    bit 0x80 in its function code carries exception code 0x01. *)

Section RTUExceptions.

Lemma writeUInt8_inv (buf : Buffer.t) v k b :
  Buffer.writeUInt8 buf v k = Some b →
  b = <[Z.to_nat k := v]> buf ∧ 0 <= k < Buffer.len buf.
Proof.
  unfold Buffer.writeUInt8.
  destruct (_ || _); [done|].
  destruct (Z.ltb_spec k 0); [done|].
  destruct (Z.ltb_spec (Buffer.len buf) (k + 1)); [done|].
  intros [= <-]. split; [done|lia].
Qed.

Lemma writeUInt16BE_inv (buf : Buffer.t) v k b :
  Buffer.writeUInt16BE buf v k = Some b →
  b = <[Z.to_nat (k + 1) := v mod 256]> (<[Z.to_nat k := v / 256]> buf)
  ∧ 0 <= k.
Proof.
  unfold Buffer.writeUInt16BE.
  destruct (_ || _); [done|].
  destruct (Z.ltb_spec k 0); [done|].
  destruct (Z.ltb_spec (Buffer.len buf) (k + 2)); [done|].
  intros [= <-]. split; [done|lia].
Qed.

Lemma appendCRC_inv (buf resp : Buffer.t) :
  CRC.appendCRC buf = Some resp → ∃ crc, resp = buf ++ crc.
Proof.
  unfold CRC.appendCRC.
  destruct (Buffer.alloc 2) as [b0|]; [|done]. cbn [mbind option_bind].
  destruct (Buffer.writeUInt8 b0 _ 0) as [b1|]; [|done]. cbn [mbind option_bind].
  destruct (Buffer.writeUInt8 b1 _ 1) as [b2|]; [|done]. cbn [mbind option_bind].
  intros [= <-]. by eexists.
Qed.

Lemma createExceptionResponse_inv slaveId fc code (resp : Buffer.t) :
  ModbusRTU.createExceptionResponse slaveId fc code = Some resp →
  ∃ crc, resp = Buffer.from [slaveId; JS.or fc 0x80; code] ++ crc.
Proof. apply appendCRC_inv. Qed.

Lemma rtu_read_loop_keeps n : ∀ i slaveId a (buf : Buffer.t) (s : Slaves) b s',
  0 <= i →
  ModbusRTU.read_loop n i slaveId a buf s = (Some b, s') →
  ∀ j, (j < 3)%nat → b !! j = buf !! j.
Proof.
  induction n as [|n IH]; intros i slaveId a buf s b s' Hi; cbn [ModbusRTU.read_loop].
  - by intros [= <-].
  - unfold mbind, M_bind, lift.
    match goal with
    | |- (let (_, _) := ?m in _) = _ → _ => destruct m as [[val|] s1]; [|done]
    end.
    destruct (Buffer.writeValueUInt16BE buf val (3 + i * 2)) as [b1|] eqn:Hw;
      [|done].
    intros Hloop j Hj.
    assert (0 <= i + 1) as Hi1 by lia.
    rewrite (IH _ _ _ _ _ _ _ Hi1 Hloop j Hj).
    destruct val as [|v]; [done|]. cbn [Buffer.writeValueUInt16BE] in Hw.
    apply writeUInt16BE_inv in Hw as [-> _].
    rewrite !list_lookup_insert_ne by lia. done.
Qed.

Lemma finish_inv (r : Buffer.t) (s : Slaves) resp s' :
  ModbusRTU.finish r s = (Some (Some resp), s') → ∃ crc, resp = r ++ crc.
Proof.
  unfold ModbusRTU.finish, mbind, M_bind, lift, mret, M_ret.
  destruct (CRC.appendCRC r) as [x|] eqn:Hc; [|done].
  intros [= <- _]. by apply appendCRC_inv.
Qed.

Lemma rtu_exception_code (req : Buffer.t) (s : Slaves) resp s' f :
  ModbusRTU.processRequest req s = (Some resp, s') →
  resp !! 1%nat = Some f → Z.land f 0x80 ≠ 0 →
  resp !! 2%nat = Some 1.
Proof.
  unfold ModbusRTU.processRequest, try_catch.
  destruct (ModbusRTU.processRequest_body req s) as [[[r|]|] s1] eqn:Hbody;
    [|done|done].
  intros [= -> ->]. revert Hbody. unfold ModbusRTU.processRequest_body.
  destruct (_ <? 4); [done|].
  unfold mbind at 1, M_bind at 1, lift at 1.
  destruct (CRC.verifyCRC req) as [[|]|]; [|done|done]. cbn [negb].
  unfold mbind at 1, M_bind at 1, lift at 1.
  destruct (Buffer.readUInt8 req 0) as [slaveId|]; [|done].
  unfold mbind at 1, M_bind at 1, lift at 1.
  destruct (Buffer.readUInt8 req 1) as [fc|] eqn:Hfc; [|done].
  unfold mbind at 1, M_bind at 1, getSlaves.
  destruct (negb _); [done|].
  destruct (Z.eqb_spec fc 3) as [->|_]; [|destruct (Z.eqb_spec fc 6) as [->|_];
                                          [|destruct (Z.eqb_spec fc 16) as [->|_]]].
  - destruct (negb _); [done|].
    unfold mbind at 1, M_bind at 1, lift at 1.
    destruct (Buffer.readUInt16BE req 2) as [a|]; [|done].
    unfold mbind at 1, M_bind at 1, lift at 1.
    destruct (Buffer.readUInt16BE req 4) as [q|]; [|done].
    unfold mbind at 1, M_bind at 1, lift at 1.
    destruct (Buffer.alloc _) as [b0|]; [|done].
    unfold mbind at 1, M_bind at 1, lift at 1.
    destruct (Buffer.writeUInt8 b0 slaveId 0) as [b1|]; [|done].
    unfold mbind at 1, M_bind at 1, lift at 1.
    destruct (Buffer.writeUInt8 b1 3 1) as [b2|] eqn:H2; [|done].
    unfold mbind at 1, M_bind at 1, lift at 1.
    destruct (Buffer.writeUInt8 b2 (q * 2) 2) as [b3|] eqn:H3; [|done].
    unfold mbind at 1, M_bind at 1.
    destruct (ModbusRTU.read_loop _ _ _ _ _ _) as [[b4|] s2] eqn:Hloop; [|done].
    intros [crc ->]%finish_inv Hf Hbit.
    apply writeUInt8_inv in H2 as [-> Hlen2], H3 as [-> Hlen3].
    assert (Hk : b4 !! 1%nat = <[Z.to_nat 2:=q * 2]> (<[Z.to_nat 1:=3]> b1) !! 1%nat).
    { eapply rtu_read_loop_keeps; [|exact Hloop|]; lia. }
    rewrite list_lookup_insert_ne in Hk by (simpl; lia).
    rewrite list_lookup_insert_eq in Hk by (unfold Buffer.len in *; simpl; lia).
    rewrite lookup_app_l in Hf by (by eapply lookup_lt_Some).
    rewrite Hk in Hf. injection Hf as <-. done.
  - destruct (negb (_ =? 8)) eqn:Hlen; [done|].
    apply negb_false_iff, Z.eqb_eq in Hlen.
    unfold mbind at 1, M_bind at 1, lift at 1.
    destruct (Buffer.readUInt16BE req 2) as [a|]; [|done].
    unfold mbind at 1, M_bind at 1, lift at 1.
    destruct (Buffer.readUInt16BE req 4) as [v|]; [|done].
    unfold mbind at 1, M_bind at 1.
    match goal with
    | |- (let (_, _) := ?m in _) = _ → _ => destruct m as [[[]|] s2]; [|done]
    end.
    intros [crc ->]%finish_inv Hf Hbit.
    rewrite slice_take in Hf by lia. change (Z.to_nat 6) with 6%nat in Hf.
    rewrite lookup_app_l in Hf
      by (rewrite length_take; unfold Buffer.len in Hlen; lia).
    rewrite lookup_take_lt in Hf by lia.
    unfold Buffer.readUInt8, Buffer.get in Hfc. cbn in Hfc.
    change (Z.to_nat 1) with 1%nat in Hfc.
    rewrite Hfc in Hf. injection Hf as <-. done.
  - destruct (_ <? 9); [done|].
    unfold mbind at 1, M_bind at 1, lift at 1.
    destruct (Buffer.readUInt16BE req 2) as [a|]; [|done].
    unfold mbind at 1, M_bind at 1, lift at 1.
    destruct (Buffer.readUInt16BE req 4) as [q|]; [|done].
    unfold mbind at 1, M_bind at 1, lift at 1.
    destruct (Buffer.readUInt8 req 6) as [bc|]; [|done].
    destruct (_ || _); [done|].
    unfold mbind at 1, M_bind at 1.
    destruct (ModbusRTU.write_loop _ _ _ _ _ _) as [[[]|] s2]; [|done].
    unfold mbind at 1, M_bind at 1, lift at 1.
    destruct (Buffer.alloc 6) as [b0|]; [|done].
    unfold mbind at 1, M_bind at 1, lift at 1.
    destruct (Buffer.writeUInt8 b0 slaveId 0) as [b1|]; [|done].
    unfold mbind at 1, M_bind at 1, lift at 1.
    destruct (Buffer.writeUInt8 b1 16 1) as [b2|] eqn:H2; [|done].
    unfold mbind at 1, M_bind at 1, lift at 1.
    destruct (Buffer.writeUInt16BE b2 a 2) as [b3|] eqn:H3; [|done].
    unfold mbind at 1, M_bind at 1, lift at 1.
    destruct (Buffer.writeUInt16BE b3 q 4) as [b4|] eqn:H4; [|done].
    intros [crc ->]%finish_inv Hf Hbit.
    apply writeUInt8_inv in H2 as [-> Hlen2].
    apply writeUInt16BE_inv in H3 as [-> _], H4 as [-> _].
    rewrite lookup_app_l in Hf
      by (rewrite !length_insert; unfold Buffer.len in Hlen2; lia).
    rewrite !list_lookup_insert_ne in Hf by (simpl; lia).
    rewrite list_lookup_insert_eq in Hf by (unfold Buffer.len in *; simpl; lia).
    injection Hf as <-. done.
  - unfold mbind at 1, M_bind at 1, lift at 1.
    destruct (ModbusRTU.createExceptionResponse slaveId fc 1) as [x|] eqn:Hx;
      [|done].
    intros [= <- _] Hf Hbit.
    apply createExceptionResponse_inv in Hx as [crc ->]. done.
Qed.

End RTUExceptions.

(** ** The TCP codec *)

Section TCP.

Lemma tcp_exception_eq tid unitId fc code (s : Slaves) :
  0 <= tid < 65536 → 0 <= unitId < 256 → 0 <= fc < 256 → 0 <= code < 256 →
  ModbusTCP.exception tid 0 unitId fc code s
  = (Some (Some (tcp_exception tid unitId fc code)), s).
Proof.
  intros Htid Hu Hfc Hcode. pose proof (or_0x80_byte fc Hfc).
  unfold ModbusTCP.exception, ModbusTCP.createExceptionResponse.
  unfold tcp_exception, mbap.
  remember (JS.or fc 128) as efc.
  rewrite alloc_eq by lia.
  eval_writes. run_M. done.
Qed.

Lemma tcp_finish_eq tid unitId (pdu : Buffer.t) (s : Slaves) :
  0 <= tid < 65536 → 0 <= unitId < 256 → Buffer.len pdu + 1 < 65536 →
  ModbusTCP.finish tid 0 unitId pdu s = (Some (Some (mbap tid unitId pdu)), s).
Proof.
  intros Htid Hu Hlen. unfold ModbusTCP.finish, mbap.
  assert (0 <= Buffer.len pdu) by (unfold Buffer.len; lia).
  remember (Buffer.len pdu + 1) as rl eqn:Hrl.
  rewrite alloc_eq by lia.
  replace (Z.to_nat (6 + rl)) with (S (S (S (S (S (S (S (length pdu))))))))
    by (unfold Buffer.len in *; lia).
  remember (length pdu) as m eqn:Hm. cbn [replicate].
  run_M. eval_writes. run_M.
  unfold Buffer.copy. cbn [take length app drop Nat.sub Nat.add be16].
  rewrite length_replicate.
  replace (m - 0)%nat with m by lia. subst m.
  rewrite firstn_all, drop_ge by (rewrite length_replicate; lia).
  by rewrite app_nil_r.
Qed.

Context (slaves : Slaves) (req : Buffer.t) (tid unitId fc : Z).
Hypothesis Hframe : tcp_frame req tid unitId fc.

Lemma tcp_frame_ranges : 0 <= tid < 65536 ∧ 0 <= unitId < 256 ∧ 0 <= fc < 256.
Proof.
  destruct Hframe as (Hwf & _ & Htid & _ & _ & Hu & Hfc).
  split; [by eapply readUInt16BE_range|].
  split; by eapply readUInt8_range.
Qed.

(** Unknown unit id: exception 0x0B under the transaction id of the
    request. *)
Lemma tcp_unknown_unit :
  slaves !! unitId = None →
  ModbusTCP.processRequest req slaves
  = (Some (tcp_exception tid unitId fc 0x0b), slaves).
Proof.
  intros Hnone. destruct tcp_frame_ranges as (Htidr & Hur & Hfcr).
  destruct Hframe as (Hwf & Hlen & Htid & Hpid & (len & Hl & Hlen') & Hu & Hfc).
  unfold ModbusTCP.processRequest, try_catch, ModbusTCP.processRequest_body.
  rewrite Htid, Hpid, Hl, Hu, Hfc.
  run_M. rewrite Hnone. run_M.
  fold (ModbusTCP.exception tid 0 unitId fc 11 slaves).
  by rewrite tcp_exception_eq.
Qed.

Lemma pdu_len : Buffer.len (drop 7 req) = Buffer.len req - 7.
Proof.
  destruct Hframe as (_ & Hlen & _).
  unfold Buffer.len in *. rewrite length_drop. lia.
Qed.

Context (dev : SlaveDevice).
Hypothesis Hdev : slaves !! unitId = Some dev.

Lemma tcp_read_loop n : ∀ i startAddr (pre : Buffer.t),
  slave_ok dev → 0 <= startAddr → 0 <= i →
  Buffer.len pre = 2 + i * 2 →
  ModbusTCP.read_loop n i unitId startAddr (pre ++ replicate (2 * n) 0) slaves
  = (Some (pre ++ payload dev startAddr i n), slaves).
Proof.
  induction n as [|n IH]; intros i a pre Hok Ha Hi Hpre; [done|].
  cbn [ModbusTCP.read_loop payload]. unfold mbind, M_bind.
  change ModbusTCP.registerCount with 500.
  rewrite (fetch_register slaves unitId dev Hdev).
  destruct (register_value_ok dev (a + i) Hok) as [-> Hv]; [lia|].
  replace (2 * S n)%nat with (S (S (2 * n))) by lia.
  cbn [replicate Buffer.writeValueUInt16BE lift].
  rewrite <- Hpre, writeUInt16BE_at by done.
  rewrite (app_assoc pre), IH; [|done|done|lia|].
  - by rewrite <- !app_assoc.
  - unfold Buffer.len in *. rewrite length_app. simpl. lia.
Qed.

Lemma tcp_read_ok a q :
  fc = 3 → Buffer.readUInt16BE req 8 = Some a →
  Buffer.readUInt16BE req 10 = Some q →
  slave_ok dev → 1 <= q <= 125 →
  ModbusTCP.processRequest req slaves
  = (Some (mbap tid unitId (tcp_read_pdu dev a q)), slaves).
Proof.
  intros Hfc3 Ha Hq Hok Hq125.
  destruct tcp_frame_ranges as (Htidr & Hur & Hfcr). pose proof pdu_len as Hpl.
  pose proof Hframe as (Hwf & Hlen & Htid & Hpid & (len & Hl & Hlen') & Hu & Hfc).
  pose proof (readUInt16BE_range _ _ _ Hwf Ha) as Har.
  pose proof (readUInt16BE_Some_len _ _ _ Hq) as [_ Hlen12].
  unfold ModbusTCP.processRequest, try_catch, ModbusTCP.processRequest_body.
  rewrite Htid, Hpid, Hl, Hu, Hfc, Hfc3.
  run_M. rewrite Hdev. run_M.
  rewrite slice_from_drop by lia. change (Z.to_nat 7) with 7%nat.
  rewrite Hpl, !readUInt16BE_drop by lia.
  change (Z.of_nat 7 + 1) with 8. change (Z.of_nat 7 + 3) with 10.
  rewrite Ha, Hq. run_M.
  rewrite alloc_eq by lia.
  replace (Z.to_nat (2 + q * 2)) with (S (S (2 * Z.to_nat q))) by lia.
  remember (2 * Z.to_nat q)%nat as m eqn:Hm. cbn [replicate].
  eval_writes. subst m.
  change (3 :: q * 2 :: ?l) with ([3; q * 2] ++ l).
  rewrite tcp_read_loop by (done || lia).
  fold (tcp_read_pdu dev a q).
  rewrite tcp_finish_eq; [done|done|done|].
  unfold tcp_read_pdu, Buffer.len. rewrite length_app, payload_length.
  simpl length. lia.
Qed.

(** A quantity outside 1..125 is answered with exception 0x03. *)
Lemma tcp_read_bad_quantity a q :
  fc = 3 → Buffer.readUInt16BE req 8 = Some a →
  Buffer.readUInt16BE req 10 = Some q →
  q < 1 ∨ 125 < q →
  ModbusTCP.processRequest req slaves
  = (Some (tcp_exception tid unitId 3 0x03), slaves).
Proof.
  intros Hfc3 Ha Hq Hbad.
  destruct tcp_frame_ranges as (Htidr & Hur & Hfcr). pose proof pdu_len as Hpl.
  pose proof Hframe as (Hwf & Hlen & Htid & Hpid & (len & Hl & Hlen') & Hu & Hfc).
  pose proof (readUInt16BE_Some_len _ _ _ Hq) as [_ Hlen12].
  unfold ModbusTCP.processRequest, try_catch, ModbusTCP.processRequest_body.
  rewrite Htid, Hpid, Hl, Hu, Hfc, Hfc3.
  run_M. rewrite Hdev. run_M.
  rewrite slice_from_drop by lia. change (Z.to_nat 7) with 7%nat.
  rewrite Hpl, !readUInt16BE_drop by lia.
  change (Z.of_nat 7 + 1) with 8. change (Z.of_nat 7 + 3) with 10.
  rewrite Ha, Hq. run_M.
  assert ((q <? 1) || (125 <? q) = true) as ->.
  { destruct Hbad; [rewrite (proj2 (Z.ltb_lt q 1)) by lia; done|].
    rewrite (proj2 (Z.ltb_lt 125 q)) by lia. by rewrite orb_true_r. }
  by rewrite tcp_exception_eq.
Qed.

(** Case 0x06 on the TCP path. *)
Lemma tcp_write_single addr value :
  fc = 6 → Buffer.readUInt16BE req 8 = Some addr →
  Buffer.readUInt16BE req 10 = Some value →
  ModbusTCP.processRequest req slaves
  = if addr <? 500
    then (Some (mbap tid unitId (take 5 (drop 7 req))),
          store_write unitId addr value slaves)
    else (Some (tcp_exception tid unitId 6 0x02), slaves).
Proof.
  intros Hfc6 Ha Hv.
  destruct tcp_frame_ranges as (Htidr & Hur & Hfcr). pose proof pdu_len as Hpl.
  pose proof Hframe as (Hwf & Hlen & Htid & Hpid & (len & Hl & Hlen') & Hu & Hfc).
  pose proof (readUInt16BE_Some_len _ _ _ Hv) as [_ Hlen12].
  unfold ModbusTCP.processRequest, try_catch, ModbusTCP.processRequest_body.
  rewrite Htid, Hpid, Hl, Hu, Hfc, Hfc6.
  run_M. rewrite Hdev. run_M.
  rewrite slice_from_drop by lia. change (Z.to_nat 7) with 7%nat.
  rewrite Hpl, !readUInt16BE_drop by lia.
  change (Z.of_nat 7 + 1) with 8. change (Z.of_nat 7 + 3) with 10.
  rewrite Ha, Hv. run_M.
  unfold store_write. change ModbusTCP.registerCount with 500.
  destruct (addr <? 500).
  - unfold writeRegister. rewrite Hdev. cbn [snd].
    rewrite slice_take by lia. change (Z.to_nat 5) with 5%nat.
    rewrite tcp_finish_eq; [done|done|done|].
    unfold Buffer.len. rewrite length_take. lia.
  - by rewrite tcp_exception_eq.
Qed.

Lemma tcp_write_loop_eq (pdu : Buffer.t) a n : ∀ i (s : Slaves),
  0 <= i → is_Some (s !! unitId) →
  6 + (i + Z.of_nat n) * 2 <= Buffer.len pdu →
  ModbusTCP.write_loop n i unitId a pdu s
  = (Some (), write_registers n i unitId a pdu 6 s).
Proof.
  induction n as [|n IH]; intros i s Hi Hs Hlen; [done|].
  cbn [ModbusTCP.write_loop write_registers].
  destruct (readUInt16BE_is_Some pdu (6 + i * 2)) as [v Hv]; [lia|lia|].
  rewrite Hv. unfold mbind, M_bind, lift.
  change ModbusTCP.registerCount with 500.
  rewrite guarded_write_eq by done.
  apply IH; [lia|by apply store_write_is_Some|lia].
Qed.

(** Case 0x10 on the TCP path: the frame is shorter than a byte count. *)
Lemma tcp_write_multiple_short :
  fc = 16 → Buffer.len req < 13 →
  ModbusTCP.processRequest req slaves
  = (Some (tcp_exception tid unitId 16 0x03), slaves).
Proof.
  intros Hfc16 Hshort.
  destruct tcp_frame_ranges as (Htidr & Hur & Hfcr). pose proof pdu_len as Hpl.
  pose proof Hframe as (Hwf & Hlen & Htid & Hpid & (len & Hl & Hlen') & Hu & Hfc).
  unfold ModbusTCP.processRequest, try_catch, ModbusTCP.processRequest_body.
  rewrite Htid, Hpid, Hl, Hu, Hfc, Hfc16.
  run_M. rewrite Hdev. run_M.
  rewrite slice_from_drop by lia. change (Z.to_nat 7) with 7%nat.
  rewrite Hpl. run_M.
  by rewrite tcp_exception_eq.
Qed.

(** Case 0x10 on the TCP path, from the byte count on. *)
Lemma tcp_write_multiple a q bc :
  fc = 16 → Buffer.readUInt16BE req 8 = Some a →
  Buffer.readUInt16BE req 10 = Some q →
  Buffer.readUInt8 req 12 = Some bc →
  ModbusTCP.processRequest req slaves
  = if negb (bc =? q * 2) || (Buffer.len req - 7 <? 6 + bc)
    then (Some (tcp_exception tid unitId 16 0x03), slaves)
    else (Some (mbap tid unitId (write_multiple_pdu a q)),
          write_registers (Z.to_nat q) 0 unitId a (drop 7 req) 6 slaves).
Proof.
  intros Hfc16 Ha Hq Hbc.
  destruct tcp_frame_ranges as (Htidr & Hur & Hfcr). pose proof pdu_len as Hpl.
  pose proof Hframe as (Hwf & Hlen & Htid & Hpid & (len & Hl & Hlen') & Hu & Hfc).
  pose proof (readUInt16BE_range _ _ _ Hwf Ha) as Har.
  pose proof (readUInt16BE_range _ _ _ Hwf Hq) as Hqr.
  pose proof (get_Some_len _ _ _ Hbc) as [_ Hlen13].
  unfold ModbusTCP.processRequest, try_catch, ModbusTCP.processRequest_body.
  rewrite Htid, Hpid, Hl, Hu, Hfc, Hfc16.
  run_M. rewrite Hdev. run_M.
  rewrite slice_from_drop by lia. change (Z.to_nat 7) with 7%nat.
  rewrite Hpl, !readUInt16BE_drop by lia.
  unfold Buffer.readUInt8. rewrite get_drop by lia.
  change (Z.of_nat 7 + 1) with 8. change (Z.of_nat 7 + 3) with 10.
  change (Z.of_nat 7 + 5) with 12.
  fold (Buffer.readUInt8 req 12). rewrite Ha, Hq, Hbc. run_M.
  destruct (Z.eqb_spec bc (q * 2)) as [->|Hne]; cbn [negb orb];
    [|by rewrite tcp_exception_eq].
  destruct (Z.ltb_spec (Buffer.len req - 7) (6 + q * 2));
    [by rewrite tcp_exception_eq|].
  rewrite tcp_write_loop_eq by (rewrite ?Hpl, ?Hdev; (done || lia)).
  rewrite alloc_eq by lia. eval_writes.
  by rewrite tcp_finish_eq.
Qed.

End TCP.

(** ** Store properties kept by the codec

    The rules follow the shape of the code: one per construct of the
    monad.  [I] is any property of the store that an in-range write of a
    16-bit number keeps. *)

Section Preservation.

Context (I : Slaves → Prop).

Lemma preserves_ret {A} (x : A) : preserves I (mret x).
Proof. by intros s Hs. Qed.

Lemma preserves_lift {A} (o : option A) : preserves I (lift o).
Proof. by intros s Hs. Qed.

Lemma preserves_get : preserves I getSlaves.
Proof. by intros s Hs. Qed.

Lemma preserves_read slaveId idx : preserves I (readRegister slaveId idx).
Proof. intros s Hs. unfold readRegister. by destruct (s !! slaveId). Qed.

Lemma preserves_bind {A B} (m : M A) (f : A → M B) :
  preserves I m → (∀ x, preserves I (f x)) → preserves I (m ≫= f).
Proof.
  intros Hm Hf s Hs. unfold mbind, M_bind.
  specialize (Hm s Hs). destruct (m s) as [[x|] s']; simpl in *; [|done].
  by apply Hf.
Qed.

Lemma preserves_bind_lift {A B} (o : option A) (f : A → M B) :
  (∀ x, o = Some x → preserves I (f x)) → preserves I (lift o ≫= f).
Proof.
  intros Hf s Hs. unfold mbind, M_bind, lift.
  destruct o as [x|]; [|done]. by apply Hf.
Qed.

Lemma preserves_try_catch (body : M (option Buffer.t)) s :
  preserves I body → I s → I (snd (try_catch body s)).
Proof.
  intros Hb Hs. specialize (Hb s Hs). unfold try_catch.
  by destruct (body s) as [[r|] s'].
Qed.

Hypothesis Hwrite : ∀ slaveId idx v,
  0 <= idx < 500 → 0 <= v < 65536 →
  preserves I (writeRegister slaveId idx (JS.Number v)).

Lemma preserves_guarded_write slaveId idx v :
  0 <= idx → 0 <= v < 65536 →
  preserves I (if idx <? 500
               then writeRegister slaveId idx (JS.Number v)
               else mret ()).
Proof.
  intros Hidx Hv. destruct (Z.ltb_spec idx 500).
  - apply Hwrite; lia.
  - apply preserves_ret.
Qed.

Lemma preserves_store_write slaveId idx v s :
  0 <= idx → 0 <= v < 65536 → I s → I (store_write slaveId idx v s).
Proof. intros Hidx Hv Hs. by apply preserves_guarded_write. Qed.

(** *** RTU *)

Lemma rtu_read_loop_preserves n i slaveId startAddr buf :
  preserves I (ModbusRTU.read_loop n i slaveId startAddr buf).
Proof.
  revert i buf. induction n as [|n IH]; intros i buf; cbn [ModbusRTU.read_loop].
  - apply preserves_ret.
  - apply preserves_bind.
    + destruct (_ <? _); [apply preserves_read|apply preserves_ret].
    + intros val. apply preserves_bind_lift. intros b _. apply IH.
Qed.

Lemma rtu_write_loop_preserves n i slaveId startAddr req :
  Buffer.wf req → 0 <= startAddr → 0 <= i →
  preserves I (ModbusRTU.write_loop n i slaveId startAddr req).
Proof.
  intros Hwf Ha. revert i. induction n as [|n IH]; intros i Hi;
    cbn [ModbusRTU.write_loop].
  - apply preserves_ret.
  - apply preserves_bind_lift. intros v Hv%readUInt16BE_range; [|done].
    apply preserves_bind.
    + apply preserves_guarded_write; lia.
    + intros _. apply IH. lia.
Qed.

Lemma rtu_finish_preserves buf : preserves I (ModbusRTU.finish buf).
Proof.
  unfold ModbusRTU.finish. apply preserves_bind_lift.
  intros r _. apply preserves_ret.
Qed.

Lemma rtu_body_preserves req :
  Buffer.wf req → preserves I (ModbusRTU.processRequest_body req).
Proof.
  intros Hwf. unfold ModbusRTU.processRequest_body.
  destruct (_ <? 4); [apply preserves_ret|].
  apply preserves_bind_lift. intros crcOk _.
  destruct (negb crcOk); [apply preserves_ret|].
  apply preserves_bind_lift. intros slaveId _.
  apply preserves_bind_lift. intros functionCode _.
  apply preserves_bind; [apply preserves_get|]. intros slaves.
  destruct (negb _); [apply preserves_ret|].
  destruct (functionCode =? 3); [|destruct (functionCode =? 6);
                                   [|destruct (functionCode =? 16)]].
  - destruct (negb _); [apply preserves_ret|].
    apply preserves_bind_lift. intros startAddr _.
    apply preserves_bind_lift. intros quantity _.
    do 4 (apply preserves_bind_lift; intros ? _).
    apply preserves_bind; [apply rtu_read_loop_preserves|].
    intros b. apply rtu_finish_preserves.
  - destruct (negb _); [apply preserves_ret|].
    apply preserves_bind_lift. intros regAddr Ha%readUInt16BE_range; [|done].
    apply preserves_bind_lift. intros value Hv%readUInt16BE_range; [|done].
    apply preserves_bind; [apply preserves_guarded_write; lia|].
    intros _. apply rtu_finish_preserves.
  - destruct (_ <? 9); [apply preserves_ret|].
    apply preserves_bind_lift. intros startAddr Ha%readUInt16BE_range; [|done].
    apply preserves_bind_lift. intros quantity _.
    apply preserves_bind_lift. intros byteCount _.
    destruct (_ || _); [apply preserves_ret|].
    apply preserves_bind; [apply rtu_write_loop_preserves; (done || lia)|].
    intros _. do 5 (apply preserves_bind_lift; intros ? _).
    apply rtu_finish_preserves.
  - apply preserves_bind_lift. intros r _. apply preserves_ret.
Qed.

Lemma rtu_preserves req s :
  Buffer.wf req → I s → I (snd (ModbusRTU.processRequest req s)).
Proof.
  intros Hwf Hs. unfold ModbusRTU.processRequest.
  apply preserves_try_catch; [by apply rtu_body_preserves|done].
Qed.

(** *** TCP *)

Lemma slice_wf (buf : Buffer.t) a b : Buffer.wf buf → Buffer.wf (Buffer.slice buf a b).
Proof. intros Hwf. unfold Buffer.slice. by apply Forall_take, Forall_drop. Qed.

Lemma tcp_exception_preserves tid pid unitId fc code :
  preserves I (ModbusTCP.exception tid pid unitId fc code).
Proof.
  unfold ModbusTCP.exception. apply preserves_bind_lift.
  intros r _. apply preserves_ret.
Qed.

Lemma tcp_finish_preserves tid pid unitId pdu :
  preserves I (ModbusTCP.finish tid pid unitId pdu).
Proof.
  unfold ModbusTCP.finish.
  do 5 (apply preserves_bind_lift; intros ? _). apply preserves_ret.
Qed.

Lemma tcp_read_loop_preserves n i unitId startAddr buf :
  preserves I (ModbusTCP.read_loop n i unitId startAddr buf).
Proof.
  revert i buf. induction n as [|n IH]; intros i buf; cbn [ModbusTCP.read_loop].
  - apply preserves_ret.
  - apply preserves_bind.
    + destruct (_ <? _); [apply preserves_read|apply preserves_ret].
    + intros val. apply preserves_bind_lift. intros b _. apply IH.
Qed.

Lemma tcp_write_loop_preserves n i unitId startAddr pdu :
  Buffer.wf pdu → 0 <= startAddr → 0 <= i →
  preserves I (ModbusTCP.write_loop n i unitId startAddr pdu).
Proof.
  intros Hwf Ha. revert i. induction n as [|n IH]; intros i Hi;
    cbn [ModbusTCP.write_loop].
  - apply preserves_ret.
  - apply preserves_bind_lift. intros v Hv%readUInt16BE_range; [|done].
    apply preserves_bind.
    + apply preserves_guarded_write; lia.
    + intros _. apply IH. lia.
Qed.

Lemma tcp_body_preserves req :
  Buffer.wf req → preserves I (ModbusTCP.processRequest_body req).
Proof.
  intros Hwf. unfold ModbusTCP.processRequest_body.
  pose proof (slice_wf req 7 (Buffer.len req) Hwf) as Hpdu.
  fold (Buffer.slice_from req 7) in Hpdu.
  set (pdu := Buffer.slice_from req 7) in *. clearbody pdu.
  destruct (_ <? 8); [apply preserves_ret|].
  do 5 (apply preserves_bind_lift; intros ? _).
  destruct (negb _); [apply preserves_ret|].
  destruct (_ <? _); [apply preserves_ret|].
  apply preserves_bind; [apply preserves_get|]. intros slaves.
  destruct (negb _); [apply tcp_exception_preserves|].
  destruct (_ =? 3); [|destruct (_ =? 6); [|destruct (_ =? 16)]].
  - destruct (_ <? 5); [apply tcp_exception_preserves|].
    apply preserves_bind_lift. intros startAddr _.
    apply preserves_bind_lift. intros quantity _.
    destruct (_ || _); [apply tcp_exception_preserves|].
    do 3 (apply preserves_bind_lift; intros ? _).
    apply preserves_bind; [apply tcp_read_loop_preserves|].
    intros b. apply tcp_finish_preserves.
  - destruct (_ <? 5); [apply tcp_exception_preserves|].
    apply preserves_bind_lift. intros regAddr Ha%readUInt16BE_range; [|done].
    apply preserves_bind_lift. intros value Hv%readUInt16BE_range; [|done].
    change ModbusTCP.registerCount with 500.
    destruct (Z.ltb_spec regAddr 500); [|apply tcp_exception_preserves].
    apply preserves_bind; [apply Hwrite; lia|].
    intros _. apply tcp_finish_preserves.
  - destruct (_ <? 6); [apply tcp_exception_preserves|].
    apply preserves_bind_lift. intros startAddr Ha%readUInt16BE_range; [|done].
    apply preserves_bind_lift. intros quantity _.
    apply preserves_bind_lift. intros byteCount _.
    destruct (_ || _); [apply tcp_exception_preserves|].
    apply preserves_bind; [apply tcp_write_loop_preserves; (done || lia)|].
    intros _. do 4 (apply preserves_bind_lift; intros ? _).
    apply tcp_finish_preserves.
  - apply tcp_exception_preserves.
Qed.

Lemma tcp_preserves req s :
  Buffer.wf req → I s → I (snd (ModbusTCP.processRequest req s)).
Proof.
  intros Hwf Hs. unfold ModbusTCP.processRequest.
  apply preserves_try_catch; [by apply tcp_body_preserves|done].
Qed.

End Preservation.

(** ** The invariant of the store *)

Section Invariant.

Lemma and_0xFFFF_range v : 0 <= JS.and v 0xFFFF < 65536.
Proof.
  unfold JS.and. rewrite (ToInt32_small 65535) by lia.
  change 65535 with (Z.ones 16). rewrite Z.land_ones by lia.
  apply Z.mod_pos_bound. lia.
Qed.

Lemma assign_ok regs idx v :
  length regs = 500%nat → Forall is_u16 regs →
  0 <= idx < 500 → 0 <= v < 65536 →
  slave_ok {| registers := JS.assign regs idx (JS.Number v) |}.
Proof.
  intros Hlen Hall Hidx Hv. unfold slave_ok, JS.assign. cbn [registers].
  destruct (Z.ltb_spec idx 0); [lia|].
  destruct (Nat.ltb_spec (Z.to_nat idx) (length regs)); [|lia].
  split; [by rewrite length_insert|].
  by apply Forall_insert.
Qed.

Lemma fill_ok regs :
  length regs = 500%nat →
  slave_ok {| registers := JS.fill regs (JS.Number 0) |}.
Proof.
  intros Hlen. unfold slave_ok, JS.fill. cbn [registers].
  split; [by rewrite length_replicate|].
  apply Forall_replicate. simpl. lia.
Qed.

Lemma store_ok_write slaveId idx v :
  0 <= idx < 500 → 0 <= v < 65536 →
  preserves store_ok (writeRegister slaveId idx (JS.Number v)).
Proof.
  intros Hidx Hv s Hs. unfold writeRegister.
  destruct (s !! slaveId) as [dev|] eqn:Hdev; [|done]. cbn [snd].
  destruct (Hs _ _ Hdev) as [Hlen Hall].
  apply map_Forall_insert_2; [|done].
  by apply assign_ok.
Qed.

Lemma update_loop_ok n : ∀ i base slaveId body,
  0 <= base + i → base + i + Z.of_nat n <= 500 →
  preserves store_ok (SlaveRoute.update_loop n i base slaveId body).
Proof.
  induction n as [|n IH]; intros i base slaveId body Hlo Hhi;
    cbn [SlaveRoute.update_loop].
  - apply preserves_ret.
  - apply preserves_bind.
    + destruct (body i) as [value|]; [|apply preserves_ret].
      apply store_ok_write; [lia|apply and_0xFFFF_range].
    + intros _. apply IH; lia.
Qed.

Lemma post_ok slaveId group body s :
  store_ok s → store_ok (SlaveRoute.post slaveId group body s).
Proof.
  intros Hs. unfold SlaveRoute.post.
  destruct (negb _); [done|].
  assert (Hg : 1 <= SlaveRoute.select_group group <= 7).
  { unfold SlaveRoute.select_group. destruct group as [g|]; [|lia].
    destruct (Z.ltb_spec g 1); [simpl; lia|].
    destruct (Z.ltb_spec 7 g); simpl; lia. }
  destruct (_ =? 1).
  - apply update_loop_ok; [lia|simpl; lia|done].
  - apply update_loop_ok; [lia|simpl; lia|done].
Qed.

Lemma clearSlave_ok slaveId s :
  store_ok s → store_ok (Storage.clearSlave slaveId s).
Proof.
  intros Hs. unfold Storage.clearSlave.
  destruct (s !! slaveId) as [dev|] eqn:Hdev; [|done].
  destruct (Hs _ _ Hdev) as [Hlen _].
  apply map_Forall_insert_2; [by apply fill_ok|done].
Qed.

Lemma clearAllSlaves_ok s :
  store_ok s → store_ok (Storage.clearAllSlaves s).
Proof.
  intros Hs. unfold Storage.clearAllSlaves, store_ok.
  apply map_Forall_fmap. intros id dev Hdev. simpl.
  destruct (Hs _ _ Hdev) as [Hlen _]. by apply fill_ok.
Qed.

Lemma loadSlaves_ok file s :
  file_ok file → store_ok s → store_ok (Storage.loadSlaves file s).
Proof.
  intros Hfile Hs. unfold Storage.loadSlaves.
  destruct file as [saved|]; [|done].
  specialize (Hfile saved eq_refl). revert Hfile.
  apply (map_fold_weak_ind
           (λ r m, map_Forall (λ _ regs, slave_ok {| registers := regs |}) m
                   → store_ok r)).
  - done.
  - intros id regs m r Hnone IH Hall.
    apply map_Forall_insert in Hall as [Hregs Hm]; [|done].
    specialize (IH Hm).
    destruct (js_in id r); [|done].
    by apply map_Forall_insert_2.
Qed.

Lemma initialize_ok slaveIds file s :
  file_ok file → store_ok s →
  store_ok (Storage.initialize slaveIds 500 file s).
Proof.
  intros Hfile Hs. unfold Storage.initialize.
  apply loadSlaves_ok; [done|].
  revert s Hs. induction slaveIds as [|id ids IH]; intros s Hs; [done|].
  cbn [foldl]. apply IH.
  apply map_Forall_insert_2; [|done].
  apply fill_ok. unfold Storage.new_Array. by rewrite length_replicate.
Qed.

Lemma startServer_ok file : file_ok file → store_ok (Server.startServer file).
Proof.
  intros Hfile. unfold Server.startServer.
  apply initialize_ok; [done|]. apply map_Forall_empty.
Qed.

Lemma apply_operation_ok op s :
  operation_ok op → store_ok s → store_ok (apply_operation op s).
Proof.
  intros Hop Hs. destruct op; cbn [apply_operation operation_ok] in *.
  - by apply (tcp_preserves store_ok store_ok_write).
  - by apply (rtu_preserves store_ok store_ok_write).
  - by apply post_ok.
  - by apply clearSlave_ok.
  - by apply clearAllSlaves_ok.
  - by apply loadSlaves_ok.
Qed.

End Invariant.

(** ** The RTU framer *)

Section FramerProps.

Lemma on_timeout_buffer st s :
  Framer.buffer (Framer.on_timeout st s).1.1 = [].
Proof.
  unfold Framer.on_timeout.
  destruct (8 <=? _); [|done].
  by destruct (ModbusRTU.processRequest _ _).
Qed.

Lemma on_timeout_short st s :
  Buffer.len (Framer.buffer st) < 8 →
  Framer.on_timeout st s
  = ({| Framer.buffer := []; Framer.timerPending := false;
        Framer.portOpen := Framer.portOpen st |}, s, None).
Proof. intros Hlen. unfold Framer.on_timeout. by decide_cmps. Qed.

Lemma on_timeout_frame st s :
  8 <= Buffer.len (Framer.buffer st) →
  Framer.on_timeout st s
  = ({| Framer.buffer := []; Framer.timerPending := false;
        Framer.portOpen := Framer.portOpen st |},
     (ModbusRTU.processRequest (Framer.buffer st) s).2,
     if Framer.portOpen st
     then (ModbusRTU.processRequest (Framer.buffer st) s).1
     else None).
Proof.
  intros Hlen. unfold Framer.on_timeout. decide_cmps.
  by destruct (ModbusRTU.processRequest _ _).
Qed.

Lemma step_idle_empty ev st s :
  idle_empty st → idle_empty (Framer.step ev st s).1.1.
Proof.
  intros Hst. destruct ev as [data|]; cbn [Framer.step].
  - by intros ?.
  - destruct (Framer.timerPending st) eqn:Hp; [|done].
    intros _. apply on_timeout_buffer.
Qed.

Lemma run_app evs1 : ∀ evs2 st s,
  Framer.run (evs1 ++ evs2) st s
  = let '(st1, s1, out1) := Framer.run evs1 st s in
    let '(st2, s2, out2) := Framer.run evs2 st1 s1 in
    (st2, s2, out1 ++ out2).
Proof.
  induction evs1 as [|ev evs1 IH]; intros evs2 st s; cbn [Framer.run app].
  - by destruct (Framer.run evs2 st s) as [[? ?] ?].
  - destruct (Framer.step ev st s) as [[st' s'] out]. rewrite IH.
    destruct (Framer.run evs1 st' s') as [[st1 s1] out1].
    destruct (Framer.run evs2 st1 s1) as [[st2 s2] out2].
    by rewrite app_assoc.
Qed.

Lemma run_idle_empty evs : ∀ st s,
  idle_empty st → idle_empty (Framer.run evs st s).1.1.
Proof.
  induction evs as [|ev evs IH]; intros st s Hst; cbn [Framer.run]; [done|].
  pose proof (step_idle_empty ev st s Hst) as Hstep.
  destruct (Framer.step ev st s) as [[st' s'] out]. cbn [fst] in Hstep.
  specialize (IH st' s' Hstep).
  by destruct (Framer.run evs st' s') as [[st'' s''] outs].
Qed.

End FramerProps.

(** ** Responses as the client reads them *)

Section Responses.

Lemma read_response_at (pre post : Buffer.t) dev a q h :
  slave_ok dev → 0 <= a → 0 <= q →
  Buffer.len pre = h →
  Buffer.get pre (h - 2) = Some 3 → Buffer.get pre (h - 1) = Some (q * 2) →
  read_response (pre ++ payload dev a 0 (Z.to_nat q) ++ post) h dev a q.
Proof.
  intros Hok Ha Hq Hh H3 Hbc. unfold read_response, Buffer.readUInt8.
  rewrite !get_app_l by lia.
  split; [done|]. split; [done|]. intros i Hi.
  replace (h + 2 * i) with (Buffer.len pre + 2 * Z.of_nat (Z.to_nat i)) by lia.
  rewrite payload_read by lia.
  destruct (register_value_ok dev (a + i) Hok) as [-> _]; [lia|].
  simpl. do 3 f_equal. lia.
Qed.

Lemma mbap_len tid unitId (pdu : Buffer.t) :
  Buffer.len (mbap tid unitId pdu) = 7 + Buffer.len pdu.
Proof. unfold mbap, Buffer.len. rewrite !length_app. simpl. lia. Qed.

Lemma mbap_transaction tid unitId (pdu : Buffer.t) :
  Buffer.readUInt16BE (mbap tid unitId pdu) 0 = Some tid.
Proof. apply (readUInt16BE_be16 []). Qed.

Lemma tcp_exception_fields tid unitId fc code :
  Buffer.readUInt16BE (tcp_exception tid unitId fc code) 0 = Some tid
  ∧ Buffer.readUInt8 (tcp_exception tid unitId fc code) 6 = Some unitId
  ∧ Buffer.readUInt8 (tcp_exception tid unitId fc code) 7 = Some (JS.or fc 0x80)
  ∧ Buffer.readUInt8 (tcp_exception tid unitId fc code) 8 = Some code
  ∧ Buffer.len (tcp_exception tid unitId fc code) = 9.
Proof. split; [apply mbap_transaction|done]. Qed.

Lemma tcp_read_response tid unitId dev a q :
  slave_ok dev → 0 <= a → 0 <= q →
  Buffer.len (mbap tid unitId (tcp_read_pdu dev a q)) = 9 + 2 * q
  ∧ read_response (mbap tid unitId (tcp_read_pdu dev a q)) 9 dev a q.
Proof.
  intros Hok Ha Hq. split.
  - rewrite mbap_len. unfold tcp_read_pdu, Buffer.len.
    rewrite length_app, payload_length. simpl. lia.
  - unfold mbap, tcp_read_pdu.
    rewrite <- (app_nil_r (payload dev a 0 (Z.to_nat q))).
    rewrite !app_assoc, <- app_assoc.
    by apply read_response_at.
Qed.

Lemma rtu_read_response slaveId dev a q :
  slave_ok dev → 0 <= a → 0 <= q →
  let pdu := rtu_read_pdu slaveId dev a q in
  Buffer.len (pdu ++ crc_bytes pdu) = 3 + 2 * q + 2
  ∧ read_response (pdu ++ crc_bytes pdu) 3 dev a q.
Proof.
  intros Hok Ha Hq pdu. split.
  - unfold pdu, rtu_read_pdu, Buffer.len.
    rewrite !length_app, payload_length. simpl. lia.
  - unfold pdu at 1, rtu_read_pdu. rewrite <- app_assoc.
    by apply read_response_at.
Qed.

(** An eight-byte frame with a valid CRC is its first six bytes under
    their CRC: the echo of case 0x06 is the request itself. *)
Lemma rtu_echo (req : Buffer.t) id fc f1 f2 :
  rtu_request req id fc f1 f2 → take 6 req ++ crc_bytes (take 6 req) = req.
Proof.
  intros ((Hwf & Hcrc & _) & Hlen & _).
  destruct (verifyCRC_true_inv req Hwf Hcrc) as [_ Heq].
  unfold Buffer.len in Hlen.
  replace (length req - 2)%nat with 6%nat in Heq by lia. done.
Qed.

End Responses.

(** ** The code run on concrete frames *)

Example crc_check_string :
  CRC.calculateCRC [49; 50; 51; 52; 53; 54; 55; 56; 57] = 0x4B37.
Proof. reflexivity. Qed.

Example crc_append_read :
  CRC.appendCRC [1; 3; 0; 0; 0; 2] = Some [1; 3; 0; 0; 0; 2; 196; 11].
Proof. reflexivity. Qed.

Example crc_verify_read :
  CRC.verifyCRC [1; 3; 0; 0; 0; 2; 196; 11] = Some true.
Proof. reflexivity. Qed.

(** Registers 499, 500 and 501: the stored 7, then zeros. *)
Example tcp_read_past_end :
  (ModbusTCP.processRequest Ex.tcp_read Ex.store).1
  = Some [0; 7; 0; 0; 0; 9; 1; 3; 6; 0; 7; 0; 0; 0; 0].
Proof. vm_compute. reflexivity. Qed.

Example rtu_read_past_end :
  (ModbusRTU.processRequest Ex.rtu_read Ex.store).1
  = Some [1; 3; 6; 0; 7; 0; 0; 0; 0; 148; 181].
Proof. vm_compute. reflexivity. Qed.

(** The last CRC byte incremented by one: no response. *)
Example rtu_corrupted_frame :
  ModbusRTU.processRequest [1; 3; 1; 243; 0; 3; 244; 5] Ex.store = (None, Ex.store).
Proof. vm_compute. reflexivity. Qed.

(** Write 1234 to register 10, then read it back. *)
Example tcp_write_then_read :
  let s := (ModbusTCP.processRequest [0; 1; 0; 0; 0; 6; 1; 6; 0; 10; 4; 210] Ex.store).2 in
  (ModbusTCP.processRequest [0; 2; 0; 0; 0; 6; 1; 3; 0; 10; 0; 1] s).1
  = Some [0; 2; 0; 0; 0; 5; 1; 3; 2; 4; 210].
Proof. vm_compute. reflexivity. Qed.

(** Two frames without a silence between them are one buffer of 16 bytes
    and are dropped; with a silence after each, both are answered. *)
Example framer_merged_frames :
  (Framer.run [Framer.Data Ex.rtu_read; Framer.Data Ex.rtu_read; Framer.Silence]
     (Framer.constructor true) Ex.store).2
  = [].
Proof. vm_compute. reflexivity. Qed.

Example framer_separate_frames :
  (Framer.run [Framer.Data Ex.rtu_read; Framer.Silence;
               Framer.Data Ex.rtu_read; Framer.Silence]
     (Framer.constructor true) Ex.store).2
  = [[1; 3; 6; 0; 7; 0; 0; 0; 0; 148; 181]; [1; 3; 6; 0; 7; 0; 0; 0; 0; 148; 181]].
Proof. vm_compute. reflexivity. Qed.

(** ** The concrete stores and frames *)

Ltac concrete_bytes :=
  unfold Buffer.wf, Buffer.is_byte; repeat constructor; lia.

Ltac concrete_len := vm_compute; first [ reflexivity | discriminate ].

Ltac concrete_tcp_frame :=
  repeat split;
  first [ concrete_bytes | reflexivity | concrete_len
        | eexists; split; [reflexivity | concrete_len] ].

Ltac concrete_rtu_frame :=
  repeat split; first [ concrete_bytes | reflexivity ].

Section Concrete.

Lemma ex_dev_ok : slave_ok Ex.dev.
Proof.
  split; [reflexivity|]. unfold Ex.dev, Ex.zeros. cbn [registers].
  apply Forall_insert; [apply Forall_replicate|]; simpl; lia.
Qed.

Lemma ex_store_lookup : Ex.store !! 1 = Some Ex.dev.
Proof. reflexivity. Qed.

Lemma ex_store_unknown : Ex.store !! 99 = None.
Proof. reflexivity. Qed.

End Concrete.

(** ** Claims *)

(** C2 (as the code has it): the CRC round trip.  For every non-empty byte
    sequence [b], [verifyCRC (appendCRC b)] is true: [appendCRC] puts the
    CRC-16/MODBUS of [b] behind it, low byte first, and [verifyCRC] reads
    the last two bytes little-endian and compares them with the CRC of the
    rest. *)
Theorem crc_round_trip (b : Buffer.t) :
  Buffer.wf b → b ≠ [] →
  CRC.appendCRC b ≫= CRC.verifyCRC = Some true.
Proof.
  intros Hwf Hne. rewrite appendCRC_eq by done. simpl.
  unfold crc_bytes. rewrite verifyCRC_app by done.
  f_equal. apply Z.eqb_eq.
  pose proof (Z.div_mod (CRC.calculateCRC b) 256). lia.
Qed.

Lemma crc_round_trip_witness :
  CRC.appendCRC [1; 3; 0; 0; 0; 2] ≫= CRC.verifyCRC = Some true.
Proof.
  apply crc_round_trip.
  - unfold Buffer.wf, Buffer.is_byte. repeat constructor; lia.
  - discriminate.
Defined.

(** C2 as stated fails on the empty sequence: its frame is the two CRC
    bytes alone, which [verifyCRC] refuses as shorter than three bytes. *)
Lemma crc_round_trip_empty :
  Buffer.wf [] ∧ CRC.appendCRC [] = Some [255; 255] ∧
  CRC.appendCRC [] ≫= CRC.verifyCRC = Some false.
Proof. split; [constructor|]. split; reflexivity. Qed.

(** C1: a 0x03 request addressed to a configured slave, on either
    transport, is answered with exactly [quantity] big-endian 16-bit
    values; value [i] is [registers[startAddr + i]] when
    [startAddr + i < 500] and 0 otherwise.  No start address is refused:
    the only conditions are on the quantity, 1..125 on the TCP path and
    at most 127 on the RTU path. *)
Theorem read_holding_registers
    (slaves : Slaves) (id : Z) (dev : SlaveDevice)
    (treq : Buffer.t) (tid a q : Z) (rreq : Buffer.t) (a' q' : Z) :
  slaves !! id = Some dev → slave_ok dev →
  tcp_request treq tid id 3 a q → 1 <= q <= 125 →
  rtu_request rreq id 3 a' q' → q' <= 127 →
  (∃ resp, ModbusTCP.processRequest treq slaves = (Some resp, slaves)
           ∧ Buffer.len resp = 9 + 2 * q
           ∧ read_response resp 9 dev a q)
  ∧ (∃ resp, ModbusRTU.processRequest rreq slaves = (Some resp, slaves)
             ∧ Buffer.len resp = 3 + 2 * q' + 2
             ∧ read_response resp 3 dev a' q').
Proof.
  intros Hdev Hok Ht Hq Hr Hq'. split.
  - destruct Ht as (Hframe & Ha & Hqq).
    pose proof Hframe as (Hwf & _).
    pose proof (readUInt16BE_range _ _ _ Hwf Ha).
    eexists. split; [by eapply tcp_read_ok|].
    apply tcp_read_response; (done || lia).
  - pose proof Hr as ((Hwf & _) & _ & Ha & Hqq).
    pose proof (readUInt16BE_range _ _ _ Hwf Ha).
    pose proof (readUInt16BE_range _ _ _ Hwf Hqq).
    eexists. split; [by eapply rtu_read_ok|].
    apply rtu_read_response; (done || lia).
Qed.

Lemma read_holding_registers_witness :
  (∃ resp, ModbusTCP.processRequest Ex.tcp_read Ex.store = (Some resp, Ex.store)
           ∧ Buffer.len resp = 9 + 2 * 3
           ∧ read_response resp 9 Ex.dev 499 3)
  ∧ (∃ resp, ModbusRTU.processRequest Ex.rtu_read Ex.store = (Some resp, Ex.store)
             ∧ Buffer.len resp = 3 + 2 * 3 + 2
             ∧ read_response resp 3 Ex.dev 499 3).
Proof.
  apply (read_holding_registers Ex.store 1 Ex.dev Ex.tcp_read 7 499 3 Ex.rtu_read 499 3).
  - exact ex_store_lookup.
  - exact ex_dev_ok.
  - concrete_tcp_frame.
  - lia.
  - concrete_rtu_frame.
  - lia.
Defined.

(** C3: a frame whose unit or slave id is not configured.  The TCP path
    answers with the exception response of code 0x0B, its function code
    the request's with bit 0x80 set, under the transaction id of the
    request; the RTU path answers nothing.  Neither touches the store. *)
Theorem unknown_slave
    (slaves : Slaves) (treq : Buffer.t) (tid unitId fc : Z) (rreq : Buffer.t) :
  tcp_frame treq tid unitId fc → slaves !! unitId = None →
  (∀ id, Buffer.readUInt8 rreq 0 = Some id → slaves !! id = None) →
  (∃ resp, ModbusTCP.processRequest treq slaves = (Some resp, slaves)
           ∧ Buffer.len resp = 9
           ∧ Buffer.readUInt16BE resp 0 = Some tid
           ∧ Buffer.readUInt8 resp 7 = Some (JS.or fc 0x80)
           ∧ Buffer.readUInt8 resp 8 = Some 0x0B)
  ∧ ModbusRTU.processRequest rreq slaves = (None, slaves).
Proof.
  intros Hframe Hnone Hrtu. split.
  - exists (tcp_exception tid unitId fc 0x0b).
    split; [by apply tcp_unknown_unit|].
    destruct (tcp_exception_fields tid unitId fc 0x0b) as (? & ? & ? & ? & ?).
    done.
  - by apply rtu_unknown_slave.
Qed.

Lemma unknown_slave_witness :
  (∃ resp, ModbusTCP.processRequest Ex.tcp_read_99 Ex.store = (Some resp, Ex.store)
           ∧ Buffer.len resp = 9
           ∧ Buffer.readUInt16BE resp 0 = Some 7
           ∧ Buffer.readUInt8 resp 7 = Some (JS.or 3 0x80)
           ∧ Buffer.readUInt8 resp 8 = Some 0x0B)
  ∧ ModbusRTU.processRequest Ex.rtu_read_99 Ex.store = (None, Ex.store).
Proof.
  apply (unknown_slave Ex.store Ex.tcp_read_99 7 99 3 Ex.rtu_read_99).
  - concrete_tcp_frame.
  - exact ex_store_unknown.
  - intros id [= <-]. exact ex_store_unknown.
Defined.

(** C4: a 0x06 request for a register at 500 or above, addressed to a
    configured slave.  The TCP path answers exception 0x02 and writes
    nothing; the RTU path writes nothing either, and answers with the
    request itself, address and value included, as after a write. *)
Theorem write_single_out_of_range
    (slaves : Slaves) (id : Z) (dev : SlaveDevice)
    (treq : Buffer.t) (tid addr value : Z) (rreq : Buffer.t) (addr' value' : Z) :
  slaves !! id = Some dev →
  tcp_request treq tid id 6 addr value → 500 <= addr →
  rtu_request rreq id 6 addr' value' → 500 <= addr' →
  (∃ resp, ModbusTCP.processRequest treq slaves = (Some resp, slaves)
           ∧ Buffer.readUInt16BE resp 0 = Some tid
           ∧ Buffer.readUInt8 resp 7 = Some (JS.or 6 0x80)
           ∧ Buffer.readUInt8 resp 8 = Some 0x02)
  ∧ ModbusRTU.processRequest rreq slaves = (Some rreq, slaves)
  ∧ Buffer.readUInt8 rreq 1 = Some 6
  ∧ Buffer.readUInt16BE rreq 2 = Some addr'
  ∧ Buffer.readUInt16BE rreq 4 = Some value'.
Proof.
  intros Hdev Ht Ha Hr Ha'. split; [|split].
  - destruct Ht as (Hframe & Haddr & Hvalue).
    exists (tcp_exception tid id 6 0x02). split.
    + rewrite (tcp_write_single slaves treq tid id 6 Hframe dev Hdev addr value)
        by done.
      by decide_cmps.
    + destruct (tcp_exception_fields tid id 6 0x02) as (? & ? & ? & ? & ?).
      done.
  - pose proof Hr as (Hframe & _).
    rewrite (rtu_write_single slaves id dev Hdev rreq addr' value') by done.
    rewrite (rtu_echo rreq id 6 addr' value') by done.
    by rewrite store_write_dropped.
  - by destruct Hr as ((_ & _ & _ & ?) & _ & ? & ?).
Qed.

Lemma write_single_out_of_range_witness :
  (∃ resp, ModbusTCP.processRequest Ex.tcp_write_500 Ex.store = (Some resp, Ex.store)
           ∧ Buffer.readUInt16BE resp 0 = Some 7
           ∧ Buffer.readUInt8 resp 7 = Some (JS.or 6 0x80)
           ∧ Buffer.readUInt8 resp 8 = Some 0x02)
  ∧ ModbusRTU.processRequest Ex.rtu_write_500 Ex.store
    = (Some Ex.rtu_write_500, Ex.store)
  ∧ Buffer.readUInt8 Ex.rtu_write_500 1 = Some 6
  ∧ Buffer.readUInt16BE Ex.rtu_write_500 2 = Some 500
  ∧ Buffer.readUInt16BE Ex.rtu_write_500 4 = Some 42.
Proof.
  apply (write_single_out_of_range Ex.store 1 Ex.dev
           Ex.tcp_write_500 7 500 42 Ex.rtu_write_500 500 42).
  - exact ex_store_lookup.
  - concrete_tcp_frame.
  - lia.
  - concrete_rtu_frame.
  - lia.
Defined.

(** C5: the quantity of a 0x03 request.  On the TCP path a quantity
    outside 1..125 is answered with exception 0x03.  The RTU path has no
    such check: a quantity outside 1..125 is served like any other, with
    that many values, as long as its byte count fits a byte (beyond 127
    the response cannot be built and nothing is sent). *)
Theorem read_quantity_limit
    (slaves : Slaves) (id : Z) (dev : SlaveDevice)
    (treq : Buffer.t) (tid a q : Z) (rreq : Buffer.t) (a' q' : Z) :
  slaves !! id = Some dev → slave_ok dev →
  tcp_request treq tid id 3 a q → q < 1 ∨ 125 < q →
  rtu_request rreq id 3 a' q' → q' < 1 ∨ 125 < q' →
  (∃ resp, ModbusTCP.processRequest treq slaves = (Some resp, slaves)
           ∧ Buffer.readUInt16BE resp 0 = Some tid
           ∧ Buffer.readUInt8 resp 7 = Some (JS.or 3 0x80)
           ∧ Buffer.readUInt8 resp 8 = Some 0x03)
  ∧ (if q' <=? 127
     then ∃ resp, ModbusRTU.processRequest rreq slaves = (Some resp, slaves)
                  ∧ Buffer.len resp = 3 + 2 * q' + 2
                  ∧ read_response resp 3 dev a' q'
     else ModbusRTU.processRequest rreq slaves = (None, slaves)).
Proof.
  intros Hdev Hok Ht Hq Hr Hq'. split.
  - destruct Ht as (Hframe & Ha & Hqq).
    exists (tcp_exception tid id 3 0x03). split.
    + by eapply tcp_read_bad_quantity.
    + destruct (tcp_exception_fields tid id 3 0x03) as (? & ? & ? & ? & ?).
      done.
  - pose proof Hr as ((Hwf & _) & _ & Ha & Hqq).
    pose proof (readUInt16BE_range _ _ _ Hwf Ha).
    pose proof (readUInt16BE_range _ _ _ Hwf Hqq).
    destruct (Z.leb_spec q' 127).
    + eexists. split; [by eapply rtu_read_ok|].
      apply rtu_read_response; (done || lia).
    + by eapply rtu_read_too_many.
Qed.

Lemma read_quantity_limit_witness :
  (∃ resp, ModbusTCP.processRequest Ex.tcp_read_126 Ex.store = (Some resp, Ex.store)
           ∧ Buffer.readUInt16BE resp 0 = Some 7
           ∧ Buffer.readUInt8 resp 7 = Some (JS.or 3 0x80)
           ∧ Buffer.readUInt8 resp 8 = Some 0x03)
  ∧ (if 126 <=? 127
     then ∃ resp, ModbusRTU.processRequest Ex.rtu_read_126 Ex.store
                  = (Some resp, Ex.store)
                  ∧ Buffer.len resp = 3 + 2 * 126 + 2
                  ∧ read_response resp 3 Ex.dev 0 126
     else ModbusRTU.processRequest Ex.rtu_read_126 Ex.store = (None, Ex.store)).
Proof.
  apply (read_quantity_limit Ex.store 1 Ex.dev
           Ex.tcp_read_126 7 0 126 Ex.rtu_read_126 0 126).
  - exact ex_store_lookup.
  - exact ex_dev_ok.
  - concrete_tcp_frame.
  - right. lia.
  - concrete_rtu_frame.
  - right. lia.
Defined.

(** C6 (as the code has it): the checks of a 0x10 request.  On the TCP
    path a byte count other than twice the quantity, or a frame shorter
    than the byte count announces, is answered with exception 0x03 and
    nothing is written; a frame at least that long is accepted, whatever
    follows the announced data.  On the RTU path a byte count other than
    twice the quantity, or a length other than exactly the announced one,
    gets no response at all, and whatever the request, a response of the
    RTU path with bit 0x80 in its function code carries code 0x01:
    exception 0x03 arises on the TCP path only. *)
Theorem write_multiple_checks
    (slaves : Slaves) (id : Z) (dev : SlaveDevice)
    (treq : Buffer.t) (tid a q bc : Z) (rreq : Buffer.t) (a' q' bc' : Z) :
  slaves !! id = Some dev →
  tcp_write_request treq tid id a q bc →
  rtu_frame rreq id 16 →
  Buffer.readUInt16BE rreq 2 = Some a' →
  Buffer.readUInt16BE rreq 4 = Some q' →
  Buffer.readUInt8 rreq 6 = Some bc' →
  (bc ≠ q * 2 ∨ Buffer.len treq < 13 + bc →
   ∃ resp, ModbusTCP.processRequest treq slaves = (Some resp, slaves)
           ∧ Buffer.readUInt16BE resp 0 = Some tid
           ∧ Buffer.readUInt8 resp 7 = Some (JS.or 16 0x80)
           ∧ Buffer.readUInt8 resp 8 = Some 0x03)
  ∧ (bc = q * 2 → 13 + bc <= Buffer.len treq →
     (ModbusTCP.processRequest treq slaves).1
     = Some (mbap tid id (write_multiple_pdu a q)))
  ∧ (bc' ≠ q' * 2 ∨ Buffer.len rreq ≠ 7 + bc' + 2 →
     ModbusRTU.processRequest rreq slaves = (None, slaves))
  ∧ (∀ (req : Buffer.t) (s s' : Slaves) (resp : Buffer.t) f,
       ModbusRTU.processRequest req s = (Some resp, s') →
       resp !! 1%nat = Some f → Z.land f 0x80 ≠ 0 →
       resp !! 2%nat = Some 1).
Proof.
  intros Hdev ((Hframe & Ha & Hq) & Hbc) Hr Ha' Hq' Hbc'.
  pose proof (tcp_write_multiple slaves treq tid id 16 Hframe dev Hdev a q bc
                eq_refl Ha Hq Hbc) as Htcp.
  split; [|split; [|split]].
  - intros Hbad. exists (tcp_exception tid id 16 0x03). split.
    + rewrite Htcp.
      assert (negb (bc =? q * 2) || (Buffer.len treq - 7 <? 6 + bc) = true) as ->;
        [|done].
      destruct Hbad as [Hb|Hb].
      * by rewrite (proj2 (Z.eqb_neq _ _) Hb).
      * rewrite (proj2 (Z.ltb_lt (Buffer.len treq - 7) (6 + bc))) by lia.
        by rewrite orb_true_r.
    + destruct (tcp_exception_fields tid id 16 0x03) as (? & ? & ? & ? & ?).
      done.
  - intros -> Hlen. rewrite Htcp. by decide_cmps.
  - intros Hbad. by eapply rtu_write_multiple_mismatch.
  - intros req s s' resp f. apply rtu_exception_code.
Qed.

Lemma write_multiple_checks_witness :
  (∃ resp, ModbusTCP.processRequest Ex.tcp_write_bad_count Ex.store
           = (Some resp, Ex.store)
           ∧ Buffer.readUInt16BE resp 0 = Some 1
           ∧ Buffer.readUInt8 resp 7 = Some (JS.or 16 0x80)
           ∧ Buffer.readUInt8 resp 8 = Some 0x03)
  ∧ ModbusRTU.processRequest Ex.rtu_write_bad_count Ex.store = (None, Ex.store).
Proof.
  destruct (write_multiple_checks Ex.store 1 Ex.dev
              Ex.tcp_write_bad_count 1 0 1 3 Ex.rtu_write_bad_count 0 1 3)
    as (Htcp & _ & Hrtu & _).
  - exact ex_store_lookup.
  - concrete_tcp_frame.
  - concrete_rtu_frame.
  - reflexivity.
  - reflexivity.
  - reflexivity.
  - split; [apply Htcp|apply Hrtu]; left; lia.
Defined.

(** C6 as stated fails on the TCP path: a 0x10 frame with a byte more than
    its byte count announces is not refused but executed. *)
Lemma write_multiple_surplus_accepted :
  tcp_write_request Ex.tcp_write_surplus 1 1 0 1 2
  ∧ Buffer.len Ex.tcp_write_surplus = 16
  ∧ (ModbusTCP.processRequest Ex.tcp_write_surplus Ex.store).1
    = Some [0; 1; 0; 0; 0; 6; 1; 16; 0; 0; 0; 1]
  ∧ reg_at Ex.store 1 0 = Some (JS.Number 0)
  ∧ reg_at (ModbusTCP.processRequest Ex.tcp_write_surplus Ex.store).2 1 0
    = Some (JS.Number 42).
Proof.
  split; [concrete_tcp_frame|].
  split; [reflexivity|]. split; [vm_compute; reflexivity|].
  split; vm_compute; reflexivity.
Qed.

(** C7: a write that targets register 500 or above is dropped without an
    error.  The guarded assignment itself returns normally and leaves the
    store as it is; a 0x06 request on the RTU path for such a register is
    answered normally and changes no register of any slave; and a 0x10
    request on the TCP path is answered normally and can only change the
    registers [startAddr .. startAddr + quantity - 1] below 500 of the
    addressed slave, none at all when it starts at 500 or above. *)
Theorem out_of_range_write_dropped
    (slaves : Slaves) (id : Z) (dev : SlaveDevice)
    (rreq : Buffer.t) (addr value : Z) (treq : Buffer.t) (tid a q : Z) :
  slaves !! id = Some dev →
  rtu_request rreq id 6 addr value → 500 <= addr →
  tcp_write_request treq tid id a q (q * 2) → 13 + q * 2 <= Buffer.len treq →
  (∀ (s : Slaves) id' addr' v, 500 <= addr' →
     (if addr' <? 500 then writeRegister id' addr' (JS.Number v) else mret ()) s
     = (Some (), s))
  ∧ ModbusRTU.processRequest rreq slaves = (Some rreq, slaves)
  ∧ ∃ slaves',
      ModbusTCP.processRequest treq slaves
      = (Some (mbap tid id (write_multiple_pdu a q)), slaves')
      ∧ (∀ id' k, id' ≠ id ∨ k < a ∨ a + q <= k ∨ 500 <= k →
           reg_at slaves' id' k = reg_at slaves id' k)
      ∧ (500 <= a → slaves' = slaves).
Proof.
  intros Hdev Hr Haddr ((Hframe & Ha & Hq) & Hbc) Hlen. split; [|split].
  - intros s id' addr' v Ha'. by apply guarded_write_dropped.
  - rewrite (rtu_write_single slaves id dev Hdev rreq addr value) by done.
    rewrite (rtu_echo rreq id 6 addr value) by done.
    by rewrite store_write_dropped.
  - pose proof Hframe as (Hwf & _).
    pose proof (readUInt16BE_range _ _ _ Hwf Hq) as Hqr.
    eexists. split; [|split].
    + rewrite (tcp_write_multiple slaves treq tid id 16 Hframe dev Hdev a q (q * 2))
        by done.
      by decide_cmps.
    + intros id' k Hfr. apply write_registers_frame. lia.
    + intros Ha500. apply write_registers_dropped. lia.
Qed.

Lemma out_of_range_write_dropped_witness :
  ModbusRTU.processRequest Ex.rtu_write_500 Ex.store
  = (Some Ex.rtu_write_500, Ex.store)
  ∧ ∃ slaves',
      ModbusTCP.processRequest Ex.tcp_write_multiple Ex.store
      = (Some (mbap 1 1 (write_multiple_pdu 499 2)), slaves')
      ∧ (∀ id' k, id' ≠ 1 ∨ k < 499 ∨ 499 + 2 <= k ∨ 500 <= k →
           reg_at slaves' id' k = reg_at Ex.store id' k)
      ∧ (500 <= 499 → slaves' = Ex.store).
Proof.
  apply (out_of_range_write_dropped Ex.store 1 Ex.dev
           Ex.rtu_write_500 500 42 Ex.tcp_write_multiple 1 499 2).
  - exact ex_store_lookup.
  - concrete_rtu_frame.
  - lia.
  - concrete_tcp_frame.
  - vm_compute. discriminate.
Defined.

(** C8 (as the code has it): the invariant of the store.  From start-up
    on, after every frame either codec receives, every form posted to the
    slave route, every clear and every reload of the data file, each
    configured slave has exactly 500 registers and every one holds a
    16-bit number, provided the data files read at start-up and at a
    reload hold such arrays themselves: [loadSlaves] installs what the
    file has without a check. *)
Theorem store_invariant (file : Storage.DataFile) (ops : list operation) :
  file_ok file → Forall operation_ok ops →
  store_ok (foldl (λ s op, apply_operation op s) (Server.startServer file) ops).
Proof.
  intros Hfile Hops.
  pose proof (startServer_ok file Hfile) as Hs.
  revert Hs. generalize (Server.startServer file).
  induction Hops as [|op ops Hop _ IH]; intros s Hs; [done|].
  cbn [foldl]. by apply IH, apply_operation_ok.
Qed.

Lemma store_invariant_witness :
  store_ok
    (foldl (λ s op, apply_operation op s) (Server.startServer None)
       [TcpFrame Ex.tcp_write_500; RtuFrame Ex.rtu_write_500;
        FormPost 1 (Some 2) (λ i, if i =? 0 then Some 70000 else None);
        Clear 2; ClearAll; Reload None]).
Proof.
  apply (store_invariant None).
  - intros saved [=].
  - apply Forall_cons_2; [concrete_bytes|].
    apply Forall_cons_2; [concrete_bytes|].
    do 3 (apply Forall_cons_2; [exact I|]).
    apply Forall_cons_2; [intros saved [=]|apply Forall_nil_2].
Defined.

(** C8 as stated fails for a reload: what the data file holds is installed
    as it is, here a one-entry array with a value above 16 bits. *)
Lemma reload_breaks_invariant :
  store_ok (Server.startServer None)
  ∧ registers <$> apply_operation (Reload Ex.bad_file) (Server.startServer None) !! 1
    = Some [JS.Number 70000]
  ∧ ¬ store_ok (apply_operation (Reload Ex.bad_file) (Server.startServer None)).
Proof.
  split; [apply startServer_ok; intros saved [=]|].
  assert (Hl : apply_operation (Reload Ex.bad_file) (Server.startServer None) !! 1
               = Some {| registers := [JS.Number 70000] |})
    by (vm_compute; reflexivity).
  split; [by rewrite Hl|].
  intros Hok. destruct (Hok _ _ Hl) as [Hlen _]. discriminate Hlen.
Qed.

(** C9: the silence timer of the RTU framer.  When it fires, the buffer is
    empty afterwards in every case; a buffer shorter than 8 bytes never
    reaches the codec (the store is untouched and nothing is written);
    a buffer of 8 bytes or more is handed to [processRequest] as one
    frame, whose response is written when the port is open.  In any run
    from the initial state the buffer is empty after each firing. *)
Theorem framer_timeout (st : Framer.state) (slaves : Slaves) :
  Framer.buffer (Framer.on_timeout st slaves).1.1 = []
  ∧ (Buffer.len (Framer.buffer st) < 8 →
     (Framer.on_timeout st slaves).1.2 = slaves
     ∧ (Framer.on_timeout st slaves).2 = None)
  ∧ (8 <= Buffer.len (Framer.buffer st) →
     (Framer.on_timeout st slaves).1.2
     = (ModbusRTU.processRequest (Framer.buffer st) slaves).2
     ∧ (Framer.on_timeout st slaves).2
       = if Framer.portOpen st
         then (ModbusRTU.processRequest (Framer.buffer st) slaves).1
         else None)
  ∧ (∀ evs open,
       Framer.buffer
         (Framer.run (evs ++ [Framer.Silence]) (Framer.constructor open) slaves).1.1
       = []).
Proof.
  split; [apply on_timeout_buffer|]. split; [|split].
  - intros Hlen. by rewrite on_timeout_short.
  - intros Hlen. by rewrite on_timeout_frame.
  - intros evs open. rewrite run_app.
    pose proof (run_idle_empty evs (Framer.constructor open) slaves) as Hidle.
    destruct (Framer.run evs _ _) as [[st1 s1] out1].
    cbn [Framer.run Framer.step].
    specialize (Hidle ltac:(done)). cbn [fst] in Hidle.
    destruct (Framer.timerPending st1) eqn:Hp.
    + pose proof (on_timeout_buffer st1 s1) as Hb.
      by destruct (Framer.on_timeout st1 s1) as [[st2 s2] out2].
    + by apply Hidle.
Qed.

Lemma framer_timeout_witness :
  let st := {| Framer.buffer := Ex.rtu_read; Framer.timerPending := true;
               Framer.portOpen := true |} in
  (Framer.on_timeout st Ex.store).1.2
  = (ModbusRTU.processRequest Ex.rtu_read Ex.store).2
  ∧ (Framer.on_timeout st Ex.store).2
    = (ModbusRTU.processRequest Ex.rtu_read Ex.store).1.
Proof.
  intros st.
  destruct (framer_timeout st Ex.store) as (_ & _ & Hframe & _).
  apply Hframe. vm_compute. discriminate.
Defined.

(** C10: on the RTU path a 0x03 request with a valid CRC and a quantity
    above 127 gets no response: the byte count [quantity * 2] exceeds 255,
    the write of the byte count throws, and the [catch] returns [null].
    The store is left as it was. *)
Theorem rtu_read_above_127
    (slaves : Slaves) (id : Z) (dev : SlaveDevice)
    (req : Buffer.t) (a q : Z) :
  slaves !! id = Some dev →
  rtu_request req id 3 a q → 127 < q →
  255 < q * 2
  ∧ (∀ buf, Buffer.writeUInt8 buf (q * 2) 2 = None)
  ∧ ModbusRTU.processRequest req slaves = (None, slaves).
Proof.
  intros Hdev Hr Hq. split; [lia|]. split.
  - intros buf. unfold Buffer.writeUInt8. by decide_cmps.
  - by eapply rtu_read_too_many.
Qed.

Lemma rtu_read_above_127_witness :
  255 < 128 * 2
  ∧ (∀ buf, Buffer.writeUInt8 buf (128 * 2) 2 = None)
  ∧ ModbusRTU.processRequest Ex.rtu_read_128 Ex.store = (None, Ex.store).
Proof.
  apply (rtu_read_above_127 Ex.store 1 Ex.dev Ex.rtu_read_128 0 128).
  - exact ex_store_lookup.
  - concrete_rtu_frame.
  - lia.
Defined.

(** * Further properties of the code *)

(** ** Error detection of the CRC16 engine *)

Section CRCDetection.

Lemma div2_u16 c : 0 <= c < 65536 → 0 <= c / 2 < 32768.
Proof.
  intros Hc. split; [apply Z.div_pos; lia|apply Z.div_lt_upper_bound; lia].
Qed.

Lemma lxor_cancel_r a b k : Z.lxor a k = Z.lxor b k → a = b.
Proof.
  intros H. apply (f_equal (λ x, Z.lxor x k)) in H.
  by rewrite !Z.lxor_assoc, !Z.lxor_nilpotent, !Z.lxor_0_r in H.
Qed.

Lemma lxor_cancel_l a b k : Z.lxor k a = Z.lxor k b → a = b.
Proof. rewrite !(Z.lxor_comm k). apply lxor_cancel_r. Qed.

(** The polynomial has bit 15: a shifted register XOR-ed with it is at
    least 0x8000. *)
Lemma lxor_poly_high x : 0 <= x < 32768 → 32768 <= Z.lxor x 0xa001.
Proof.
  intros Hx.
  assert (Hbit : Z.testbit (Z.lxor x 0xa001) 15 = true).
  { rewrite Z.lxor_spec.
    replace (Z.testbit x 15) with false; [reflexivity|].
    symmetry. apply Z.testbit_false; [lia|].
    change (2 ^ 15) with 32768. by rewrite Z.div_small. }
  apply Z.testbit_true in Hbit; [|lia]. change (2 ^ 15) with 32768 in Hbit.
  destruct (Z.lt_ge_cases (Z.lxor x 40961) 32768) as [Hlt|]; [|done].
  assert (0 <= Z.lxor x 40961) by (apply Z.lxor_nonneg; lia).
  rewrite Z.div_small in Hbit by lia. done.
Qed.

Lemma shift_once_cases c :
  0 <= c < 65536 →
  (c mod 2 = 1 ∧ CRC.shift_once c = Z.lxor (c / 2) 0xa001)
  ∨ (c mod 2 = 0 ∧ CRC.shift_once c = c / 2).
Proof.
  intros Hc. pose proof (div2_u16 c Hc). unfold CRC.shift_once.
  assert (Hand : JS.and c 1 = c mod 2) by (apply (and_low c 1); lia).
  assert (Hshr : JS.shr c 1 = c / 2) by (rewrite shr_small; [done|lia|lia]).
  rewrite Hand, Hshr.
  pose proof (Z.mod_pos_bound c 2 ltac:(lia)).
  destruct (Z.eqb_spec (c mod 2) 0); cbn [negb].
  - by right.
  - left. split; [lia|]. unfold JS.xor. by rewrite !ToInt32_small by lia.
Qed.

(** One round of the shift register loses nothing. *)
Lemma shift_once_inj c1 c2 :
  0 <= c1 < 65536 → 0 <= c2 < 65536 →
  CRC.shift_once c1 = CRC.shift_once c2 → c1 = c2.
Proof.
  intros H1 H2 Heq.
  pose proof (div2_u16 c1 H1). pose proof (div2_u16 c2 H2).
  pose proof (Z.div_mod c1 2 ltac:(lia)). pose proof (Z.div_mod c2 2 ltac:(lia)).
  destruct (shift_once_cases c1 H1) as [[Hp1 E1]|[Hp1 E1]],
           (shift_once_cases c2 H2) as [[Hp2 E2]|[Hp2 E2]];
    rewrite E1, E2 in Heq.
  - apply lxor_cancel_r in Heq. lia.
  - pose proof (lxor_poly_high (c1 / 2)). lia.
  - pose proof (lxor_poly_high (c2 / 2)). lia.
  - lia.
Qed.

Lemma shift_loop_inj n : ∀ c1 c2,
  0 <= c1 < 65536 → 0 <= c2 < 65536 →
  CRC.shift_loop n c1 = CRC.shift_loop n c2 → c1 = c2.
Proof.
  induction n as [|n IH]; intros c1 c2 H1 H2; cbn [CRC.shift_loop]; [done|].
  intros Heq%IH; [|by apply shift_once_u16..].
  by apply shift_once_inj.
Qed.

Lemma update_inj_crc c1 c2 b :
  0 <= c1 < 65536 → 0 <= c2 < 65536 → Buffer.is_byte b →
  CRC.update c1 b = CRC.update c2 b → c1 = c2.
Proof.
  intros H1 H2 Hb. unfold CRC.update, Buffer.is_byte in *.
  intros Heq%shift_loop_inj; [|apply xor_u16; lia..].
  unfold JS.xor in Heq. rewrite !ToInt32_small in Heq by lia.
  by apply lxor_cancel_r in Heq.
Qed.

Lemma update_inj_byte c b1 b2 :
  0 <= c < 65536 → Buffer.is_byte b1 → Buffer.is_byte b2 →
  CRC.update c b1 = CRC.update c b2 → b1 = b2.
Proof.
  intros Hc Hb1 Hb2. unfold CRC.update, Buffer.is_byte in *.
  intros Heq%shift_loop_inj; [|apply xor_u16; lia..].
  unfold JS.xor in Heq. rewrite !ToInt32_small in Heq by lia.
  by apply lxor_cancel_l in Heq.
Qed.

Lemma fold_update_inj (buf : Buffer.t) : ∀ c1 c2,
  Buffer.wf buf → 0 <= c1 < 65536 → 0 <= c2 < 65536 →
  fold_left CRC.update buf c1 = fold_left CRC.update buf c2 → c1 = c2.
Proof.
  induction buf as [|b buf IH]; intros c1 c2 Hwf H1 H2; [done|].
  rewrite !fold_left_step. inversion Hwf as [|? ? Hb Hwf']; subst.
  intros Heq%IH; [|done|by apply update_u16..].
  by apply update_inj_crc in Heq.
Qed.

Lemma calculateCRC_byte_change (pre post : Buffer.t) x y :
  Buffer.wf (pre ++ x :: post) → Buffer.is_byte y → x ≠ y →
  CRC.calculateCRC (pre ++ x :: post) ≠ CRC.calculateCRC (pre ++ y :: post).
Proof.
  intros Hwf Hy Hne. unfold CRC.calculateCRC.
  apply Forall_app in Hwf as [Hpre Hrest].
  inversion Hrest as [|? ? Hx Hpost]; subst.
  rewrite !fold_left_app, !fold_left_step.
  pose proof (fold_update_u16 pre 65535 Hpre ltac:(lia)) as Hc.
  intros Heq%fold_update_inj; [|done|by apply update_u16..].
  by apply update_inj_byte in Heq.
Qed.

End CRCDetection.

Section CRCFrames.

Lemma verifyCRC_total (frame : Buffer.t) : is_Some (CRC.verifyCRC frame).
Proof.
  unfold CRC.verifyCRC.
  destruct (Z.ltb_spec (Buffer.len frame) 3); [by eexists|].
  destruct (readUInt16BE_is_Some frame (Buffer.len frame - 2)) as [v Hv];
    [lia|lia|].
  unfold Buffer.readUInt16LE. unfold Buffer.readUInt16BE in Hv.
  destruct (Buffer.get frame (Buffer.len frame - 2)); [|done].
  destruct (Buffer.get frame (Buffer.len frame - 2 + 1)); [|done].
  by eexists.
Qed.

Lemma verifyCRC_appended (b frame : Buffer.t) :
  Buffer.wf frame → b ≠ [] → CRC.appendCRC b = Some frame →
  CRC.verifyCRC frame = Some true.
Proof.
  intros Hwf Hne Happ.
  destruct (appendCRC_inv b frame Happ) as [crc ->].
  apply Forall_app in Hwf as [Hb _].
  rewrite appendCRC_eq in Happ by done. injection Happ as <-.
  unfold crc_bytes. rewrite verifyCRC_app by done.
  f_equal. apply Z.eqb_eq.
  pose proof (Z.div_mod (CRC.calculateCRC b) 256). lia.
Qed.

Lemma crc_bytes_value (b : Buffer.t) lo hi :
  Buffer.wf b → crc_bytes b = [lo; hi] →
  lo + hi * 2 ^ 8 = CRC.calculateCRC b ∧ 0 <= lo < 256 ∧ 0 <= hi < 256.
Proof.
  intros Hwf [= <- <-]. pose proof (calculateCRC_u16 b Hwf) as Hc.
  pose proof (Z.div_mod (CRC.calculateCRC b) 256 ltac:(lia)).
  pose proof (Z.mod_pos_bound (CRC.calculateCRC b) 256 ltac:(lia)).
  split; [lia|]. split; [done|].
  split; [apply Z.div_pos; lia|apply Z.div_lt_upper_bound; lia].
Qed.

End CRCFrames.

(** X1: the CRC detects every corruption of a single byte.  In a frame
    made by [appendCRC] from a non-empty buffer, replacing any one byte,
    of the data or of the CRC, by a different byte makes [verifyCRC]
    return false. *)
Theorem crc_detects_byte_corruption
    (b frame : Buffer.t) (i : nat) (x y : Z) :
  Buffer.wf b → b ≠ [] → CRC.appendCRC b = Some frame →
  frame !! i = Some x → Buffer.is_byte y → x ≠ y →
  CRC.verifyCRC (<[i := y]> frame) = Some false.
Proof.
  intros Hwf Hne Happ Hx Hy Hxy.
  rewrite appendCRC_eq in Happ by done. injection Happ as <-.
  destruct (crc_bytes b) as [|lo [|hi [|]]] eqn:Hcrc; try discriminate Hcrc.
  destruct (crc_bytes_value b lo hi Hwf Hcrc) as (Hval & Hlo & Hhi).
  destruct (Nat.lt_ge_cases i (length b)) as [Hi|Hi].
  - rewrite lookup_app_l in Hx by done.
    rewrite insert_app_l by done.
    rewrite insert_take_drop by done.
    rewrite verifyCRC_app by (by destruct (take i b)).
    f_equal. apply Z.eqb_neq. rewrite Hval.
    rewrite <- (take_drop_middle b i x Hx) at 1.
    apply calculateCRC_byte_change; [by rewrite take_drop_middle|done..].
  - rewrite lookup_app_r in Hx by done.
    rewrite insert_app_r_alt by done.
    unfold Buffer.is_byte in Hy.
    destruct (i - length b)%nat as [|[|k]]; cbn in Hx |- *.
    + injection Hx as ->. rewrite verifyCRC_app by done.
      f_equal. apply Z.eqb_neq. lia.
    + injection Hx as ->. rewrite verifyCRC_app by done.
      f_equal. apply Z.eqb_neq. lia.
    + by destruct k.
Qed.

Lemma crc_detects_byte_corruption_witness :
  CRC.verifyCRC (<[3%nat := 242]> [1; 3; 1; 243; 0; 3; 244; 4]) = Some false.
Proof.
  apply (crc_detects_byte_corruption [1; 3; 1; 243; 0; 3] _ 3 243 242).
  - concrete_bytes.
  - discriminate.
  - reflexivity.
  - reflexivity.
  - unfold Buffer.is_byte. lia.
  - lia.
Defined.

(** X2: [verifyCRC] never throws, and on a buffer of bytes it returns true
    exactly for the frames [appendCRC] makes from a non-empty buffer. *)
Theorem verifyCRC_accepts_appended (frame : Buffer.t) :
  Buffer.wf frame →
  is_Some (CRC.verifyCRC frame)
  ∧ (CRC.verifyCRC frame = Some true
     ↔ ∃ b, b ≠ [] ∧ CRC.appendCRC b = Some frame).
Proof.
  intros Hwf. split; [apply verifyCRC_total|]. split.
  - intros Hcrc.
    destruct (verifyCRC_true_inv frame Hwf Hcrc) as [Hlen Heq].
    exists (take (length frame - 2) frame).
    assert (Hb : Buffer.wf (take (length frame - 2) frame)) by (by apply Forall_take).
    split.
    + intros Hnil. apply (f_equal length) in Hnil.
      rewrite length_take in Hnil. unfold Buffer.len in Hlen. simpl in Hnil. lia.
    + rewrite appendCRC_eq by done. by rewrite <- Heq.
  - intros (b & Hne & Happ). by eapply verifyCRC_appended.
Qed.

Lemma verifyCRC_accepts_appended_witness :
  is_Some (CRC.verifyCRC Ex.rtu_read)
  ∧ (CRC.verifyCRC Ex.rtu_read = Some true
     ↔ ∃ b, b ≠ [] ∧ CRC.appendCRC b = Some Ex.rtu_read).
Proof. apply (verifyCRC_accepts_appended Ex.rtu_read). concrete_bytes. Defined.

(** ** What the codec returns

    [post m Q]: the value [m] returns, when it returns, satisfies [Q]. *)

Section Post.







End Post.

Section BufferWrites.






Lemma get_1 (buf : Buffer.t) : Buffer.get buf 1 = buf !! 1%nat.
Proof. apply (get_nat buf 1). Qed.

Lemma from3 a b c :
  Buffer.is_byte a → Buffer.is_byte b → Buffer.is_byte c →
  Buffer.from [a; b; c] = [a; b; c].
Proof.
  unfold Buffer.is_byte. intros Ha Hb Hc. unfold Buffer.from.
  cbn [fmap list_fmap]. change 255 with 0xff.
  rewrite !and_0xff by lia. by rewrite !Z.mod_small by lia.
Qed.

Lemma createExceptionResponse_eq slaveId fc code :
  Buffer.is_byte slaveId → Buffer.is_byte fc → Buffer.is_byte code →
  ModbusRTU.createExceptionResponse slaveId fc code
  = Some ([slaveId; JS.or fc 0x80; code] ++ crc_bytes [slaveId; JS.or fc 0x80; code]).
Proof.
  intros Hid Hfc Hcode. unfold ModbusRTU.createExceptionResponse.
  assert (Hor : Buffer.is_byte (JS.or fc 0x80)) by (by apply or_0x80_byte).
  rewrite from3 by done. apply appendCRC_eq.
  by repeat (apply Forall_cons_2 || apply Forall_nil_2).
Qed.

End BufferWrites.

(** ** The responses of the RTU codec *)

Section RTUResponses.




Lemma crc_bytes_wf (b : Buffer.t) : Buffer.wf b → Buffer.wf (crc_bytes b).
Proof.
  intros Hwf. destruct (crc_bytes b) as [|lo [|hi [|]]] eqn:Hcrc;
    try discriminate Hcrc.
  destruct (crc_bytes_value b lo hi Hwf Hcrc) as (_ & Hlo & Hhi).
  by repeat (apply Forall_cons_2 || apply Forall_nil_2).
Qed.

End RTUResponses.



(** ** The responses of the TCP codec *)

Section TCPResponses.










End TCPResponses.



(** ** Frames the codec refuses *)

Section Refused.

Context (slaves : Slaves) (id : Z) (dev : SlaveDevice).
Hypothesis Hdev : slaves !! id = Some dev.

Lemma tcp_unsupported (req : Buffer.t) tid fc :
  tcp_frame req tid id fc → fc ≠ 3 → fc ≠ 6 → fc ≠ 16 →
  ModbusTCP.processRequest req slaves
  = (Some (tcp_exception tid id fc 0x01), slaves).
Proof.
  intros Hframe Hfc3 Hfc6 Hfc16.
  destruct (tcp_frame_ranges req tid id fc Hframe) as (Htidr & Hur & Hfcr).
  destruct Hframe as (Hwf & Hlen & Htid & Hpid & (len & Hl & Hlen') & Hu & Hfc).
  unfold ModbusTCP.processRequest, try_catch, ModbusTCP.processRequest_body.
  rewrite Htid, Hpid, Hl, Hu, Hfc.
  run_M. rewrite Hdev. run_M.
  fold (ModbusTCP.exception tid 0 id fc 1 slaves).
  by rewrite tcp_exception_eq.
Qed.

Lemma rtu_unsupported (req : Buffer.t) fc :
  rtu_frame req id fc → 4 <= Buffer.len req → fc ≠ 3 → fc ≠ 6 → fc ≠ 16 →
  ModbusRTU.processRequest req slaves
  = (Some ([id; JS.or fc 0x80; 1] ++ crc_bytes [id; JS.or fc 0x80; 1]), slaves).
Proof.
  intros (Hwf & Hcrc & Hid & Hfc) Hlen Hfc3 Hfc6 Hfc16.
  pose proof (readUInt8_range _ _ _ Hwf Hid) as Hidr.
  pose proof (readUInt8_range _ _ _ Hwf Hfc) as Hfcr.
  unfold ModbusRTU.processRequest, try_catch, ModbusRTU.processRequest_body.
  rewrite Hcrc, Hid, Hfc.
  run_M. rewrite Hdev. run_M.
  rewrite createExceptionResponse_eq; [done|done|done|].
  unfold Buffer.is_byte. lia.
Qed.

Lemma tcp_short_pdu (req : Buffer.t) tid fc :
  tcp_frame req tid id fc →
  (fc = 3 ∨ fc = 6) ∧ Buffer.len req < 12 ∨ fc = 16 ∧ Buffer.len req < 13 →
  ModbusTCP.processRequest req slaves
  = (Some (tcp_exception tid id fc 0x03), slaves).
Proof.
  intros Hframe Hshort.
  destruct (tcp_frame_ranges req tid id fc Hframe) as (Htidr & Hur & Hfcr).
  pose proof (pdu_len req tid id fc Hframe) as Hpl.
  destruct Hframe as (Hwf & Hlen & Htid & Hpid & (len & Hl & Hlen') & Hu & Hfc).
  unfold ModbusTCP.processRequest, try_catch, ModbusTCP.processRequest_body.
  rewrite Htid, Hpid, Hl, Hu, Hfc.
  run_M. rewrite Hdev. run_M.
  rewrite slice_from_drop by lia. change (Z.to_nat 7) with 7%nat.
  rewrite Hpl.
  destruct Hshort as [[[->| ->] Hs]|[-> Hs]]; run_M;
    by rewrite tcp_exception_eq.
Qed.

Lemma rtu_wrong_length (req : Buffer.t) fc :
  rtu_frame req id fc →
  (fc = 3 ∨ fc = 6) ∧ Buffer.len req ≠ 8 ∨ fc = 16 ∧ Buffer.len req < 9 →
  ModbusRTU.processRequest req slaves = (None, slaves).
Proof.
  intros (Hwf & Hcrc & Hid & Hfc) Hshort.
  unfold ModbusRTU.processRequest, try_catch, ModbusRTU.processRequest_body.
  rewrite Hcrc, Hid, Hfc.
  destruct (Buffer.len req <? 4); [done|].
  run_M. rewrite Hdev. run_M.
  by destruct Hshort as [[[->| ->] Hs]|[-> Hs]]; run_M.
Qed.

End Refused.

Section ReadOnly.

Context (s : Slaves).

Lemma rtu_read_only (req : Buffer.t) :
  (∀ fc, Buffer.readUInt8 req 1 = Some fc → fc ≠ 6 ∧ fc ≠ 16) →
  preserves (λ s', s' = s) (ModbusRTU.processRequest_body req).
Proof.
  intros Hfc. unfold ModbusRTU.processRequest_body.
  destruct (_ <? 4); [apply preserves_ret|].
  apply preserves_bind_lift. intros crcOk _.
  destruct (negb crcOk); [apply preserves_ret|].
  apply preserves_bind_lift. intros slaveId _.
  apply preserves_bind_lift. intros fc [Hfc6 Hfc16]%Hfc.
  apply preserves_bind; [apply preserves_get|]. intros slaves.
  destruct (negb _); [apply preserves_ret|].
  destruct (fc =? 3).
  - destruct (negb _); [apply preserves_ret|].
    do 6 (apply preserves_bind_lift; intros ? _).
    apply preserves_bind; [apply rtu_read_loop_preserves|].
    intros b. apply rtu_finish_preserves.
  - rewrite (proj2 (Z.eqb_neq fc 6)), (proj2 (Z.eqb_neq fc 16)) by done.
    apply preserves_bind_lift. intros r _. apply preserves_ret.
Qed.

Lemma tcp_read_only (req : Buffer.t) :
  (∀ fc, Buffer.readUInt8 req 7 = Some fc → fc ≠ 6 ∧ fc ≠ 16) →
  preserves (λ s', s' = s) (ModbusTCP.processRequest_body req).
Proof.
  intros Hfc. unfold ModbusTCP.processRequest_body.
  destruct (_ <? 8); [apply preserves_ret|].
  do 4 (apply preserves_bind_lift; intros ? _).
  apply preserves_bind_lift. intros fc [Hfc6 Hfc16]%Hfc.
  destruct (negb _); [apply preserves_ret|].
  destruct (_ <? _); [apply preserves_ret|].
  apply preserves_bind; [apply preserves_get|]. intros slaves.
  destruct (negb _); [apply tcp_exception_preserves|].
  destruct (fc =? 3).
  - destruct (_ <? 5); [apply tcp_exception_preserves|].
    do 2 (apply preserves_bind_lift; intros ? _).
    destruct (_ || _); [apply tcp_exception_preserves|].
    do 3 (apply preserves_bind_lift; intros ? _).
    apply preserves_bind; [apply tcp_read_loop_preserves|].
    intros b. apply tcp_finish_preserves.
  - rewrite (proj2 (Z.eqb_neq fc 6)), (proj2 (Z.eqb_neq fc 16)) by done.
    apply tcp_exception_preserves.
Qed.

End ReadOnly.

(** X5: a TCP frame with a broken MBAP header is ignored.  A frame shorter
    than 8 bytes, one with a protocol id other than 0, and one shorter than
    its length field announces get no response, not even an exception, and
    leave the store as it is. *)
Theorem tcp_malformed_frame_ignored (req : Buffer.t) (s : Slaves) :
  Buffer.len req < 8
  ∨ (∃ pid, Buffer.readUInt16BE req 2 = Some pid ∧ pid ≠ 0)
  ∨ (∃ len, Buffer.readUInt16BE req 4 = Some len ∧ Buffer.len req < 6 + len) →
  ModbusTCP.processRequest req s = (None, s).
Proof.
  intros Hbad.
  unfold ModbusTCP.processRequest, try_catch, ModbusTCP.processRequest_body.
  destruct (Z.ltb_spec (Buffer.len req) 8); [done|].
  destruct (Buffer.readUInt16BE req 0) as [tid|]; [|done].
  destruct (Buffer.readUInt16BE req 2) as [pid|] eqn:Hpid; [|done].
  destruct (Buffer.readUInt16BE req 4) as [len|] eqn:Hl; [|done].
  destruct (Buffer.readUInt8 req 6) as [unitId|]; [|done].
  destruct (Buffer.readUInt8 req 7) as [fc|]; [|done].
  unfold mbind, M_bind, lift, mret, M_ret.
  destruct (Z.eqb_spec pid 0) as [->|]; cbn [negb]; [|done].
  destruct (Z.ltb_spec (Buffer.len req) (6 + len)); [done|].
  exfalso. destruct Hbad as [?|[(p & [= <-] & ?)|(l & [= <-] & ?)]]; lia.
Qed.

Lemma tcp_malformed_frame_ignored_witness :
  ModbusTCP.processRequest [0; 7; 0; 1; 0; 6; 1; 3; 0; 0; 0; 1] Ex.store
  = (None, Ex.store).
Proof.
  apply (tcp_malformed_frame_ignored [0; 7; 0; 1; 0; 6; 1; 3; 0; 0; 0; 1] Ex.store).
  right. left. exists 1. split; [reflexivity|lia].
Defined.

(** X6: a function code other than 0x03, 0x06 and 0x10, sent to a
    configured slave, is answered on both transports with exception code
    0x01 under the function code with bit 0x80 set (on RTU with a valid
    CRC behind it), and the store is left as it is. *)
Theorem unsupported_function_code
    (slaves : Slaves) (id : Z) (dev : SlaveDevice)
    (treq : Buffer.t) (tid : Z) (rreq : Buffer.t) (fc : Z) :
  slaves !! id = Some dev → fc ≠ 3 → fc ≠ 6 → fc ≠ 16 →
  tcp_frame treq tid id fc →
  rtu_frame rreq id fc → 4 <= Buffer.len rreq →
  ModbusTCP.processRequest treq slaves
  = (Some (tcp_exception tid id fc 0x01), slaves)
  ∧ ModbusRTU.processRequest rreq slaves
    = (Some ([id; JS.or fc 0x80; 1] ++ crc_bytes [id; JS.or fc 0x80; 1]), slaves).
Proof.
  intros Hdev Hfc3 Hfc6 Hfc16 Ht Hr Hlen. split.
  - by eapply tcp_unsupported.
  - by eapply rtu_unsupported.
Qed.

Lemma unsupported_function_code_witness :
  ModbusTCP.processRequest [0; 7; 0; 0; 0; 6; 1; 4; 0; 0; 0; 1] Ex.store
  = (Some (tcp_exception 7 1 4 0x01), Ex.store)
  ∧ ModbusRTU.processRequest [1; 4; 0; 0; 0; 1; 49; 202] Ex.store
    = (Some ([1; JS.or 4 0x80; 1] ++ crc_bytes [1; JS.or 4 0x80; 1]), Ex.store).
Proof.
  apply (unsupported_function_code Ex.store 1 Ex.dev).
  - exact ex_store_lookup.
  - lia.
  - lia.
  - lia.
  - concrete_tcp_frame.
  - concrete_rtu_frame.
  - concrete_len.
Defined.

(** X7: a request too short for its function code.  To a configured slave,
    a TCP frame of function code 0x03 or 0x06 with fewer than 12 bytes, or
    of 0x10 with fewer than 13, is answered with exception code 0x03; an
    RTU frame of 0x03 or 0x06 that is not exactly 8 bytes long, or of 0x10
    with fewer than 9, gets no response.  The store is left as it is. *)
Theorem request_length_errors
    (slaves : Slaves) (id : Z) (dev : SlaveDevice)
    (treq : Buffer.t) (tid tfc : Z) (rreq : Buffer.t) (rfc : Z) :
  slaves !! id = Some dev →
  tcp_frame treq tid id tfc →
  (tfc = 3 ∨ tfc = 6) ∧ Buffer.len treq < 12 ∨ tfc = 16 ∧ Buffer.len treq < 13 →
  rtu_frame rreq id rfc →
  (rfc = 3 ∨ rfc = 6) ∧ Buffer.len rreq ≠ 8 ∨ rfc = 16 ∧ Buffer.len rreq < 9 →
  ModbusTCP.processRequest treq slaves
  = (Some (tcp_exception tid id tfc 0x03), slaves)
  ∧ ModbusRTU.processRequest rreq slaves = (None, slaves).
Proof.
  intros Hdev Ht Hts Hr Hrs. split.
  - by eapply tcp_short_pdu.
  - by eapply rtu_wrong_length.
Qed.

Lemma request_length_errors_witness :
  ModbusTCP.processRequest [0; 7; 0; 0; 0; 4; 1; 3; 0; 0] Ex.store
  = (Some (tcp_exception 7 1 3 0x03), Ex.store)
  ∧ ModbusRTU.processRequest [1; 3; 0; 0; 0; 0; 2; 138; 50] Ex.store
    = (None, Ex.store).
Proof.
  apply (request_length_errors Ex.store 1 Ex.dev _ 7 3 _ 3).
  - exact ex_store_lookup.
  - concrete_tcp_frame.
  - left. split; [by left|concrete_len].
  - concrete_rtu_frame.
  - left. split; [by left|concrete_len].
Defined.

(** X8: only the two write functions change the store.  A frame whose
    function code is neither 0x06 nor 0x10 leaves the store exactly as it
    was, on both transports, whatever else the frame holds and whether it
    is answered, dropped or makes the codec throw. *)
Theorem only_writes_change_store (treq rreq : Buffer.t) (s : Slaves) :
  (∀ fc, Buffer.readUInt8 treq 7 = Some fc → fc ≠ 6 ∧ fc ≠ 16) →
  (∀ fc, Buffer.readUInt8 rreq 1 = Some fc → fc ≠ 6 ∧ fc ≠ 16) →
  (ModbusTCP.processRequest treq s).2 = s
  ∧ (ModbusRTU.processRequest rreq s).2 = s.
Proof.
  intros Ht Hr. split.
  - apply (preserves_try_catch (λ s', s' = s)); [by apply tcp_read_only|done].
  - apply (preserves_try_catch (λ s', s' = s)); [by apply rtu_read_only|done].
Qed.

Lemma only_writes_change_store_witness :
  (ModbusTCP.processRequest Ex.tcp_read Ex.store).2 = Ex.store
  ∧ (ModbusRTU.processRequest Ex.rtu_read Ex.store).2 = Ex.store.
Proof.
  apply (only_writes_change_store Ex.tcp_read Ex.rtu_read Ex.store).
  - intros fc [= <-]. lia.
  - intros fc [= <-]. lia.
Defined.

(** ** What the writes store *)

Section WrittenValues.

Lemma index_assign_eq (arr : list JS.value) i v :
  0 <= i → JS.index (JS.assign arr i v) i = v.
Proof.
  intros Hi. unfold JS.index, JS.assign.
  rewrite (proj2 (Z.ltb_ge i 0)) by lia.
  destruct (Nat.ltb_spec (Z.to_nat i) (length arr)) as [Hlt|Hge].
  - by rewrite list_lookup_insert_eq.
  - rewrite lookup_app_r by done.
    rewrite lookup_app_r by (by rewrite length_replicate).
    by rewrite length_replicate, Nat.sub_diag.
Qed.

Lemma store_write_at (s : Slaves) id addr v :
  is_Some (s !! id) → 0 <= addr < 500 →
  reg_at (store_write id addr v s) id addr = Some (JS.Number v).
Proof.
  intros [dev Hdev] Haddr. unfold store_write, writeRegister, reg_at.
  rewrite (proj2 (Z.ltb_lt addr 500)) by lia.
  rewrite Hdev. cbn [snd]. rewrite lookup_insert_eq. simpl.
  by rewrite index_assign_eq by lia.
Qed.

Lemma store_write_insert (s : Slaves) id dev addr v :
  s !! id = Some dev → addr < 500 →
  store_write id addr v s
  = <[id := {| registers := JS.assign (registers dev) addr (JS.Number v) |}]> s.
Proof.
  intros Hdev Haddr. unfold store_write, writeRegister.
  rewrite (proj2 (Z.ltb_lt addr 500)) by lia. by rewrite Hdev.
Qed.

Lemma write_registers_at n : ∀ i id a buf base (s : Slaves) k v,
  is_Some (s !! id) → 0 <= a + i → i <= k < i + Z.of_nat n → a + k < 500 →
  Buffer.readUInt16BE buf (base + k * 2) = Some v →
  reg_at (write_registers n i id a buf base s) id (a + k) = Some (JS.Number v).
Proof.
  induction n as [|n IH]; intros i id a buf base s k v Hs Hai Hk Hak Hv; [lia|].
  cbn [write_registers].
  destruct (decide (k = i)) as [->|Hne].
  - rewrite write_registers_frame by lia.
    rewrite Hv. cbn [default]. apply store_write_at; [done|lia].
  - apply IH; [by apply store_write_is_Some|lia|lia|lia|done].
Qed.

Lemma rtu_write_loop_eq (req : Buffer.t) id a n : ∀ i (s : Slaves),
  0 <= i → is_Some (s !! id) →
  7 + (i + Z.of_nat n) * 2 <= Buffer.len req →
  ModbusRTU.write_loop n i id a req s
  = (Some (), write_registers n i id a req 7 s).
Proof.
  induction n as [|n IH]; intros i s Hi Hs Hlen; [done|].
  cbn [ModbusRTU.write_loop write_registers].
  destruct (readUInt16BE_is_Some req (7 + i * 2)) as [v Hv]; [lia|lia|].
  rewrite Hv. unfold mbind, M_bind, lift.
  change ModbusRTU.registerCount with 500.
  rewrite guarded_write_eq by done.
  apply IH; [lia|by apply store_write_is_Some|lia].
Qed.

(** Case 0x10 on the RTU path, accepted. *)
Lemma rtu_write_multiple_ok (slaves : Slaves) (req : Buffer.t) id dev a q :
  slaves !! id = Some dev →
  rtu_frame req id 16 →
  Buffer.readUInt16BE req 2 = Some a →
  Buffer.readUInt16BE req 4 = Some q →
  Buffer.readUInt8 req 6 = Some (q * 2) →
  Buffer.len req = 7 + q * 2 + 2 →
  ModbusRTU.processRequest req slaves
  = (Some (([id; 16] ++ be16 a ++ be16 q)
           ++ crc_bytes ([id; 16] ++ be16 a ++ be16 q)),
     write_registers (Z.to_nat q) 0 id a req 7 slaves).
Proof.
  intros Hdev (Hwf & Hcrc & Hid & Hfc) Ha Hq Hbc Hlen.
  pose proof (readUInt8_range _ _ _ Hwf Hid) as Hidr.
  pose proof (readUInt16BE_range _ _ _ Hwf Ha) as Har.
  pose proof (readUInt16BE_range _ _ _ Hwf Hq) as Hqr.
  unfold ModbusRTU.processRequest, try_catch, ModbusRTU.processRequest_body.
  rewrite Hcrc, Hid, Hfc, Ha, Hq, Hbc.
  run_M. rewrite Hdev. run_M.
  rewrite rtu_write_loop_eq by (rewrite ?Hdev; (done || lia)).
  rewrite alloc_eq by lia. eval_writes.
  unfold ModbusRTU.finish. rewrite appendCRC_eq; [done|].
  apply (wf_app [id; 16] (be16 a ++ be16 q));
    [|apply wf_app; by apply be16_wf].
  repeat (apply Forall_cons_2 || apply Forall_nil_2); unfold Buffer.is_byte; lia.
Qed.

End WrittenValues.

(** X9: a register written over either transport is read back over either
    transport.  A 0x06 request for register [addr] below 500 of a
    configured slave leaves the same store whether it comes in over TCP or
    over RTU, and in that store a 0x03 request for that one register is
    answered with the value written, on both transports. *)
Theorem write_then_read
    (slaves : Slaves) (id : Z) (dev : SlaveDevice) (addr v : Z)
    (twreq : Buffer.t) (wtid : Z) (rwreq : Buffer.t)
    (trreq : Buffer.t) (rtid : Z) (rrreq : Buffer.t) :
  slaves !! id = Some dev → slave_ok dev → addr < 500 →
  tcp_request twreq wtid id 6 addr v → rtu_request rwreq id 6 addr v →
  tcp_request trreq rtid id 3 addr 1 → rtu_request rrreq id 3 addr 1 →
  ∃ slaves',
    (ModbusTCP.processRequest twreq slaves).2 = slaves'
    ∧ (ModbusRTU.processRequest rwreq slaves).2 = slaves'
    ∧ ModbusTCP.processRequest trreq slaves'
      = (Some (mbap rtid id ([3; 2] ++ be16 v)), slaves')
    ∧ ModbusRTU.processRequest rrreq slaves'
      = (Some (([id; 3; 2] ++ be16 v) ++ crc_bytes ([id; 3; 2] ++ be16 v)),
         slaves').
Proof.
  intros Hdev Hok Haddr (Htw & Htwa & Htwv) Hrw (Htr & Htra & Htrq) Hrr.
  pose proof Htw as (Hwf & _).
  pose proof (readUInt16BE_range _ _ _ Hwf Htwa) as Har.
  pose proof (readUInt16BE_range _ _ _ Hwf Htwv) as Hvr.
  exists (store_write id addr v slaves).
  set (dev' := {| registers := JS.assign (registers dev) addr (JS.Number v) |}).
  assert (Hdev' : store_write id addr v slaves !! id = Some dev').
  { rewrite (store_write_insert slaves id dev) by done. apply lookup_insert_eq. }
  assert (Hok' : slave_ok dev').
  { destruct Hok. apply assign_ok; (done || lia). }
  assert (Hval : register_number dev' (addr + 0) = v).
  { unfold register_number, register_value. rewrite Z.add_0_r.
    rewrite (proj2 (Z.ltb_lt addr 500)) by lia.
    unfold dev'. cbn [registers]. by rewrite index_assign_eq by lia. }
  split_and!.
  - rewrite (tcp_write_single slaves twreq wtid id 6 Htw dev Hdev addr v) by done.
    by rewrite (proj2 (Z.ltb_lt addr 500)) by lia.
  - by rewrite (rtu_write_single slaves id dev Hdev rwreq addr v).
  - rewrite (tcp_read_ok _ trreq rtid id 3 Htr dev' Hdev' addr 1)
      by (done || lia).
    unfold tcp_read_pdu. change (Z.to_nat 1) with 1%nat. cbn [payload].
    by rewrite Hval, app_nil_r.
  - rewrite (rtu_read_ok _ id dev' Hdev' rrreq addr 1) by (done || lia).
    unfold rtu_read_pdu. change (Z.to_nat 1) with 1%nat. cbn [payload].
    by rewrite Hval, app_nil_r.
Qed.

Lemma write_then_read_witness :
  ∃ slaves',
    (ModbusTCP.processRequest [0; 1; 0; 0; 0; 6; 1; 6; 0; 10; 4; 210] Ex.store).2
    = slaves'
    ∧ (ModbusRTU.processRequest [1; 6; 0; 10; 4; 210; 43; 85] Ex.store).2 = slaves'
    ∧ ModbusTCP.processRequest [0; 2; 0; 0; 0; 6; 1; 3; 0; 10; 0; 1] slaves'
      = (Some (mbap 2 1 ([3; 2] ++ be16 1234)), slaves')
    ∧ ModbusRTU.processRequest [1; 3; 0; 10; 0; 1; 164; 8] slaves'
      = (Some (([1; 3; 2] ++ be16 1234) ++ crc_bytes ([1; 3; 2] ++ be16 1234)),
         slaves').
Proof.
  apply (write_then_read Ex.store 1 Ex.dev 10 1234 _ 1 _ _ 2 _).
  - exact ex_store_lookup.
  - exact ex_dev_ok.
  - lia.
  - split; [concrete_tcp_frame|split; reflexivity].
  - concrete_rtu_frame.
  - split; [concrete_tcp_frame|split; reflexivity].
  - concrete_rtu_frame.
Defined.

(** X10: a 0x10 request stores every value it carries.  When the request
    is accepted (byte count twice the quantity, and a frame long enough on
    TCP, of the exact length on RTU), the response repeats the start
    address and the quantity, and afterwards register [a + i] of the slave
    holds the [i]-th 16-bit value of the frame, for every [i] below the
    quantity whose register lies below 500. *)
Theorem write_multiple_stores_values
    (slaves : Slaves) (id : Z) (dev : SlaveDevice)
    (treq : Buffer.t) (tid a q : Z) (rreq : Buffer.t) (a' q' : Z) :
  slaves !! id = Some dev →
  tcp_write_request treq tid id a q (q * 2) → 13 + q * 2 <= Buffer.len treq →
  rtu_frame rreq id 16 →
  Buffer.readUInt16BE rreq 2 = Some a' →
  Buffer.readUInt16BE rreq 4 = Some q' →
  Buffer.readUInt8 rreq 6 = Some (q' * 2) →
  Buffer.len rreq = 7 + q' * 2 + 2 →
  (∃ slaves',
     ModbusTCP.processRequest treq slaves
     = (Some (mbap tid id (write_multiple_pdu a q)), slaves')
     ∧ ∀ i v, 0 <= i < q → a + i < 500 →
         Buffer.readUInt16BE treq (13 + i * 2) = Some v →
         reg_at slaves' id (a + i) = Some (JS.Number v))
  ∧ (∃ slaves',
       ModbusRTU.processRequest rreq slaves
       = (Some (([id; 16] ++ be16 a' ++ be16 q')
                ++ crc_bytes ([id; 16] ++ be16 a' ++ be16 q')), slaves')
       ∧ ∀ i v, 0 <= i < q' → a' + i < 500 →
           Buffer.readUInt16BE rreq (7 + i * 2) = Some v →
           reg_at slaves' id (a' + i) = Some (JS.Number v)).
Proof.
  intros Hdev ((Hframe & Ha & Hq) & Hbc) Hlen Hr Ha' Hq' Hbc' Hlen'. split.
  - pose proof Hframe as (Hwf & _).
    pose proof (readUInt16BE_range _ _ _ Hwf Ha) as Har.
    eexists. split.
    + rewrite (tcp_write_multiple slaves treq tid id 16 Hframe dev Hdev a q (q * 2))
        by done.
      by decide_cmps.
    + intros i v Hi Hai Hv.
      apply write_registers_at; [by rewrite Hdev|lia|lia|lia|].
      rewrite readUInt16BE_drop by lia. rewrite <- Hv. f_equal. lia.
  - pose proof Hr as (Hwf & _).
    pose proof (readUInt16BE_range _ _ _ Hwf Ha') as Har.
    eexists. split.
    + by apply (rtu_write_multiple_ok slaves rreq id dev a' q').
    + intros i v Hi Hai Hv.
      apply write_registers_at; [by rewrite Hdev|lia|lia|lia|done].
Qed.

Lemma write_multiple_stores_values_witness :
  (∃ slaves',
     ModbusTCP.processRequest Ex.tcp_write_multiple Ex.store
     = (Some (mbap 1 1 (write_multiple_pdu 499 2)), slaves')
     ∧ ∀ i v, 0 <= i < 2 → 499 + i < 500 →
         Buffer.readUInt16BE Ex.tcp_write_multiple (13 + i * 2) = Some v →
         reg_at slaves' 1 (499 + i) = Some (JS.Number v))
  ∧ (∃ slaves',
       ModbusRTU.processRequest [1; 16; 0; 5; 0; 1; 2; 0; 42; 39; 218] Ex.store
       = (Some (([1; 16] ++ be16 5 ++ be16 1)
                ++ crc_bytes ([1; 16] ++ be16 5 ++ be16 1)), slaves')
       ∧ ∀ i v, 0 <= i < 1 → 5 + i < 500 →
           Buffer.readUInt16BE [1; 16; 0; 5; 0; 1; 2; 0; 42; 39; 218] (7 + i * 2)
           = Some v →
           reg_at slaves' 1 (5 + i) = Some (JS.Number v)).
Proof.
  apply (write_multiple_stores_values Ex.store 1 Ex.dev).
  - exact ex_store_lookup.
  - split; [split; [concrete_tcp_frame|split; reflexivity]|reflexivity].
  - concrete_len.
  - concrete_rtu_frame.
  - reflexivity.
  - reflexivity.
  - reflexivity.
  - reflexivity.
Defined.

(** ** The set of configured slaves *)

Section ConfiguredSlaves.

Context (s0 : Slaves).

Lemma writeRegister_dom slaveId idx v :
  preserves (λ s, dom s = dom s0) (writeRegister slaveId idx v).
Proof.
  intros s Hs. unfold writeRegister.
  destruct (s !! slaveId) as [dev|] eqn:Hdev; [|done]. cbn [snd].
  by rewrite dom_insert_lookup_L.
Qed.

Lemma update_loop_dom n : ∀ i base slaveId body,
  preserves (λ s, dom s = dom s0) (SlaveRoute.update_loop n i base slaveId body).
Proof.
  induction n as [|n IH]; intros i base slaveId body; cbn [SlaveRoute.update_loop].
  - apply preserves_ret.
  - apply preserves_bind; [|intros _; apply IH].
    destruct (body i); [apply writeRegister_dom|apply preserves_ret].
Qed.

Lemma post_dom slaveId group body s :
  dom s = dom s0 → dom (SlaveRoute.post slaveId group body s) = dom s0.
Proof.
  intros Hs. unfold SlaveRoute.post.
  destruct (negb _); [done|].
  destruct (_ =? 1); by apply update_loop_dom.
Qed.

Lemma clearSlave_dom slaveId s :
  dom s = dom s0 → dom (Storage.clearSlave slaveId s) = dom s0.
Proof.
  intros Hs. unfold Storage.clearSlave.
  destruct (s !! slaveId) as [dev|] eqn:Hdev; [|done].
  by rewrite dom_insert_lookup_L.
Qed.

Lemma loadSlaves_dom file s :
  dom s = dom s0 → dom (Storage.loadSlaves file s) = dom s0.
Proof.
  intros Hs. unfold Storage.loadSlaves. destruct file as [saved|]; [|done].
  apply (map_fold_weak_ind (λ r _, dom r = dom s0)); [done|].
  intros id regs m r _ IH. unfold js_in.
  destruct (r !! id) as [dev|] eqn:Hdev; [|done].
  by rewrite dom_insert_lookup_L.
Qed.

End ConfiguredSlaves.

(** X11: the set of configured slaves never changes once the server runs.
    No frame on either transport, no form posted to the web interface, no
    clear action and no reload of the data file, whatever it holds, adds a
    slave to the store or removes one. *)
Theorem configured_slaves_fixed (op : operation) (s : Slaves) :
  (∀ req, op = TcpFrame req ∨ op = RtuFrame req → Buffer.wf req) →
  dom (apply_operation op s) = dom s.
Proof.
  intros Hwf. destruct op; cbn [apply_operation].
  - apply (tcp_preserves (λ s', dom s' = dom s)); [|by apply Hwf; left|done].
    intros. apply writeRegister_dom.
  - apply (rtu_preserves (λ s', dom s' = dom s)); [|by apply Hwf; right|done].
    intros. apply writeRegister_dom.
  - by apply post_dom.
  - by apply clearSlave_dom.
  - unfold Storage.clearAllSlaves. apply dom_fmap_L.
  - by apply loadSlaves_dom.
Qed.

Lemma configured_slaves_fixed_witness :
  dom (apply_operation (TcpFrame Ex.tcp_write_multiple) Ex.store) = dom Ex.store.
Proof.
  apply (configured_slaves_fixed (TcpFrame Ex.tcp_write_multiple) Ex.store).
  intros req [[= <-]|[=]]. concrete_bytes.
Defined.

(** ** The storage module *)

Section StorageProps.



End StorageProps.



(** ** Clearing a slave *)

Section Clearing.

Lemma zeros_register_number (n : nat) k :
  register_number {| registers := replicate n (JS.Number 0) |} k = 0.
Proof.
  unfold register_number, register_value, JS.index. cbn [registers].
  destruct (k <? 500); [|done]. destruct (k <? 0); [done|].
  destruct (replicate n (JS.Number 0) !! Z.to_nat k) as [v|] eqn:Hv; [|done].
  by apply lookup_replicate in Hv as [-> _].
Qed.

Lemma payload_zeros (m : nat) a n : ∀ i,
  payload {| registers := replicate m (JS.Number 0) |} a i n
  = replicate (2 * n) 0.
Proof.
  induction n as [|n IH]; intros i; [done|].
  cbn [payload]. rewrite zeros_register_number, IH.
  replace (2 * S n)%nat with (S (S (2 * n))) by lia. done.
Qed.

Lemma clearSlave_lookup slaveId (s : Slaves) dev :
  s !! slaveId = Some dev →
  Storage.clearSlave slaveId s !! slaveId
  = Some {| registers := replicate (length (registers dev)) (JS.Number 0) |}.
Proof.
  intros Hdev. unfold Storage.clearSlave. rewrite Hdev.
  by rewrite lookup_insert_eq.
Qed.

Lemma clearSlave_other slaveId (s : Slaves) id :
  id ≠ slaveId → Storage.clearSlave slaveId s !! id = s !! id.
Proof.
  intros Hne. unfold Storage.clearSlave.
  destruct (s !! slaveId); [by rewrite lookup_insert_ne|done].
Qed.

End Clearing.

(** X14: after a clear, the slave reads as zeros.  Once [clearSlave] (the
    clear action of the web interface) has run on a configured slave of 500
    registers, a 0x03 request to that slave is answered with zeros only, on
    both transports and for every start address; the other slaves keep
    their devices, and clearing a slave that is not configured changes
    nothing. *)
Theorem clear_then_read
    (slaves : Slaves) (id : Z) (dev : SlaveDevice)
    (treq : Buffer.t) (tid a q : Z) (rreq : Buffer.t) (a' q' : Z) :
  slaves !! id = Some dev → length (registers dev) = 500%nat →
  tcp_request treq tid id 3 a q → 1 <= q <= 125 →
  rtu_request rreq id 3 a' q' → q' <= 127 →
  let slaves' := SlaveRoute.post_clear id slaves in
  ModbusTCP.processRequest treq slaves'
  = (Some (mbap tid id ([3; q * 2] ++ replicate (2 * Z.to_nat q) 0)), slaves')
  ∧ ModbusRTU.processRequest rreq slaves'
    = (Some (([id; 3; q' * 2] ++ replicate (2 * Z.to_nat q') 0)
             ++ crc_bytes ([id; 3; q' * 2] ++ replicate (2 * Z.to_nat q') 0)),
       slaves')
  ∧ (∀ id', id' ≠ id → slaves' !! id' = slaves !! id')
  ∧ (∀ id', slaves !! id' = None → SlaveRoute.post_clear id' slaves = slaves).
Proof.
  intros Hdev Hlen (Htr & Hta & Htq) Hq Hrr Hq' slaves'.
  pose proof (clearSlave_lookup id slaves dev Hdev) as Hdev'.
  fold (SlaveRoute.post_clear id slaves) in Hdev'. fold slaves' in Hdev'.
  rewrite Hlen in Hdev'.
  assert (Hok : slave_ok {| registers := replicate 500 (JS.Number 0) |}).
  { apply (fill_ok (replicate 500 (JS.Number 0))). by rewrite length_replicate. }
  split_and!.
  - rewrite (tcp_read_ok _ treq tid id 3 Htr _ Hdev' a q) by done.
    unfold tcp_read_pdu. by rewrite payload_zeros.
  - rewrite (rtu_read_ok _ id _ Hdev' rreq a' q') by done.
    unfold rtu_read_pdu. by rewrite payload_zeros.
  - intros id' Hne. by apply clearSlave_other.
  - intros id' Hnone. unfold SlaveRoute.post_clear, Storage.clearSlave.
    by rewrite Hnone.
Qed.

Lemma clear_then_read_witness :
  let slaves' := SlaveRoute.post_clear 1 Ex.store in
  ModbusTCP.processRequest Ex.tcp_read slaves'
  = (Some (mbap 7 1 ([3; 3 * 2] ++ replicate (2 * Z.to_nat 3) 0)), slaves')
  ∧ ModbusRTU.processRequest Ex.rtu_read slaves'
    = (Some (([1; 3; 3 * 2] ++ replicate (2 * Z.to_nat 3) 0)
             ++ crc_bytes ([1; 3; 3 * 2] ++ replicate (2 * Z.to_nat 3) 0)),
       slaves')
  ∧ (∀ id', id' ≠ 1 → slaves' !! id' = Ex.store !! id')
  ∧ (∀ id', Ex.store !! id' = None → SlaveRoute.post_clear id' Ex.store = Ex.store).
Proof.
  apply (clear_then_read Ex.store 1 Ex.dev Ex.tcp_read 7 499 3 Ex.rtu_read 499 3).
  - exact ex_store_lookup.
  - reflexivity.
  - split; [concrete_tcp_frame|split; reflexivity].
  - lia.
  - concrete_rtu_frame.
  - lia.
Defined.

(** ** The slave route of the web interface *)

Section WebRoute.

Lemma and_0xFFFF_mod v : JS.and v 0xFFFF = v mod 65536.
Proof.
  unfold JS.and. rewrite (ToInt32_small 65535) by lia.
  change 65535 with (Z.ones 16). rewrite Z.land_ones by lia.
  change (2 ^ 16) with 65536. unfold JS.ToInt32.
  assert (Hm : (v mod 2 ^ 32) mod 65536 = v mod 65536).
  { apply Z.mod_mod_divide. by exists 65536. }
  destruct (2 ^ 31 <=? v mod 2 ^ 32); [|done].
  rewrite <- Hm.
  replace (v mod 2 ^ 32 - 2 ^ 32) with (v mod 2 ^ 32 + (-65536) * 65536) by lia.
  apply Z.mod_add. lia.
Qed.

Lemma writeRegister_reg (s : Slaves) id idx val :
  is_Some (s !! id) → 0 <= idx →
  (writeRegister id idx val s).1 = Some ()
  ∧ is_Some ((writeRegister id idx val s).2 !! id)
  ∧ ∀ id' k, reg_at (writeRegister id idx val s).2 id' k
             = if decide (id' = id ∧ k = idx) then Some val else reg_at s id' k.
Proof.
  intros [dev Hdev] Hidx. unfold writeRegister. rewrite Hdev. cbn [fst snd].
  split; [done|]. split; [by rewrite lookup_insert_eq|].
  intros id' k. unfold reg_at.
  destruct (decide (id' = id)) as [->|Hne].
  - rewrite lookup_insert_eq, Hdev. simpl.
    destruct (decide (k = idx)) as [->|Hk].
    + rewrite decide_True by done. by rewrite index_assign_eq.
    + rewrite decide_False by (by intros [_ ?]). by rewrite index_assign_ne.
  - rewrite lookup_insert_ne by done. by rewrite decide_False by (by intros [? _]).
Qed.

Lemma update_loop_reg n : ∀ i base id body (s : Slaves) id' k,
  is_Some (s !! id) → 0 <= base + i →
  reg_at (SlaveRoute.update_loop n i base id body s).2 id' k
  = if decide (id' = id ∧ base + i <= k < base + i + Z.of_nat n)
    then match body (k - base) with
         | Some v => Some (JS.Number (v mod 65536))
         | None => reg_at s id k
         end
    else reg_at s id' k.
Proof.
  induction n as [|n IH]; intros i base id body s id' k Hs Hlo.
  - cbn [SlaveRoute.update_loop]. by rewrite decide_False by lia.
  - cbn [SlaveRoute.update_loop]. unfold mbind, M_bind.
    assert (Hi : ∀ k', k' = base + i → body (k' - base) = body i).
    { intros k' ->. f_equal. lia. }
    destruct (body i) as [v|] eqn:Hbody.
    + destruct (writeRegister_reg s id (base + i) (JS.Number (JS.and v 0xFFFF)) Hs Hlo)
        as (Hres & Hs1 & Hreg).
      destruct (writeRegister _ _ _ s) as [r s1]. cbn [fst snd] in *. subst r.
      rewrite IH by (done || lia). rewrite !Hreg, and_0xFFFF_mod.
      repeat case_decide; destruct_and?; simplify_eq;
        rewrite ?Hi by done; try done; exfalso; naive_solver lia.
    + unfold mret, M_ret. rewrite IH by (done || lia).
      repeat case_decide; destruct_and?; simplify_eq;
        try (destruct (decide (k = base + i)) as [Hk|Hk];
             [by rewrite (Hi k Hk)|]);
        try done; exfalso; naive_solver lia.
Qed.

Lemma select_group_range group : 1 <= SlaveRoute.select_group group <= 7.
Proof.
  unfold SlaveRoute.select_group. destruct group as [g|]; [|lia].
  destruct (Z.ltb_spec g 1); [simpl; lia|].
  destruct (Z.ltb_spec 7 g); simpl; lia.
Qed.

Lemma post_reg (s : Slaves) id group body id' k :
  is_Some (s !! id) →
  reg_at (SlaveRoute.post id group body s) id' k
  = let g := SlaveRoute.select_group group in
    let base := if g =? 1 then 0 else (g - 1) * 50 in
    let n := if g =? 1 then 6 else 50 in
    if decide (id' = id ∧ base <= k < base + n)
    then match body (k - base) with
         | Some v => Some (JS.Number (v mod 65536))
         | None => reg_at s id k
         end
    else reg_at s id' k.
Proof.
  intros Hs. pose proof (select_group_range group) as Hg.
  unfold SlaveRoute.post, js_in.
  destruct Hs as [dev Hdev]. rewrite Hdev. cbn [negb].
  destruct (Z.eqb_spec (SlaveRoute.select_group group) 1) as [Hg1|Hg1]; cbn zeta.
  - rewrite update_loop_reg by (by rewrite ?Hdev).
    by rewrite Z.add_0_r.
  - rewrite update_loop_reg by (rewrite ?Hdev; (done || lia)).
    by rewrite Z.add_0_r.
Qed.

Lemma array_slice_window (arr : list JS.value) start n :
  0 <= start → 0 <= n → start + n <= Z.of_nat (length arr) →
  JSArray.slice arr start (start + n) = take (Z.to_nat n) (drop (Z.to_nat start) arr).
Proof.
  intros Hs Hn Hlen. unfold JSArray.slice, JSArray.relativeIndex.
  rewrite (proj2 (Z.ltb_ge start 0)), (proj2 (Z.ltb_ge (start + n) 0)) by lia.
  rewrite !Z.min_l by lia. f_equal. lia.
Qed.

Lemma index_window (arr : list JS.value) start n i :
  0 <= start → 0 <= i < n →
  JS.index (take (Z.to_nat n) (drop (Z.to_nat start) arr)) i
  = JS.index arr (start + i).
Proof.
  intros Hs Hi. unfold JS.index.
  rewrite (proj2 (Z.ltb_ge i 0)), (proj2 (Z.ltb_ge (start + i) 0)) by lia.
  rewrite lookup_take_lt by lia. rewrite lookup_drop.
  by replace (Z.to_nat start + Z.to_nat i)%nat with (Z.to_nat (start + i)) by lia.
Qed.

Lemma get_view (s : Slaves) id group dev :
  s !! id = Some dev → length (registers dev) = 500%nat →
  let g := SlaveRoute.select_group group in
  let base := if g =? 1 then 0 else (g - 1) * 50 in
  let n := if g =? 1 then 6 else 50 in
  SlaveView.get id group s
  = Some {| SlaveView.registers_shown :=
              take (Z.to_nat n) (drop (Z.to_nat base) (registers dev));
            SlaveView.group := g;
            SlaveView.startReg := base |}.
Proof.
  intros Hdev Hlen. pose proof (select_group_range group) as Hg. cbn zeta.
  unfold SlaveView.get. rewrite Hdev.
  destruct (Z.eqb_spec (SlaveRoute.select_group group) 1) as [Hg1|Hg1].
  - change (JSArray.slice (registers dev) 0 6)
      with (JSArray.slice (registers dev) 0 (0 + 6)).
    by rewrite array_slice_window by lia.
  - by rewrite array_slice_window by lia.
Qed.

End WebRoute.

(** X15: what a posted form changes.  For a configured slave the POST
    handler stores, for every field [reg i] of the form that parses as an
    integer [v], the value [v mod 65536] in register [base + i] of that
    slave, where the window is registers 0..5 for group 1 and the 50
    registers from [(group - 1) * 50] on for groups 2 to 7 (any other
    group counts as 1); every other register of every slave keeps its
    value.  In particular no form reaches registers 6..49 or 350..499. *)
Theorem web_post_effect
    (s : Slaves) (id : Z) (group : option Z) (body : SlaveRoute.Form) :
  is_Some (s !! id) →
  let g := SlaveRoute.select_group group in
  let base := if g =? 1 then 0 else (g - 1) * 50 in
  let n := if g =? 1 then 6 else 50 in
  let s' := SlaveRoute.post id group body s in
  (∀ i v, 0 <= i < n → body i = Some v →
     reg_at s' id (base + i) = Some (JS.Number (v mod 65536)))
  ∧ (∀ i, 0 <= i < n → body i = None →
       reg_at s' id (base + i) = reg_at s id (base + i))
  ∧ (∀ id' k, id' ≠ id ∨ k < base ∨ base + n <= k →
       reg_at s' id' k = reg_at s id' k)
  ∧ (∀ id' k, 6 <= k < 50 ∨ 350 <= k → reg_at s' id' k = reg_at s id' k).
Proof.
  intros Hs g base n s'. pose proof (select_group_range group) as Hg.
  assert (Hwin : 0 <= base ∧ base + n <= 350 ∧ (base = 0 ∧ n = 6 ∨ 50 <= base)).
  { unfold base, n. fold g. destruct (Z.eqb_spec g 1); unfold g in *; lia. }
  pose proof (post_reg s id group body) as Hreg. cbn zeta in Hreg.
  fold g base n s' in Hreg.
  split_and!.
  - intros i v Hi Hv. rewrite Hreg by done. rewrite decide_True by lia.
    replace (base + i - base) with i by lia. by rewrite Hv.
  - intros i Hi Hv. rewrite Hreg by done. rewrite decide_True by lia.
    replace (base + i - base) with i by lia. by rewrite Hv.
  - intros id' k Hout. rewrite Hreg by done.
    rewrite decide_False; [done|]. intros [? ?]. destruct Hout as [?|?]; [done|lia].
  - intros id' k Hout. rewrite Hreg by done.
    rewrite decide_False; [done|]. intros [? ?]. lia.
Qed.

Lemma web_post_effect_witness :
  let body : SlaveRoute.Form := λ i, if i =? 2 then Some 70000 else None in
  let s' := SlaveRoute.post 1 (Some 3) body Ex.store in
  (∀ i v, 0 <= i < 50 → body i = Some v →
     reg_at s' 1 (100 + i) = Some (JS.Number (v mod 65536)))
  ∧ (∀ i, 0 <= i < 50 → body i = None →
       reg_at s' 1 (100 + i) = reg_at Ex.store 1 (100 + i))
  ∧ (∀ id' k, id' ≠ 1 ∨ k < 100 ∨ 100 + 50 <= k →
       reg_at s' id' k = reg_at Ex.store id' k)
  ∧ (∀ id' k, 6 <= k < 50 ∨ 350 <= k → reg_at s' id' k = reg_at Ex.store id' k).
Proof.
  intros body.
  apply (web_post_effect Ex.store 1 (Some 3) body).
  by eexists.
Defined.

(** X16: what the slave page shows.  For a configured slave of 500
    registers the GET handler renders group [g] (the requested one when it
    is 1..7, else 1) with [startReg] the first register of its window and
    the registers of the window in order: 6 registers from 0 for group 1,
    50 registers from [(g - 1) * 50] otherwise.  A slave that is not
    configured is answered 404. *)
Theorem web_get_shows_group
    (s : Slaves) (id : Z) (group : option Z) (dev : SlaveDevice) :
  s !! id = Some dev → length (registers dev) = 500%nat →
  ∃ view,
    SlaveView.get id group s = Some view
    ∧ SlaveView.group view = SlaveRoute.select_group group
    ∧ 1 <= SlaveView.group view <= 7
    ∧ SlaveView.startReg view
      = (if SlaveView.group view =? 1 then 0 else (SlaveView.group view - 1) * 50)
    ∧ length (SlaveView.registers_shown view)
      = (if SlaveView.group view =? 1 then 6%nat else 50%nat)
    ∧ (∀ i, 0 <= i < Z.of_nat (length (SlaveView.registers_shown view)) →
         JS.index (SlaveView.registers_shown view) i
         = JS.index (registers dev) (SlaveView.startReg view + i))
    ∧ (∀ id', s !! id' = None → SlaveView.get id' group s = None).
Proof.
  intros Hdev Hlen. pose proof (select_group_range group) as Hg.
  eexists. split; [by apply get_view|]. cbn [SlaveView.group SlaveView.startReg
    SlaveView.registers_shown].
  set (g := SlaveRoute.select_group group) in *.
  assert (Hshown : ∀ base n : Z, 0 <= base → 0 <= n → base + n <= 500 →
            length (take (Z.to_nat n) (drop (Z.to_nat base) (registers dev)))
            = Z.to_nat n).
  { intros base n Hb Hn Hbn. rewrite length_take, length_drop. lia. }
  split_and!; try done; try lia.
  - destruct (Z.eqb_spec g 1); rewrite Hshown by lia; lia.
  - intros i Hi. destruct (Z.eqb_spec g 1).
    + rewrite Hshown in Hi by lia. apply index_window; lia.
    + rewrite Hshown in Hi by lia. apply index_window; lia.
  - intros id' Hnone. unfold SlaveView.get. by rewrite Hnone.
Qed.

Lemma web_get_shows_group_witness :
  ∃ view,
    SlaveView.get 1 (Some 9) Ex.store = Some view
    ∧ SlaveView.group view = SlaveRoute.select_group (Some 9)
    ∧ 1 <= SlaveView.group view <= 7
    ∧ SlaveView.startReg view
      = (if SlaveView.group view =? 1 then 0 else (SlaveView.group view - 1) * 50)
    ∧ length (SlaveView.registers_shown view)
      = (if SlaveView.group view =? 1 then 6%nat else 50%nat)
    ∧ (∀ i, 0 <= i < Z.of_nat (length (SlaveView.registers_shown view)) →
         JS.index (SlaveView.registers_shown view) i
         = JS.index (registers Ex.dev) (SlaveView.startReg view + i))
    ∧ (∀ id', Ex.store !! id' = None → SlaveView.get id' (Some 9) Ex.store = None).
Proof.
  apply (web_get_shows_group Ex.store 1 (Some 9) Ex.dev).
  - exact ex_store_lookup.
  - reflexivity.
Defined.

(** X17: the slave page shows what was posted.  After a form for group
    [g] has been posted for a configured slave, in a store that satisfies
    the invariant, the GET handler for the same group shows [v mod 65536]
    in every position whose field carried the integer [v], and the value
    the register had before in every other position. *)
Theorem web_post_then_get
    (s : Slaves) (id : Z) (group : option Z) (body : SlaveRoute.Form)
    (dev : SlaveDevice) :
  store_ok s → s !! id = Some dev →
  ∃ view,
    SlaveView.get id group (SlaveRoute.post id group body s) = Some view
    ∧ ∀ i, 0 <= i < (if SlaveRoute.select_group group =? 1 then 6 else 50) →
        JS.index (SlaveView.registers_shown view) i
        = match body i with
          | Some v => JS.Number (v mod 65536)
          | None => JS.index (registers dev) (SlaveView.startReg view + i)
          end.
Proof.
  intros Hok Hdev. pose proof (select_group_range group) as Hg.
  set (s' := SlaveRoute.post id group body s).
  assert (Hs' : is_Some (s' !! id)).
  { apply elem_of_dom. unfold s'. rewrite (post_dom s) by done.
    apply elem_of_dom. by eexists. }
  destruct Hs' as [dev' Hdev'].
  assert (Hlen' : length (registers dev') = 500%nat).
  { assert (Hok' : store_ok s') by (by apply post_ok).
    by destruct (Hok' _ _ Hdev'). }
  eexists. split; [by apply get_view|].
  cbn [SlaveView.registers_shown SlaveView.startReg].
  intros i Hi.
  assert (Hbase : 0 <= (if SlaveRoute.select_group group =? 1 then 0
                        else (SlaveRoute.select_group group - 1) * 50)).
  { destruct (_ =? 1); lia. }
  rewrite index_window by done.
  pose proof (post_reg s id group body id
                ((if SlaveRoute.select_group group =? 1 then 0
                  else (SlaveRoute.select_group group - 1) * 50) + i)) as Hreg.
  cbn zeta in Hreg. fold s' in Hreg. unfold reg_at in Hreg at 1.
  rewrite Hdev' in Hreg. cbn [mbind option_bind] in Hreg.
  rewrite decide_True in Hreg by (split; [done|lia]).
  match type of Hreg with
  | context [body ?j] => replace j with i in Hreg by lia
  end.
  specialize (Hreg ltac:(by eexists)).
  unfold reg_at in Hreg. rewrite Hdev in Hreg. cbn [mbind option_bind] in Hreg.
  destruct (body i); by injection Hreg.
Qed.

Lemma web_post_then_get_witness :
  let body : SlaveRoute.Form := λ i, if i =? 2 then Some 70000 else None in
  ∃ view,
    SlaveView.get 1 (Some 3) (SlaveRoute.post 1 (Some 3) body Ex.store) = Some view
    ∧ ∀ i, 0 <= i < (if SlaveRoute.select_group (Some 3) =? 1 then 6 else 50) →
        JS.index (SlaveView.registers_shown view) i
        = match body i with
          | Some v => JS.Number (v mod 65536)
          | None => JS.index (registers Ex.dev) (SlaveView.startReg view + i)
          end.
Proof.
  intros body.
  apply (web_post_then_get Ex.store 1 (Some 3) body Ex.dev).
  - apply map_Forall_singleton. exact ex_dev_ok.
  - exact ex_store_lookup.
Defined.

(** ** Frames that arrive in pieces *)

Section Reassembly.

Lemma run_data chunks : ∀ st (s : Slaves),
  chunks ≠ [] →
  Framer.run (Framer.Data <$> chunks) st s
  = ({| Framer.buffer := Framer.buffer st ++ concat chunks;
        Framer.timerPending := true;
        Framer.portOpen := Framer.portOpen st |}, s, []).
Proof.
  induction chunks as [|c cs IH]; intros st s Hne; [done|].
  cbn [fmap list_fmap Framer.run Framer.step].
  destruct cs as [|c' cs].
  - cbn [fmap list_fmap Framer.run concat from_option app].
    unfold Framer.on_data, Buffer.concat. by rewrite app_nil_r.
  - change (list_fmap _ _ Framer.Data (c' :: cs))
      with (Framer.Data <$> (c' :: cs)).
    rewrite IH by done.
    cbn [Framer.on_data Framer.buffer Framer.portOpen from_option app concat].
    unfold Buffer.concat. by rewrite <- app_assoc.
Qed.

End Reassembly.

(** X18: a frame that arrives in several chunks is processed as one.  From
    the initial state of the framer, any number of data events followed by
    one silence hand the concatenation of the chunks to [processRequest]
    exactly once when it has at least 8 bytes, write the response only if
    there is one and the port is open, and leave the framer in its initial
    state; a shorter concatenation is discarded without touching the
    store. *)
Theorem framer_reassembles (chunks : list Buffer.t) (open : bool) (s : Slaves) :
  chunks ≠ [] →
  Framer.run ((Framer.Data <$> chunks) ++ [Framer.Silence])
    (Framer.constructor open) s
  = if 8 <=? Buffer.len (concat chunks)
    then (Framer.constructor open,
          (ModbusRTU.processRequest (concat chunks) s).2,
          if open
          then from_option (λ o, [o]) [] (ModbusRTU.processRequest (concat chunks) s).1
          else [])
    else (Framer.constructor open, s, []).
Proof.
  intros Hne. rewrite run_app, run_data by done.
  cbn [Framer.constructor Framer.buffer Framer.portOpen app].
  cbn [Framer.run Framer.step Framer.timerPending].
  destruct (Z.leb_spec 8 (Buffer.len (concat chunks))) as [Hlen|Hlen].
  - rewrite on_timeout_frame by done.
    cbn [Framer.buffer Framer.portOpen].
    destruct open; [|done].
    by rewrite app_nil_r.
  - by rewrite on_timeout_short by done.
Qed.

Lemma framer_reassembles_witness :
  Framer.run ((Framer.Data <$> [[1; 3; 1]; [243; 0; 3; 244]; [4]]) ++ [Framer.Silence])
    (Framer.constructor true) Ex.store
  = if 8 <=? Buffer.len (concat [[1; 3; 1]; [243; 0; 3; 244]; [4]])
    then (Framer.constructor true,
          (ModbusRTU.processRequest (concat [[1; 3; 1]; [243; 0; 3; 244]; [4]]) Ex.store).2,
          if true
          then from_option (λ o, [o]) []
                 (ModbusRTU.processRequest (concat [[1; 3; 1]; [243; 0; 3; 244]; [4]])
                    Ex.store).1
          else [])
    else (Framer.constructor true, Ex.store, []).
Proof.
  apply (framer_reassembles [[1; 3; 1]; [243; 0; 3; 244]; [4]] true Ex.store).
  discriminate.
Defined.

(** ** The test client *)

Section Client.

Lemma client_shift_loop n crc : SelfTester.shift_loop n crc = CRC.shift_loop n crc.
Proof. revert crc. induction n as [|n IH]; intros crc; [done|]. apply IH. Qed.

Lemma fold_left_pointwise {A B : Type} (f g : A → B → A) :
  (∀ a b, f a b = g a b) → ∀ l a, fold_left f l a = fold_left g l a.
Proof.
  intros Hfg l. induction l as [|x l IH]; intros a; [done|].
  rewrite !fold_left_step, Hfg. apply IH.
Qed.

Lemma client_crc (b : Buffer.t) : SelfTester.calculateCRC b = CRC.calculateCRC b.
Proof.
  unfold SelfTester.calculateCRC, CRC.calculateCRC.
  apply fold_left_pointwise. intros crc byte.
  unfold CRC.update. apply client_shift_loop.
Qed.

Lemma crc_bytes_length (b : Buffer.t) : length (crc_bytes b) = 2%nat.
Proof. done. Qed.

Lemma header_eq fc f1 f2 :
  0 <= fc < 256 → 0 <= f1 < 65536 → 0 <= f2 < 65536 →
  SelfTester.header fc f1 f2 = Some (([1; fc] ++ be16 f1 ++ be16 f2) ++ [0; 0]).
Proof.
  intros Hfc Hf1 Hf2.
  unfold SelfTester.header, SelfTester.set, SelfTester.DEVICE_ADDRESS.
  rewrite alloc_eq by lia. cbn [mbind option_bind].
  rewrite (Z.mod_small fc) by lia. eval_writes. done.
Qed.

Lemma header_out_of_range fc f1 f2 :
  f1 < 0 ∨ 65535 < f1 ∨ f2 < 0 ∨ 65535 < f2 →
  SelfTester.header fc f1 f2 = None.
Proof.
  intros Hbad. unfold SelfTester.header.
  rewrite alloc_eq by lia. cbn [mbind option_bind].
  unfold Buffer.writeUInt16BE at 2.
  destruct (Z.ltb_spec f1 0); [done|]. destruct (Z.ltb_spec 65535 f1); [done|].
  cbn [orb].
  destruct (_ || _); [done|]. cbn [mbind option_bind].
  unfold Buffer.writeUInt16BE.
  destruct (Z.ltb_spec f2 0); [done|]. destruct (Z.ltb_spec 65535 f2); [done|].
  lia.
Qed.

Lemma seal_eq (body : Buffer.t) :
  Buffer.wf body → length body = 6%nat →
  SelfTester.seal (body ++ [0; 0]) = body ++ crc_bytes body.
Proof.
  intros Hwf Hlen. unfold SelfTester.seal.
  rewrite slice_take by (unfold Buffer.len; rewrite length_app, Hlen; simpl; lia).
  change (Z.to_nat 6) with 6%nat. rewrite take_app_length' by done.
  rewrite client_crc. unfold crc_bytes.
  pose proof (calculateCRC_u16 body Hwf) as Hc.
  remember (CRC.calculateCRC body) as c eqn:Ec. clear Ec.
  unfold SelfTester.set.
  rewrite shr_small by lia. change 0xFF with 0xff.
  rewrite !and_0xff
    by ((split; [apply Z.div_pos; lia|apply Z.div_lt_upper_bound; lia]) || lia).
  rewrite !Z.mod_mod by lia.
  rewrite (Z.mod_small (c / 2 ^ 8)) by
    (split; [apply Z.div_pos; lia|apply Z.div_lt_upper_bound; lia]).
  rewrite (insert_app_r_alt body _ 6) by lia.
  rewrite (insert_app_r_alt body _ 7) by lia.
  rewrite Hlen. done.
Qed.

Lemma build_eq fc f1 f2 :
  0 <= fc < 256 → 0 <= f1 < 65536 → 0 <= f2 < 65536 →
  SelfTester.build fc f1 f2
  = Some (([1; fc] ++ be16 f1 ++ be16 f2)
          ++ crc_bytes ([1; fc] ++ be16 f1 ++ be16 f2)).
Proof.
  intros Hfc Hf1 Hf2. unfold SelfTester.build.
  rewrite header_eq by done. cbn [fmap option_fmap option_map].
  rewrite seal_eq; [done| |done].
  apply (wf_app [1; fc] (be16 f1 ++ be16 f2));
    [|apply wf_app; by apply be16_wf].
  repeat (apply Forall_cons_2 || apply Forall_nil_2); unfold Buffer.is_byte; lia.
Qed.

Lemma client_frame_request fc f1 f2 :
  0 <= fc < 256 → 0 <= f1 < 65536 → 0 <= f2 < 65536 →
  rtu_request (([1; fc] ++ be16 f1 ++ be16 f2)
               ++ crc_bytes ([1; fc] ++ be16 f1 ++ be16 f2)) 1 fc f1 f2.
Proof.
  intros Hfc Hf1 Hf2.
  set (body := [1; fc] ++ be16 f1 ++ be16 f2).
  assert (Hwf : Buffer.wf body).
  { apply (wf_app [1; fc] (be16 f1 ++ be16 f2));
      [|apply wf_app; by apply be16_wf].
    repeat (apply Forall_cons_2 || apply Forall_nil_2); unfold Buffer.is_byte; lia. }
  assert (Hall : Buffer.wf (body ++ crc_bytes body)).
  { apply wf_app; [done|by apply crc_bytes_wf]. }
  split; [split; [done|split; [|split]]|split; [|split]].
  - apply (verifyCRC_appended body); [done|done|by apply appendCRC_eq].
  - unfold Buffer.readUInt8. by rewrite get_app_l.
  - unfold Buffer.readUInt8. by rewrite get_app_l.
  - unfold Buffer.len. by rewrite length_app, crc_bytes_length.
  - unfold body. rewrite <- !app_assoc.
    apply (readUInt16BE_be16 [1; fc]).
  - unfold body. rewrite <- !app_assoc.
    rewrite (app_assoc [1; fc] (be16 f1)).
    apply (readUInt16BE_be16 ([1; fc] ++ be16 f1)).
Qed.

Lemma print_loop_ok n : ∀ i first (data : Buffer.t),
  0 <= i →
  (SelfTester.print_loop n i first data).2 = true
  ↔ n = 0%nat ∨ 3 + (i + Z.of_nat n) * 2 <= Buffer.len data.
Proof.
  induction n as [|n IH]; intros i first data Hi; cbn [SelfTester.print_loop].
  - split; [by left|done].
  - destruct (Buffer.readUInt16BE data (3 + i * 2)) as [v|] eqn:Hv.
    + apply readUInt16BE_Some_len in Hv.
      specialize (IH (i + 1) first data ltac:(lia)).
      destruct (SelfTester.print_loop n (i + 1) first data) as [lines ok].
      cbn [snd] in *. rewrite IH. split.
      * intros [->|?]; right; lia.
      * intros [?|?]; [lia|]. destruct n; [by left|right; lia].
    + split; [done|]. intros [?|Hlen]; [lia|].
      destruct (readUInt16BE_is_Some data (3 + i * 2)) as [v Hv']; [lia|lia|].
      congruence.
Qed.

Lemma print_loop_payload dev a (pre post : Buffer.t) N n : ∀ i,
  Buffer.len pre = 3 → 0 <= i → i + Z.of_nat n <= Z.of_nat N →
  ∃ lines,
    SelfTester.print_loop n i a (pre ++ payload dev a 0 N ++ post) = (lines, true)
    ∧ length lines = n
    ∧ ∀ k, (k < n)%nat →
        lines !! k = Some (a + (i + Z.of_nat k),
                           register_number dev (a + (i + Z.of_nat k))).
Proof.
  intros i Hpre. revert i.
  induction n as [|n IH]; intros i Hi Hn; cbn [SelfTester.print_loop].
  - exists []. split; [done|]. split; [done|]. intros k Hk. lia.
  - replace (3 + i * 2) with (Buffer.len pre + 2 * Z.of_nat (Z.to_nat i)) by lia.
    rewrite payload_read by lia.
    destruct (IH (i + 1)) as (lines & -> & Hlen & Hlines); [lia|lia|].
    eexists. split; [done|]. split; [by rewrite <- Hlen|].
    intros [|k] Hk; cbn [lookup list_lookup].
    + do 3 f_equal; lia.
    + change ((_ :: lines) !! S k) with (lines !! k).
      rewrite Hlines by lia. do 3 f_equal; lia.
Qed.

End Client.

(** X19: the requests of the test client are well-formed RTU frames.  For
    fields within 16 bits, [readHoldingRegisters] and
    [writeHoldingRegister] each send an eight-byte frame that passes
    [verifyCRC], is addressed to device 1, and carries function code 0x03
    or 0x06 with the two fields big-endian behind it;
    [readHoldingRegisters] has recorded the read as pending. *)
Theorem client_requests_well_formed (f1 f2 : Z) :
  0 <= f1 < 65536 → 0 <= f2 < 65536 →
  (∃ frame,
     SelfTester.readHoldingRegisters f1 f2
     = ({| SelfTester.start := f1; SelfTester.quantity := f2 |}, Some frame)
     ∧ rtu_request frame SelfTester.DEVICE_ADDRESS 3 f1 f2)
  ∧ (∃ frame,
       SelfTester.writeHoldingRegister f1 f2 = Some frame
       ∧ rtu_request frame SelfTester.DEVICE_ADDRESS 6 f1 f2).
Proof.
  intros Hf1 Hf2. split.
  - eexists. split.
    + unfold SelfTester.readHoldingRegisters. by rewrite build_eq by (done || lia).
    + apply client_frame_request; (done || lia).
  - eexists. split.
    + unfold SelfTester.writeHoldingRegister. by rewrite build_eq by (done || lia).
    + apply client_frame_request; (done || lia).
Qed.

Lemma client_requests_well_formed_witness :
  (∃ frame,
     SelfTester.readHoldingRegisters 329 3
     = ({| SelfTester.start := 329; SelfTester.quantity := 3 |}, Some frame)
     ∧ rtu_request frame SelfTester.DEVICE_ADDRESS 3 329 3)
  ∧ (∃ frame,
       SelfTester.writeHoldingRegister 329 3 = Some frame
       ∧ rtu_request frame SelfTester.DEVICE_ADDRESS 6 329 3).
Proof. apply (client_requests_well_formed 329 3); lia. Defined.

(** X20: a field outside 16 bits makes the test client throw before it
    sends anything: [writeUInt16BE] refuses it.  [readHoldingRegisters]
    has by then already replaced [pendingRead] with the read that was
    never sent. *)
Theorem client_request_out_of_range (f1 f2 : Z) :
  f1 < 0 ∨ 65535 < f1 ∨ f2 < 0 ∨ 65535 < f2 →
  SelfTester.readHoldingRegisters f1 f2
  = ({| SelfTester.start := f1; SelfTester.quantity := f2 |}, None)
  ∧ SelfTester.writeHoldingRegister f1 f2 = None.
Proof.
  intros Hbad.
  unfold SelfTester.readHoldingRegisters, SelfTester.writeHoldingRegister,
    SelfTester.build.
  by rewrite !header_out_of_range by done.
Qed.

Lemma client_request_out_of_range_witness :
  SelfTester.readHoldingRegisters 0 65536
  = ({| SelfTester.start := 0; SelfTester.quantity := 65536 |}, None)
  ∧ SelfTester.writeHoldingRegister 0 65536 = None.
Proof. apply (client_request_out_of_range 0 65536). lia. Defined.

(** X21: a read of the test client, end to end.  The frame that
    [readHoldingRegisters a q] sends is answered by the RTU codec for a
    configured device 1 (at most 127 registers), and the data handler of
    the client, given that response, prints one line for each register
    [a .. a + q - 1] with the value the server reports for it, does not
    throw, and clears the pending read. *)
Theorem client_read_round_trip (slaves : Slaves) (dev : SlaveDevice) (a q : Z) :
  slaves !! SelfTester.DEVICE_ADDRESS = Some dev → slave_ok dev →
  0 <= a < 65536 → 0 <= q <= 127 →
  ∃ p frame resp out,
    SelfTester.readHoldingRegisters a q = (p, Some frame)
    ∧ ModbusRTU.processRequest frame slaves = (Some resp, slaves)
    ∧ SelfTester.on_data resp (Some p) = out
    ∧ SelfTester.thrown out = false
    ∧ SelfTester.pendingRead out = None
    ∧ Z.of_nat (length (SelfTester.printed out)) = q
    ∧ ∀ i, 0 <= i < q →
        SelfTester.printed out !! Z.to_nat i
        = Some (a + i, register_number dev (a + i)).
Proof.
  intros Hdev Hok Ha Hq.
  pose proof (client_frame_request 3 a q ltac:(lia) ltac:(lia) ltac:(lia)) as Hreq.
  destruct (rtu_read_response 1 dev a q Hok ltac:(lia) ltac:(lia)) as [Hlen _].
  cbn zeta in Hlen.
  destruct (print_loop_payload dev a [1; 3; q * 2]
              (crc_bytes (rtu_read_pdu 1 dev a q)) (Z.to_nat q) (Z.to_nat q) 0)
    as (lines & Hloop & Hlines & Hat); [done|lia|lia|].
  assert (Hout : SelfTester.on_data
                   (rtu_read_pdu 1 dev a q ++ crc_bytes (rtu_read_pdu 1 dev a q))
                   (Some {| SelfTester.start := a; SelfTester.quantity := q |})
                 = {| SelfTester.printed := lines; SelfTester.thrown := false;
                      SelfTester.pendingRead := None |}).
  { rewrite app_assoc in Hloop.
    change ([1; 3; q * 2] ++ payload dev a 0 (Z.to_nat q))
      with (rtu_read_pdu 1 dev a q) in Hloop.
    unfold SelfTester.on_data. rewrite Hlen.
    rewrite (proj2 (Z.ltb_ge _ 5)) by lia.
    rewrite !(lookup_app_l (rtu_read_pdu 1 dev a q))
      by (unfold rtu_read_pdu; rewrite length_app; simpl; lia).
    change (rtu_read_pdu 1 dev a q !! 1%nat) with (Some 3).
    change (rtu_read_pdu 1 dev a q !! 2%nat) with (Some (q * 2)).
    change (3 =? 3) with true. cbn match.
    rewrite (proj2 (Z.ltb_ge _ _)) by lia.
    cbn [SelfTester.quantity SelfTester.start]. by rewrite Hloop. }
  eexists _, _, _, _. split_and!.
  - unfold SelfTester.readHoldingRegisters. by rewrite build_eq by lia.
  - apply (rtu_read_ok slaves 1 dev Hdev _ a q Hreq Hok). lia.
  - exact Hout.
  - done.
  - done.
  - cbn [SelfTester.printed]. lia.
  - intros i Hi. cbn [SelfTester.printed]. rewrite Hat by lia.
    do 3 f_equal; lia.
Qed.

Lemma client_read_round_trip_witness :
  ∃ p frame resp out,
    SelfTester.readHoldingRegisters 499 3 = (p, Some frame)
    ∧ ModbusRTU.processRequest frame Ex.store = (Some resp, Ex.store)
    ∧ SelfTester.on_data resp (Some p) = out
    ∧ SelfTester.thrown out = false
    ∧ SelfTester.pendingRead out = None
    ∧ Z.of_nat (length (SelfTester.printed out)) = 3
    ∧ ∀ i, 0 <= i < 3 →
        SelfTester.printed out !! Z.to_nat i
        = Some (499 + i, register_number Ex.dev (499 + i)).
Proof.
  apply (client_read_round_trip Ex.store Ex.dev 499 3).
  - exact ex_store_lookup.
  - exact ex_dev_ok.
  - lia.
  - lia.
Defined.

(** X22: a write of the test client, end to end.  The frame that
    [writeHoldingRegister a v] sends is answered by the RTU codec for a
    configured device 1 with the frame itself, register [a] of device 1
    then holds [v] when [a] is below 500, and the data handler of the
    client, given the response, prints the one line "Register a: v",
    does not throw and leaves the pending read alone. *)
Theorem client_write_round_trip (slaves : Slaves) (dev : SlaveDevice) (a v : Z) :
  slaves !! SelfTester.DEVICE_ADDRESS = Some dev →
  0 <= a < 65536 → 0 <= v < 65536 →
  ∃ frame slaves',
    SelfTester.writeHoldingRegister a v = Some frame
    ∧ ModbusRTU.processRequest frame slaves = (Some frame, slaves')
    ∧ (a < 500 → reg_at slaves' SelfTester.DEVICE_ADDRESS a = Some (JS.Number v))
    ∧ ∀ pending,
        SelfTester.on_data frame pending
        = {| SelfTester.printed := [(a, v)]; SelfTester.thrown := false;
             SelfTester.pendingRead := pending |}.
Proof.
  intros Hdev Ha Hv.
  pose proof (client_frame_request 6 a v ltac:(lia) ltac:(lia) ltac:(lia)) as Hreq.
  set (frame := ([1; 6] ++ be16 a ++ be16 v) ++ crc_bytes ([1; 6] ++ be16 a ++ be16 v))
    in *.
  exists frame, (store_write 1 a v slaves). split_and!.
  - unfold SelfTester.writeHoldingRegister. by rewrite build_eq by lia.
  - rewrite (rtu_write_single slaves 1 dev Hdev frame a v Hreq).
    by rewrite (rtu_echo frame 1 6 a v Hreq).
  - intros Ha500. apply store_write_at; [by rewrite Hdev|lia].
  - intros pending.
    destruct Hreq as ((_ & _ & _ & Hfc) & Hlen & Hra & Hrv).
    unfold Buffer.readUInt8 in Hfc. rewrite get_1 in Hfc.
    destruct (lookup_lt_is_Some_2 frame 2) as [bc Hbc].
    { unfold Buffer.len in Hlen. lia. }
    unfold SelfTester.on_data. rewrite Hlen, Hfc, Hbc, Hra, Hrv. done.
Qed.

Lemma client_write_round_trip_witness :
  ∃ frame slaves',
    SelfTester.writeHoldingRegister 0 1234 = Some frame
    ∧ ModbusRTU.processRequest frame Ex.store = (Some frame, slaves')
    ∧ (0 < 500 → reg_at slaves' SelfTester.DEVICE_ADDRESS 0 = Some (JS.Number 1234))
    ∧ ∀ pending,
        SelfTester.on_data frame pending
        = {| SelfTester.printed := [(0, 1234)]; SelfTester.thrown := false;
             SelfTester.pendingRead := pending |}.
Proof.
  apply (client_write_round_trip Ex.store Ex.dev 0 1234).
  - exact ex_store_lookup.
  - lia.
  - lia.
Defined.

(** X23: when the data handler of the test client throws.  The handler
    throws in exactly one situation: a read response (function code 0x03,
    at least 5 bytes and as long as its byte count announces) arrives
    while a read is pending whose quantity needs more bytes than the
    response has.  Without a pending read, and on every other frame, it
    never throws. *)
Theorem client_handler_throws (data : Buffer.t) (pending : option SelfTester.pending) :
  SelfTester.thrown (SelfTester.on_data data pending) = true
  ↔ 5 <= Buffer.len data
    ∧ data !! 1%nat = Some 3
    ∧ (∃ byteCount, data !! 2%nat = Some byteCount
                    ∧ 3 + byteCount + 2 <= Buffer.len data)
    ∧ ∃ p, pending = Some p
           ∧ Buffer.len data < 3 + SelfTester.quantity p * 2.
Proof.
  unfold SelfTester.on_data.
  destruct (Z.ltb_spec (Buffer.len data) 5) as [Hlen|Hlen].
  { cbn [SelfTester.thrown]. split; [done|]. intros (? & _). lia. }
  destruct (data !! 1%nat) as [fc|] eqn:Hfc.
  2: { cbn [SelfTester.thrown]. split; [done|]. by intros (_ & ? & _). }
  destruct (data !! 2%nat) as [bc|] eqn:Hbc.
  2: { cbn [SelfTester.thrown]. split; [done|]. by intros (_ & _ & (? & ? & _) & _). }
  destruct (Z.eqb_spec fc 3) as [->|Hfc3].
  - destruct (Z.ltb_spec (Buffer.len data) (3 + bc + 2)) as [Hshort|Hlong].
    { cbn [SelfTester.thrown]. split; [done|].
      intros (_ & _ & (bc' & [= <-] & ?) & _). lia. }
    destruct pending as [p|].
    + pose proof (print_loop_ok (Z.to_nat (SelfTester.quantity p)) 0
                    (SelfTester.start p) data ltac:(lia)) as Hok.
      destruct (SelfTester.print_loop _ _ _ _) as [lines ok].
      cbn [snd SelfTester.thrown] in *. split.
      * intros Hneg. split; [done|]. split; [done|].
        split; [by exists bc|]. exists p. split; [done|].
        destruct ok; [done|].
        destruct (Z.lt_ge_cases (Buffer.len data) (3 + SelfTester.quantity p * 2));
          [done|].
        assert (false = true); [|done]. apply Hok. right. lia.
      * intros (_ & _ & _ & p' & [= <-] & Hq).
        destruct ok; [|done]. exfalso.
        destruct (proj1 Hok eq_refl) as [?|?]; lia.
    + pose proof (print_loop_ok (Z.to_nat ((bc + 1) / 2)) 0 0 data ltac:(lia)) as Hok.
      destruct (SelfTester.print_loop _ _ _ _) as [lines ok].
      cbn [snd SelfTester.thrown] in *. split.
      * intros Hneg. destruct ok; [done|].
        assert (false = true); [|done]. apply Hok.
        destruct (Z.le_gt_cases ((bc + 1) / 2) 0); [left; lia|right].
        pose proof (Z.mul_div_le (bc + 1) 2 ltac:(lia)). lia.
      * by intros (_ & _ & _ & p' & [=] & _).
  - destruct (Z.eqb_spec fc 6) as [->|Hfc6].
    + destruct (Z.ltb_spec (Buffer.len data) 8) as [Hshort|Hlong].
      { cbn [SelfTester.thrown]. split; [done|]. by intros (_ & [=] & _). }
      destruct (readUInt16BE_is_Some data 2) as [x ->]; [lia|lia|].
      destruct (readUInt16BE_is_Some data 4) as [y ->]; [lia|lia|].
      cbn [SelfTester.thrown]. split; [done|]. by intros (_ & [=] & _).
    + cbn [SelfTester.thrown]. split; [done|]. intros (_ & [= ?] & _). done.
Qed.

(** X24: after the clear-all action, every slave reads as zeros.  Once
    [clearAllSlaves] has run, a 0x03 request to any configured slave of 500
    registers is answered with zeros only, on both transports and for
    every start address. *)
Theorem clear_all_then_read
    (slaves : Slaves) (id : Z) (dev : SlaveDevice)
    (treq : Buffer.t) (tid a q : Z) (rreq : Buffer.t) (a' q' : Z) :
  slaves !! id = Some dev → length (registers dev) = 500%nat →
  tcp_request treq tid id 3 a q → 1 <= q <= 125 →
  rtu_request rreq id 3 a' q' → q' <= 127 →
  let slaves' := Storage.clearAllSlaves slaves in
  ModbusTCP.processRequest treq slaves'
  = (Some (mbap tid id ([3; q * 2] ++ replicate (2 * Z.to_nat q) 0)), slaves')
  ∧ ModbusRTU.processRequest rreq slaves'
    = (Some (([id; 3; q' * 2] ++ replicate (2 * Z.to_nat q') 0)
             ++ crc_bytes ([id; 3; q' * 2] ++ replicate (2 * Z.to_nat q') 0)),
       slaves').
Proof.
  intros Hdev Hlen (Htr & Hta & Htq) Hq Hrr Hq' slaves'.
  assert (Hdev' : slaves' !! id
                  = Some {| registers := replicate 500 (JS.Number 0) |}).
  { unfold slaves', Storage.clearAllSlaves. rewrite lookup_fmap, Hdev.
    cbn [fmap option_fmap option_map registers]. unfold JS.fill. by rewrite Hlen. }
  assert (Hok : slave_ok {| registers := replicate 500 (JS.Number 0) |}).
  { apply (fill_ok (replicate 500 (JS.Number 0))). by rewrite length_replicate. }
  split.
  - rewrite (tcp_read_ok _ treq tid id 3 Htr _ Hdev' a q) by done.
    unfold tcp_read_pdu. by rewrite payload_zeros.
  - rewrite (rtu_read_ok _ id _ Hdev' rreq a' q') by done.
    unfold rtu_read_pdu. by rewrite payload_zeros.
Qed.

Lemma clear_all_then_read_witness :
  let slaves' := Storage.clearAllSlaves Ex.store in
  ModbusTCP.processRequest Ex.tcp_read slaves'
  = (Some (mbap 7 1 ([3; 3 * 2] ++ replicate (2 * Z.to_nat 3) 0)), slaves')
  ∧ ModbusRTU.processRequest Ex.rtu_read slaves'
    = (Some (([1; 3; 3 * 2] ++ replicate (2 * Z.to_nat 3) 0)
             ++ crc_bytes ([1; 3; 3 * 2] ++ replicate (2 * Z.to_nat 3) 0)),
       slaves').
Proof.
  apply (clear_all_then_read Ex.store 1 Ex.dev Ex.tcp_read 7 499 3 Ex.rtu_read 499 3).
  - exact ex_store_lookup.
  - reflexivity.
  - split; [concrete_tcp_frame|split; reflexivity].
  - lia.
  - concrete_rtu_frame.
  - lia.
Defined.

(** ** A register that holds a number outside 16 bits *)

Section CorruptRegister.

Context (slaves : Slaves) (id : Z) (dev : SlaveDevice) (k v : Z).
Hypothesis Hdev : slaves !! id = Some dev.
Hypothesis Hk : k < 500.
Hypothesis Hbad : JS.index (registers dev) k = JS.Number v.
Hypothesis Hv : v < 0 ∨ 65535 < v.

Lemma writeUInt16BE_refused (buf : Buffer.t) offset :
  Buffer.writeValueUInt16BE buf (JS.Number v) offset = None.
Proof.
  cbn [Buffer.writeValueUInt16BE]. unfold Buffer.writeUInt16BE.
  destruct (Z.ltb_spec v 0); [done|]. destruct (Z.ltb_spec 65535 v); [done|].
  lia.
Qed.

Lemma rtu_read_loop_refused n : ∀ i a (buf : Buffer.t),
  a + i <= k < a + i + Z.of_nat n →
  ModbusRTU.read_loop n i id a buf slaves = (None, slaves).
Proof.
  induction n as [|n IH]; intros i a buf Hin; [lia|].
  cbn [ModbusRTU.read_loop]. unfold mbind, M_bind.
  change ModbusRTU.registerCount with 500.
  rewrite (fetch_register slaves id dev Hdev). unfold lift.
  destruct (decide (k = a + i)) as [Heq|Hne].
  - unfold register_value. rewrite <- Heq.
    rewrite (proj2 (Z.ltb_lt _ 500)) by lia.
    by rewrite Hbad, writeUInt16BE_refused.
  - destruct (Buffer.writeValueUInt16BE _ _ _) as [b|]; [|done].
    apply IH. lia.
Qed.

Lemma tcp_read_loop_refused n : ∀ i a (buf : Buffer.t),
  a + i <= k < a + i + Z.of_nat n →
  ModbusTCP.read_loop n i id a buf slaves = (None, slaves).
Proof.
  induction n as [|n IH]; intros i a buf Hin; [lia|].
  cbn [ModbusTCP.read_loop]. unfold mbind, M_bind.
  change ModbusTCP.registerCount with 500.
  rewrite (fetch_register slaves id dev Hdev). unfold lift.
  destruct (decide (k = a + i)) as [Heq|Hne].
  - unfold register_value. rewrite <- Heq.
    rewrite (proj2 (Z.ltb_lt _ 500)) by lia.
    by rewrite Hbad, writeUInt16BE_refused.
  - destruct (Buffer.writeValueUInt16BE _ _ _) as [b|]; [|done].
    apply IH. lia.
Qed.

Lemma rtu_read_corrupt (req : Buffer.t) a q :
  rtu_request req id 3 a q → a <= k < a + q →
  ModbusRTU.processRequest req slaves = (None, slaves).
Proof.
  intros ((Hwf & Hcrc & Hid & Hfc) & Hlen & Ha & Hq) Hin.
  pose proof (readUInt8_range _ _ _ Hwf Hid) as Hidr.
  pose proof (readUInt16BE_range _ _ _ Hwf Hq) as Hqr.
  unfold ModbusRTU.processRequest, try_catch, ModbusRTU.processRequest_body.
  rewrite Hlen, Hcrc, Hid, Hfc, Ha, Hq.
  run_M. rewrite Hdev. run_M.
  rewrite alloc_eq by lia.
  destruct (Buffer.writeUInt8 _ id 0) as [b1|]; [|done].
  destruct (Buffer.writeUInt8 b1 3 1) as [b2|]; [|done].
  destruct (Buffer.writeUInt8 b2 (q * 2) 2) as [b3|]; [|done].
  by rewrite rtu_read_loop_refused by lia.
Qed.

Lemma tcp_read_corrupt (req : Buffer.t) tid a q :
  tcp_request req tid id 3 a q → 1 <= q <= 125 → a <= k < a + q →
  ModbusTCP.processRequest req slaves = (None, slaves).
Proof.
  intros (Hframe & Ha & Hq) Hqr Hin.
  destruct (tcp_frame_ranges req tid id 3 Hframe) as (Htidr & Hur & Hfcr).
  pose proof (pdu_len req tid id 3 Hframe) as Hpl.
  pose proof Hframe as (Hwf & Hlen & Htid & Hpid & (len & Hl & Hlen') & Hu & Hfc).
  pose proof (readUInt16BE_Some_len _ _ _ Hq) as [_ Hlen12].
  unfold ModbusTCP.processRequest, try_catch, ModbusTCP.processRequest_body.
  rewrite Htid, Hpid, Hl, Hu, Hfc.
  run_M. rewrite Hdev. run_M.
  rewrite slice_from_drop by lia. change (Z.to_nat 7) with 7%nat.
  rewrite Hpl, !readUInt16BE_drop by lia.
  change (Z.of_nat 7 + 1) with 8. change (Z.of_nat 7 + 3) with 10.
  rewrite Ha, Hq. run_M.
  rewrite alloc_eq by lia.
  destruct (Buffer.writeUInt8 _ 3 0) as [b1|]; [|done].
  destruct (Buffer.writeUInt8 b1 (q * 2) 1) as [b2|]; [|done].
  by rewrite tcp_read_loop_refused by lia.
Qed.

End CorruptRegister.

(** X25: a register that holds a number outside 16 bits silences every
    read that covers it.  When a slave holds such a number below index 500
    (a reloaded data file can install one), a 0x03 request whose range
    covers that register gets no response on either transport, not even an
    exception: [writeUInt16BE] throws and the [catch] of [processRequest]
    returns null.  The store is unchanged. *)
Theorem corrupt_register_silences_read
    (slaves : Slaves) (id : Z) (dev : SlaveDevice) (k v : Z)
    (treq : Buffer.t) (tid a q : Z) (rreq : Buffer.t) (a' q' : Z) :
  slaves !! id = Some dev → k < 500 →
  JS.index (registers dev) k = JS.Number v → v < 0 ∨ 65535 < v →
  tcp_request treq tid id 3 a q → 1 <= q <= 125 → a <= k < a + q →
  rtu_request rreq id 3 a' q' → a' <= k < a' + q' →
  ModbusTCP.processRequest treq slaves = (None, slaves)
  ∧ ModbusRTU.processRequest rreq slaves = (None, slaves).
Proof.
  intros Hdev Hk500 Hbad Hv Ht Hq Hk Hr Hk'. split.
  - by apply (tcp_read_corrupt slaves id dev k v Hdev Hk500 Hbad Hv treq tid a q).
  - by apply (rtu_read_corrupt slaves id dev k v Hdev Hk500 Hbad Hv rreq a' q').
Qed.

Lemma corrupt_register_silences_read_witness :
  let slaves := Storage.loadSlaves Ex.bad_file Ex.store in
  ModbusTCP.processRequest [0; 7; 0; 0; 0; 6; 1; 3; 0; 0; 0; 1] slaves = (None, slaves)
  ∧ ModbusRTU.processRequest [1; 3; 0; 0; 0; 1; 132; 10] slaves = (None, slaves).
Proof.
  apply (corrupt_register_silences_read
           (Storage.loadSlaves Ex.bad_file Ex.store) 1
           {| registers := [JS.Number 70000] |} 0 70000 _ 7 0 1 _ 0 1).
  - reflexivity.
  - lia.
  - reflexivity.
  - lia.
  - split; [concrete_tcp_frame|split; reflexivity].
  - lia.
  - lia.
  - concrete_rtu_frame.
  - lia.
Defined.
